(** * TaxiService: the form validators, the fare estimate and the two
      submit handlers of [script.js]

    The script is embedded shallowly.  Strings are sequences of UTF-16 code
    units, regular-expression literals are terms of a small regex type run by
    a derivative matcher, the page is a finite map from element ids to
    elements, and the handlers are state-passing functions over that page
    which may throw a [TypeError] when an element they dereference is
    missing. *)

From Stdlib Require Import ZArith NArith List Bool Ascii String Lia DecimalString.
From stdpp Require Import base option gmap strings list fin_maps.

(** ** Case conversion *)

Module Unicode.

(** [toLowerCase] and [toUpperCase] convert a string code point by code
    point with the case mappings of the Unicode Character Database, whatever
    the locale.  The tables below are those of Unicode 14.0.

    A run [(first, last, step, image)] of a simple case mapping says that
    the code points [first], [first + step], and so on up to [last] are
    mapped, [c] going to [image + (c - first)]. *)
Definition lowerRuns : list (N * N * N * N) :=
  [
   (65, 90, 1, 97); (192, 214, 1, 224); (216, 222, 1, 248);
   (256, 302, 2, 257); (306, 310, 2, 307); (313, 327, 2, 314);
   (330, 374, 2, 331); (376, 376, 1, 255); (377, 381, 2, 378);
   (385, 385, 1, 595); (386, 388, 2, 387); (390, 390, 1, 596);
   (391, 391, 1, 392); (393, 394, 1, 598); (395, 395, 1, 396);
   (398, 398, 1, 477); (399, 399, 1, 601); (400, 400, 1, 603);
   (401, 401, 1, 402); (403, 403, 1, 608); (404, 404, 1, 611);
   (406, 406, 1, 617); (407, 407, 1, 616); (408, 408, 1, 409);
   (412, 412, 1, 623); (413, 413, 1, 626); (415, 415, 1, 629);
   (416, 420, 2, 417); (422, 422, 1, 640); (423, 423, 1, 424);
   (425, 425, 1, 643); (428, 428, 1, 429); (430, 430, 1, 648);
   (431, 431, 1, 432); (433, 434, 1, 650); (435, 437, 2, 436);
   (439, 439, 1, 658); (440, 440, 1, 441); (444, 444, 1, 445);
   (452, 452, 1, 454); (453, 453, 1, 454); (455, 455, 1, 457);
   (456, 456, 1, 457); (458, 458, 1, 460); (459, 475, 2, 460);
   (478, 494, 2, 479); (497, 497, 1, 499); (498, 500, 2, 499);
   (502, 502, 1, 405); (503, 503, 1, 447); (504, 542, 2, 505);
   (544, 544, 1, 414); (546, 562, 2, 547); (570, 570, 1, 11365);
   (571, 571, 1, 572); (573, 573, 1, 410); (574, 574, 1, 11366);
   (577, 577, 1, 578); (579, 579, 1, 384); (580, 580, 1, 649);
   (581, 581, 1, 652); (582, 590, 2, 583); (880, 882, 2, 881);
   (886, 886, 1, 887); (895, 895, 1, 1011); (902, 902, 1, 940);
   (904, 906, 1, 941); (908, 908, 1, 972); (910, 911, 1, 973);
   (913, 929, 1, 945); (931, 939, 1, 963); (975, 975, 1, 983);
   (984, 1006, 2, 985); (1012, 1012, 1, 952); (1015, 1015, 1, 1016);
   (1017, 1017, 1, 1010); (1018, 1018, 1, 1019); (1021, 1023, 1, 891);
   (1024, 1039, 1, 1104); (1040, 1071, 1, 1072); (1120, 1152, 2, 1121);
   (1162, 1214, 2, 1163); (1216, 1216, 1, 1231); (1217, 1229, 2, 1218);
   (1232, 1326, 2, 1233); (1329, 1366, 1, 1377); (4256, 4293, 1, 11520);
   (4295, 4295, 1, 11559); (4301, 4301, 1, 11565); (5024, 5103, 1, 43888);
   (5104, 5109, 1, 5112); (7312, 7354, 1, 4304); (7357, 7359, 1, 4349);
   (7680, 7828, 2, 7681); (7838, 7838, 1, 223); (7840, 7934, 2, 7841);
   (7944, 7951, 1, 7936); (7960, 7965, 1, 7952); (7976, 7983, 1, 7968);
   (7992, 7999, 1, 7984); (8008, 8013, 1, 8000); (8025, 8031, 2, 8017);
   (8040, 8047, 1, 8032); (8072, 8079, 1, 8064); (8088, 8095, 1, 8080);
   (8104, 8111, 1, 8096); (8120, 8121, 1, 8112); (8122, 8123, 1, 8048);
   (8124, 8124, 1, 8115); (8136, 8139, 1, 8050); (8140, 8140, 1, 8131);
   (8152, 8153, 1, 8144); (8154, 8155, 1, 8054); (8168, 8169, 1, 8160);
   (8170, 8171, 1, 8058); (8172, 8172, 1, 8165); (8184, 8185, 1, 8056);
   (8186, 8187, 1, 8060); (8188, 8188, 1, 8179); (8486, 8486, 1, 969);
   (8490, 8490, 1, 107); (8491, 8491, 1, 229); (8498, 8498, 1, 8526);
   (8544, 8559, 1, 8560); (8579, 8579, 1, 8580); (9398, 9423, 1, 9424);
   (11264, 11311, 1, 11312); (11360, 11360, 1, 11361);
   (11362, 11362, 1, 619); (11363, 11363, 1, 7549); (11364, 11364, 1, 637);
   (11367, 11371, 2, 11368); (11373, 11373, 1, 593);
   (11374, 11374, 1, 625); (11375, 11375, 1, 592); (11376, 11376, 1, 594);
   (11378, 11378, 1, 11379); (11381, 11381, 1, 11382);
   (11390, 11391, 1, 575); (11392, 11490, 2, 11393);
   (11499, 11501, 2, 11500); (11506, 11506, 1, 11507);
   (42560, 42604, 2, 42561); (42624, 42650, 2, 42625);
   (42786, 42798, 2, 42787); (42802, 42862, 2, 42803);
   (42873, 42875, 2, 42874); (42877, 42877, 1, 7545);
   (42878, 42886, 2, 42879); (42891, 42891, 1, 42892);
   (42893, 42893, 1, 613); (42896, 42898, 2, 42897);
   (42902, 42920, 2, 42903); (42922, 42922, 1, 614);
   (42923, 42923, 1, 604); (42924, 42924, 1, 609); (42925, 42925, 1, 620);
   (42926, 42926, 1, 618); (42928, 42928, 1, 670); (42929, 42929, 1, 647);
   (42930, 42930, 1, 669); (42931, 42931, 1, 43859);
   (42932, 42946, 2, 42933); (42948, 42948, 1, 42900);
   (42949, 42949, 1, 642); (42950, 42950, 1, 7566);
   (42951, 42953, 2, 42952); (42960, 42960, 1, 42961);
   (42966, 42968, 2, 42967); (42997, 42997, 1, 42998);
   (65313, 65338, 1, 65345); (66560, 66599, 1, 66600);
   (66736, 66771, 1, 66776); (66928, 66938, 1, 66967);
   (66940, 66954, 1, 66979); (66956, 66962, 1, 66995);
   (66964, 66965, 1, 67003); (68736, 68786, 1, 68800);
   (71840, 71871, 1, 71872); (93760, 93791, 1, 93792);
   (125184, 125217, 1, 125218)
  ]%N.

Definition upperRuns : list (N * N * N * N) :=
  [
   (97, 122, 1, 65); (181, 181, 1, 924); (224, 246, 1, 192);
   (248, 254, 1, 216); (255, 255, 1, 376); (257, 303, 2, 256);
   (305, 305, 1, 73); (307, 311, 2, 306); (314, 328, 2, 313);
   (331, 375, 2, 330); (378, 382, 2, 377); (383, 383, 1, 83);
   (384, 384, 1, 579); (387, 389, 2, 386); (392, 392, 1, 391);
   (396, 396, 1, 395); (402, 402, 1, 401); (405, 405, 1, 502);
   (409, 409, 1, 408); (410, 410, 1, 573); (414, 414, 1, 544);
   (417, 421, 2, 416); (424, 424, 1, 423); (429, 429, 1, 428);
   (432, 432, 1, 431); (436, 438, 2, 435); (441, 441, 1, 440);
   (445, 445, 1, 444); (447, 447, 1, 503); (453, 453, 1, 452);
   (454, 454, 1, 452); (456, 456, 1, 455); (457, 457, 1, 455);
   (459, 459, 1, 458); (460, 460, 1, 458); (462, 476, 2, 461);
   (477, 477, 1, 398); (479, 495, 2, 478); (498, 498, 1, 497);
   (499, 499, 1, 497); (501, 501, 1, 500); (505, 543, 2, 504);
   (547, 563, 2, 546); (572, 572, 1, 571); (575, 576, 1, 11390);
   (578, 578, 1, 577); (583, 591, 2, 582); (592, 592, 1, 11375);
   (593, 593, 1, 11373); (594, 594, 1, 11376); (595, 595, 1, 385);
   (596, 596, 1, 390); (598, 599, 1, 393); (601, 601, 1, 399);
   (603, 603, 1, 400); (604, 604, 1, 42923); (608, 608, 1, 403);
   (609, 609, 1, 42924); (611, 611, 1, 404); (613, 613, 1, 42893);
   (614, 614, 1, 42922); (616, 616, 1, 407); (617, 617, 1, 406);
   (618, 618, 1, 42926); (619, 619, 1, 11362); (620, 620, 1, 42925);
   (623, 623, 1, 412); (625, 625, 1, 11374); (626, 626, 1, 413);
   (629, 629, 1, 415); (637, 637, 1, 11364); (640, 640, 1, 422);
   (642, 642, 1, 42949); (643, 643, 1, 425); (647, 647, 1, 42929);
   (648, 648, 1, 430); (649, 649, 1, 580); (650, 651, 1, 433);
   (652, 652, 1, 581); (658, 658, 1, 439); (669, 669, 1, 42930);
   (670, 670, 1, 42928); (837, 837, 1, 921); (881, 883, 2, 880);
   (887, 887, 1, 886); (891, 893, 1, 1021); (940, 940, 1, 902);
   (941, 943, 1, 904); (945, 961, 1, 913); (962, 962, 1, 931);
   (963, 971, 1, 931); (972, 972, 1, 908); (973, 974, 1, 910);
   (976, 976, 1, 914); (977, 977, 1, 920); (981, 981, 1, 934);
   (982, 982, 1, 928); (983, 983, 1, 975); (985, 1007, 2, 984);
   (1008, 1008, 1, 922); (1009, 1009, 1, 929); (1010, 1010, 1, 1017);
   (1011, 1011, 1, 895); (1013, 1013, 1, 917); (1016, 1016, 1, 1015);
   (1019, 1019, 1, 1018); (1072, 1103, 1, 1040); (1104, 1119, 1, 1024);
   (1121, 1153, 2, 1120); (1163, 1215, 2, 1162); (1218, 1230, 2, 1217);
   (1231, 1231, 1, 1216); (1233, 1327, 2, 1232); (1377, 1414, 1, 1329);
   (4304, 4346, 1, 7312); (4349, 4351, 1, 7357); (5112, 5117, 1, 5104);
   (7296, 7296, 1, 1042); (7297, 7297, 1, 1044); (7298, 7298, 1, 1054);
   (7299, 7300, 1, 1057); (7301, 7301, 1, 1058); (7302, 7302, 1, 1066);
   (7303, 7303, 1, 1122); (7304, 7304, 1, 42570); (7545, 7545, 1, 42877);
   (7549, 7549, 1, 11363); (7566, 7566, 1, 42950); (7681, 7829, 2, 7680);
   (7835, 7835, 1, 7776); (7841, 7935, 2, 7840); (7936, 7943, 1, 7944);
   (7952, 7957, 1, 7960); (7968, 7975, 1, 7976); (7984, 7991, 1, 7992);
   (8000, 8005, 1, 8008); (8017, 8023, 2, 8025); (8032, 8039, 1, 8040);
   (8048, 8049, 1, 8122); (8050, 8053, 1, 8136); (8054, 8055, 1, 8154);
   (8056, 8057, 1, 8184); (8058, 8059, 1, 8170); (8060, 8061, 1, 8186);
   (8112, 8113, 1, 8120); (8126, 8126, 1, 921); (8144, 8145, 1, 8152);
   (8160, 8161, 1, 8168); (8165, 8165, 1, 8172); (8526, 8526, 1, 8498);
   (8560, 8575, 1, 8544); (8580, 8580, 1, 8579); (9424, 9449, 1, 9398);
   (11312, 11359, 1, 11264); (11361, 11361, 1, 11360);
   (11365, 11365, 1, 570); (11366, 11366, 1, 574);
   (11368, 11372, 2, 11367); (11379, 11379, 1, 11378);
   (11382, 11382, 1, 11381); (11393, 11491, 2, 11392);
   (11500, 11502, 2, 11499); (11507, 11507, 1, 11506);
   (11520, 11557, 1, 4256); (11559, 11559, 1, 4295);
   (11565, 11565, 1, 4301); (42561, 42605, 2, 42560);
   (42625, 42651, 2, 42624); (42787, 42799, 2, 42786);
   (42803, 42863, 2, 42802); (42874, 42876, 2, 42873);
   (42879, 42887, 2, 42878); (42892, 42892, 1, 42891);
   (42897, 42899, 2, 42896); (42900, 42900, 1, 42948);
   (42903, 42921, 2, 42902); (42933, 42947, 2, 42932);
   (42952, 42954, 2, 42951); (42961, 42961, 1, 42960);
   (42967, 42969, 2, 42966); (42998, 42998, 1, 42997);
   (43859, 43859, 1, 42931); (43888, 43967, 1, 5024);
   (65345, 65370, 1, 65313); (66600, 66639, 1, 66560);
   (66776, 66811, 1, 66736); (66967, 66977, 1, 66928);
   (66979, 66993, 1, 66940); (66995, 67001, 1, 66956);
   (67003, 67004, 1, 66964); (68800, 68850, 1, 68736);
   (71872, 71903, 1, 71840); (93792, 93823, 1, 93760);
   (125218, 125251, 1, 125184)
  ]%N.

(** The code points whose upper case is more than one code point. *)
Definition upperSpecial : list (N * list N) :=
  [
   (223, [83; 83]); (329, [700; 78]); (496, [74; 780]);
   (912, [921; 776; 769]); (944, [933; 776; 769]); (1415, [1333; 1362]);
   (7830, [72; 817]); (7831, [84; 776]); (7832, [87; 778]);
   (7833, [89; 778]); (7834, [65; 702]); (8016, [933; 787]);
   (8018, [933; 787; 768]); (8020, [933; 787; 769]);
   (8022, [933; 787; 834]); (8064, [7944; 921]); (8065, [7945; 921]);
   (8066, [7946; 921]); (8067, [7947; 921]); (8068, [7948; 921]);
   (8069, [7949; 921]); (8070, [7950; 921]); (8071, [7951; 921]);
   (8072, [7944; 921]); (8073, [7945; 921]); (8074, [7946; 921]);
   (8075, [7947; 921]); (8076, [7948; 921]); (8077, [7949; 921]);
   (8078, [7950; 921]); (8079, [7951; 921]); (8080, [7976; 921]);
   (8081, [7977; 921]); (8082, [7978; 921]); (8083, [7979; 921]);
   (8084, [7980; 921]); (8085, [7981; 921]); (8086, [7982; 921]);
   (8087, [7983; 921]); (8088, [7976; 921]); (8089, [7977; 921]);
   (8090, [7978; 921]); (8091, [7979; 921]); (8092, [7980; 921]);
   (8093, [7981; 921]); (8094, [7982; 921]); (8095, [7983; 921]);
   (8096, [8040; 921]); (8097, [8041; 921]); (8098, [8042; 921]);
   (8099, [8043; 921]); (8100, [8044; 921]); (8101, [8045; 921]);
   (8102, [8046; 921]); (8103, [8047; 921]); (8104, [8040; 921]);
   (8105, [8041; 921]); (8106, [8042; 921]); (8107, [8043; 921]);
   (8108, [8044; 921]); (8109, [8045; 921]); (8110, [8046; 921]);
   (8111, [8047; 921]); (8114, [8122; 921]); (8115, [913; 921]);
   (8116, [902; 921]); (8118, [913; 834]); (8119, [913; 834; 921]);
   (8124, [913; 921]); (8130, [8138; 921]); (8131, [919; 921]);
   (8132, [905; 921]); (8134, [919; 834]); (8135, [919; 834; 921]);
   (8140, [919; 921]); (8146, [921; 776; 768]); (8147, [921; 776; 769]);
   (8150, [921; 834]); (8151, [921; 776; 834]); (8162, [933; 776; 768]);
   (8163, [933; 776; 769]); (8164, [929; 787]); (8166, [933; 834]);
   (8167, [933; 776; 834]); (8178, [8186; 921]); (8179, [937; 921]);
   (8180, [911; 921]); (8182, [937; 834]); (8183, [937; 834; 921]);
   (8188, [937; 921]); (64256, [70; 70]); (64257, [70; 73]);
   (64258, [70; 76]); (64259, [70; 70; 73]); (64260, [70; 70; 76]);
   (64261, [83; 84]); (64262, [83; 84]); (64275, [1348; 1350]);
   (64276, [1348; 1333]); (64277, [1348; 1339]); (64278, [1358; 1350]);
   (64279, [1348; 1341])
  ]%N.

(** The code points with the property Cased, as ranges with both ends
    included. *)
Definition casedRanges : list (N * N) :=
  [
   (65, 90); (97, 122); (170, 170); (181, 181); (186, 186); (192, 214);
   (216, 246); (248, 442); (444, 447); (452, 659); (661, 696); (704, 705);
   (736, 740); (837, 837); (880, 883); (886, 887); (890, 893); (895, 895);
   (902, 902); (904, 906); (908, 908); (910, 929); (931, 1013);
   (1015, 1153); (1162, 1327); (1329, 1366); (1376, 1416); (4256, 4293);
   (4295, 4295); (4301, 4301); (4304, 4346); (4349, 4351); (5024, 5109);
   (5112, 5117); (7296, 7304); (7312, 7354); (7357, 7359); (7424, 7615);
   (7680, 7957); (7960, 7965); (7968, 8005); (8008, 8013); (8016, 8023);
   (8025, 8025); (8027, 8027); (8029, 8029); (8031, 8061); (8064, 8116);
   (8118, 8124); (8126, 8126); (8130, 8132); (8134, 8140); (8144, 8147);
   (8150, 8155); (8160, 8172); (8178, 8180); (8182, 8188); (8305, 8305);
   (8319, 8319); (8336, 8348); (8450, 8450); (8455, 8455); (8458, 8467);
   (8469, 8469); (8473, 8477); (8484, 8484); (8486, 8486); (8488, 8488);
   (8490, 8493); (8495, 8500); (8505, 8505); (8508, 8511); (8517, 8521);
   (8526, 8526); (8544, 8575); (8579, 8580); (9398, 9449); (11264, 11492);
   (11499, 11502); (11506, 11507); (11520, 11557); (11559, 11559);
   (11565, 11565); (42560, 42605); (42624, 42653); (42786, 42887);
   (42891, 42894); (42896, 42954); (42960, 42961); (42963, 42963);
   (42965, 42969); (42997, 42998); (43000, 43002); (43824, 43866);
   (43868, 43880); (43888, 43967); (64256, 64262); (64275, 64279);
   (65313, 65338); (65345, 65370); (66560, 66639); (66736, 66771);
   (66776, 66811); (66928, 66938); (66940, 66954); (66956, 66962);
   (66964, 66965); (66967, 66977); (66979, 66993); (66995, 67001);
   (67003, 67004); (67456, 67456); (67459, 67461); (67463, 67504);
   (67506, 67514); (68736, 68786); (68800, 68850); (71840, 71903);
   (93760, 93823); (119808, 119892); (119894, 119964); (119966, 119967);
   (119970, 119970); (119973, 119974); (119977, 119980); (119982, 119993);
   (119995, 119995); (119997, 120003); (120005, 120069); (120071, 120074);
   (120077, 120084); (120086, 120092); (120094, 120121); (120123, 120126);
   (120128, 120132); (120134, 120134); (120138, 120144); (120146, 120485);
   (120488, 120512); (120514, 120538); (120540, 120570); (120572, 120596);
   (120598, 120628); (120630, 120654); (120656, 120686); (120688, 120712);
   (120714, 120744); (120746, 120770); (120772, 120779); (122624, 122633);
   (122635, 122654); (125184, 125251); (127280, 127305); (127312, 127337);
   (127344, 127369)
  ]%N.

(** The code points with the property Case_Ignorable. *)
Definition caseIgnorableRanges : list (N * N) :=
  [
   (39, 39); (46, 46); (58, 58); (94, 94); (96, 96); (168, 168);
   (173, 173); (175, 175); (180, 180); (183, 184); (688, 879); (884, 885);
   (890, 890); (900, 901); (903, 903); (1155, 1161); (1369, 1369);
   (1375, 1375); (1425, 1469); (1471, 1471); (1473, 1474); (1476, 1477);
   (1479, 1479); (1524, 1524); (1536, 1541); (1552, 1562); (1564, 1564);
   (1600, 1600); (1611, 1631); (1648, 1648); (1750, 1757); (1759, 1768);
   (1770, 1773); (1807, 1807); (1809, 1809); (1840, 1866); (1958, 1968);
   (2027, 2037); (2042, 2042); (2045, 2045); (2070, 2093); (2137, 2139);
   (2184, 2184); (2192, 2193); (2200, 2207); (2249, 2306); (2362, 2362);
   (2364, 2364); (2369, 2376); (2381, 2381); (2385, 2391); (2402, 2403);
   (2417, 2417); (2433, 2433); (2492, 2492); (2497, 2500); (2509, 2509);
   (2530, 2531); (2558, 2558); (2561, 2562); (2620, 2620); (2625, 2626);
   (2631, 2632); (2635, 2637); (2641, 2641); (2672, 2673); (2677, 2677);
   (2689, 2690); (2748, 2748); (2753, 2757); (2759, 2760); (2765, 2765);
   (2786, 2787); (2810, 2815); (2817, 2817); (2876, 2876); (2879, 2879);
   (2881, 2884); (2893, 2893); (2901, 2902); (2914, 2915); (2946, 2946);
   (3008, 3008); (3021, 3021); (3072, 3072); (3076, 3076); (3132, 3132);
   (3134, 3136); (3142, 3144); (3146, 3149); (3157, 3158); (3170, 3171);
   (3201, 3201); (3260, 3260); (3263, 3263); (3270, 3270); (3276, 3277);
   (3298, 3299); (3328, 3329); (3387, 3388); (3393, 3396); (3405, 3405);
   (3426, 3427); (3457, 3457); (3530, 3530); (3538, 3540); (3542, 3542);
   (3633, 3633); (3636, 3642); (3654, 3662); (3761, 3761); (3764, 3772);
   (3782, 3782); (3784, 3789); (3864, 3865); (3893, 3893); (3895, 3895);
   (3897, 3897); (3953, 3966); (3968, 3972); (3974, 3975); (3981, 3991);
   (3993, 4028); (4038, 4038); (4141, 4144); (4146, 4151); (4153, 4154);
   (4157, 4158); (4184, 4185); (4190, 4192); (4209, 4212); (4226, 4226);
   (4229, 4230); (4237, 4237); (4253, 4253); (4348, 4348); (4957, 4959);
   (5906, 5908); (5938, 5939); (5970, 5971); (6002, 6003); (6068, 6069);
   (6071, 6077); (6086, 6086); (6089, 6099); (6103, 6103); (6109, 6109);
   (6155, 6159); (6211, 6211); (6277, 6278); (6313, 6313); (6432, 6434);
   (6439, 6440); (6450, 6450); (6457, 6459); (6679, 6680); (6683, 6683);
   (6742, 6742); (6744, 6750); (6752, 6752); (6754, 6754); (6757, 6764);
   (6771, 6780); (6783, 6783); (6823, 6823); (6832, 6862); (6912, 6915);
   (6964, 6964); (6966, 6970); (6972, 6972); (6978, 6978); (7019, 7027);
   (7040, 7041); (7074, 7077); (7080, 7081); (7083, 7085); (7142, 7142);
   (7144, 7145); (7149, 7149); (7151, 7153); (7212, 7219); (7222, 7223);
   (7288, 7293); (7376, 7378); (7380, 7392); (7394, 7400); (7405, 7405);
   (7412, 7412); (7416, 7417); (7468, 7530); (7544, 7544); (7579, 7679);
   (8125, 8125); (8127, 8129); (8141, 8143); (8157, 8159); (8173, 8175);
   (8189, 8190); (8203, 8207); (8216, 8217); (8228, 8228); (8231, 8231);
   (8234, 8238); (8288, 8292); (8294, 8303); (8305, 8305); (8319, 8319);
   (8336, 8348); (8400, 8432); (11388, 11389); (11503, 11505);
   (11631, 11631); (11647, 11647); (11744, 11775); (11823, 11823);
   (12293, 12293); (12330, 12333); (12337, 12341); (12347, 12347);
   (12441, 12446); (12540, 12542); (40981, 40981); (42232, 42237);
   (42508, 42508); (42607, 42610); (42612, 42621); (42623, 42623);
   (42652, 42655); (42736, 42737); (42752, 42785); (42864, 42864);
   (42888, 42890); (42994, 42996); (43000, 43001); (43010, 43010);
   (43014, 43014); (43019, 43019); (43045, 43046); (43052, 43052);
   (43204, 43205); (43232, 43249); (43263, 43263); (43302, 43309);
   (43335, 43345); (43392, 43394); (43443, 43443); (43446, 43449);
   (43452, 43453); (43471, 43471); (43493, 43494); (43561, 43566);
   (43569, 43570); (43573, 43574); (43587, 43587); (43596, 43596);
   (43632, 43632); (43644, 43644); (43696, 43696); (43698, 43700);
   (43703, 43704); (43710, 43711); (43713, 43713); (43741, 43741);
   (43756, 43757); (43763, 43764); (43766, 43766); (43867, 43871);
   (43881, 43883); (44005, 44005); (44008, 44008); (44013, 44013);
   (64286, 64286); (64434, 64450); (65024, 65039); (65043, 65043);
   (65056, 65071); (65106, 65106); (65109, 65109); (65279, 65279);
   (65287, 65287); (65294, 65294); (65306, 65306); (65342, 65342);
   (65344, 65344); (65392, 65392); (65438, 65439); (65507, 65507);
   (65529, 65531); (66045, 66045); (66272, 66272); (66422, 66426);
   (67456, 67461); (67463, 67504); (67506, 67514); (68097, 68099);
   (68101, 68102); (68108, 68111); (68152, 68154); (68159, 68159);
   (68325, 68326); (68900, 68903); (69291, 69292); (69446, 69456);
   (69506, 69509); (69633, 69633); (69688, 69702); (69744, 69744);
   (69747, 69748); (69759, 69761); (69811, 69814); (69817, 69818);
   (69821, 69821); (69826, 69826); (69837, 69837); (69888, 69890);
   (69927, 69931); (69933, 69940); (70003, 70003); (70016, 70017);
   (70070, 70078); (70089, 70092); (70095, 70095); (70191, 70193);
   (70196, 70196); (70198, 70199); (70206, 70206); (70367, 70367);
   (70371, 70378); (70400, 70401); (70459, 70460); (70464, 70464);
   (70502, 70508); (70512, 70516); (70712, 70719); (70722, 70724);
   (70726, 70726); (70750, 70750); (70835, 70840); (70842, 70842);
   (70847, 70848); (70850, 70851); (71090, 71093); (71100, 71101);
   (71103, 71104); (71132, 71133); (71219, 71226); (71229, 71229);
   (71231, 71232); (71339, 71339); (71341, 71341); (71344, 71349);
   (71351, 71351); (71453, 71455); (71458, 71461); (71463, 71467);
   (71727, 71735); (71737, 71738); (71995, 71996); (71998, 71998);
   (72003, 72003); (72148, 72151); (72154, 72155); (72160, 72160);
   (72193, 72202); (72243, 72248); (72251, 72254); (72263, 72263);
   (72273, 72278); (72281, 72283); (72330, 72342); (72344, 72345);
   (72752, 72758); (72760, 72765); (72767, 72767); (72850, 72871);
   (72874, 72880); (72882, 72883); (72885, 72886); (73009, 73014);
   (73018, 73018); (73020, 73021); (73023, 73029); (73031, 73031);
   (73104, 73105); (73109, 73109); (73111, 73111); (73459, 73460);
   (78896, 78904); (92912, 92916); (92976, 92982); (92992, 92995);
   (94031, 94031); (94095, 94111); (94176, 94177); (94179, 94180);
   (110576, 110579); (110581, 110587); (110589, 110590); (113821, 113822);
   (113824, 113827); (118528, 118573); (118576, 118598); (119143, 119145);
   (119155, 119170); (119173, 119179); (119210, 119213); (119362, 119364);
   (121344, 121398); (121403, 121452); (121461, 121461); (121476, 121476);
   (121499, 121503); (121505, 121519); (122880, 122886); (122888, 122904);
   (122907, 122913); (122915, 122916); (122918, 122922); (123184, 123197);
   (123566, 123566); (123628, 123631); (125136, 125142); (125252, 125259);
   (127995, 127999); (917505, 917505); (917536, 917631); (917760, 917999)
  ]%N.

Fixpoint runLookup (runs : list (N * N * N * N)) (c : N) : option N :=
  match runs with
  | (first, last, step, image) :: rest =>
      if ((first <=? c) && (c <=? last) && ((c - first) mod step =? 0))%N
      then Some (image + (c - first))%N
      else runLookup rest c
  | [] => None
  end.

Fixpoint specialLookup (table : list (N * list N)) (c : N) : option (list N) :=
  match table with
  | (c', image) :: rest => if (c' =? c)%N then Some image else specialLookup rest c
  | [] => None
  end.

Definition inRanges (ranges : list (N * N)) (c : N) : bool :=
  existsb (λ r, (r.1 <=? c) && (c <=? r.2))%N ranges.

Definition cased (c : N) : bool := inRanges casedRanges c.
Definition caseIgnorable (c : N) : bool := inRanges caseIgnorableRanges c.

(** The simple mappings: a code point without an entry is its own lower or
    upper case. *)
Definition simpleLower (c : N) : N := default c (runLookup lowerRuns c).
Definition simpleUpper (c : N) : N := default c (runLookup upperRuns c).

(** Whether the code points of [l], read from its head, are case-ignorable
    ones followed by a cased letter. *)
Fixpoint casedLetterNext (l : list N) : bool :=
  match l with
  | c :: r => if caseIgnorable c then casedLetterNext r else cased c
  | [] => false
  end.

(** The condition Final_Sigma for a capital sigma between the code points
    [before] (the nearest first) and [after]: a cased letter comes before it
    and none comes after it, case-ignorable code points not counting. *)
Definition finalSigma (before after : list N) : bool :=
  casedLetterNext before && negb (casedLetterNext after).

(** The lower case of one code point where it stands.  The capital I with
    dot above becomes an i and a combining dot above; the capital sigma
    becomes the final sigma at the end of a word. *)
Definition lowerCodePoint (before after : list N) (c : N) : list N :=
  (if c =? 304 then [105; 775]
   else if c =? 931 then [if finalSigma before after then 962 else 963]
   else [simpleLower c])%N.

Fixpoint lowerCodePoints (before l : list N) : list N :=
  match l with
  | c :: r => lowerCodePoint before r c ++ lowerCodePoints (c :: before) r
  | [] => []
  end.

(** The upper case of one code point. *)
Definition upperCodePoint (c : N) : list N :=
  match specialLookup upperSpecial c with
  | Some image => image
  | None => [simpleUpper c]
  end.

End Unicode.
Import Unicode.

(** ** Strings of the engine *)

Module JsString.

(** A string value is a sequence of 16-bit code units. *)
Definition jsstring := list N.

(** The code units of a literal written in the script (all of them are
    ASCII). *)
Definition lit (s : string) : jsstring :=
  map N_of_ascii (list_ascii_of_string s).

(** [WhiteSpace] and [LineTerminator] of the language: what [\s] matches
    and what [trim] strips. *)
Definition isWhiteSpace (c : N) : bool :=
  ((9 <=? c) && (c <=? 13) || (c =? 32) || (c =? 160) || (c =? 5760)
   || (8192 <=? c) && (c <=? 8202) || (c =? 8232) || (c =? 8233)
   || (c =? 8239) || (c =? 8287) || (c =? 12288) || (c =? 65279))%N.

Fixpoint trimStart (s : jsstring) : jsstring :=
  match s with
  | c :: s' => if isWhiteSpace c then trimStart s' else s
  | [] => []
  end.

Definition trimEnd (s : jsstring) : jsstring := rev (trimStart (rev s)).

(** [String.prototype.trim] *)
Definition trim (s : jsstring) : jsstring := trimEnd (trimStart s).

(** A code point above U+FFFF is held as a lead surrogate followed by a
    trail surrogate. *)
Definition isLeadSurrogate (c : N) : bool := ((55296 <=? c) && (c <=? 56319))%N.
Definition isTrailSurrogate (c : N) : bool := ((56320 <=? c) && (c <=? 57343))%N.

(** One more code unit in front of the code points of the rest of a string:
    a lead surrogate makes one code point with a trail surrogate that
    follows it directly, and any other code unit is a code point by
    itself. *)
Definition consUnit (u : N) (cps : list N) : list N :=
  match cps with
  | t :: r =>
      if isLeadSurrogate u && isTrailSurrogate t
      then (65536 + (u - 55296) * 1024 + (t - 56320))%N :: r
      else u :: cps
  | [] => [u]
  end.

(** [StringToCodePoints] *)
Definition stringToCodePoints (s : jsstring) : list N := foldr consUnit [] s.

(** [UTF16EncodeCodePoint] (a number above U+10FFFF is no code point, and
    no string gives one). *)
Definition codePointToUnits (cp : N) : list N :=
  (if (cp <? 65536) || (1114111 <? cp) then [cp]
   else [55296 + (cp - 65536) / 1024; 56320 + (cp - 65536) mod 1024])%N.

(** [CodePointsToString] *)
Definition codePointsToString (cps : list N) : jsstring :=
  flat_map codePointToUnits cps.

(** [String.prototype.toLowerCase], [String.prototype.toUpperCase] *)
Definition toLowerCase (s : jsstring) : jsstring :=
  codePointsToString (lowerCodePoints [] (stringToCodePoints s)).
Definition toUpperCase (s : jsstring) : jsstring :=
  codePointsToString (flat_map upperCodePoint (stringToCodePoints s)).

(** [ToBoolean] of a string: only the empty string is falsy. *)
Definition truthy (s : jsstring) : bool :=
  match s with [] => false | _ :: _ => true end.

(** [String.prototype.substr(start, len)] for non-negative arguments. *)
Definition substr (start len : nat) (s : jsstring) : jsstring :=
  take len (drop start s).

(** Strict equality of two strings. *)
Definition strictEq (a b : jsstring) : bool := bool_decide (a = b).

End JsString.
Import JsString.

(** ** Regular expressions *)

Module Regex.

(** The fragment of the regex syntax the script uses: character classes,
    one-character atoms, concatenation and the quantifiers [+] and
    [{n,}].  [Void], [Eps] and [Alt] are needed by the matcher. *)
Inductive regex : Type :=
| Void
| Eps
| Cls (p : N → bool)
| Cat (r1 r2 : regex)
| Alt (r1 r2 : regex)
| Star (r : regex).

Definition Chr (c : N) : regex := Cls (N.eqb c).
Definition Plus (r : regex) : regex := Cat r (Star r).
Fixpoint AtLeast (n : nat) (r : regex) : regex :=
  match n with
  | O => Star r
  | S n' => Cat r (AtLeast n' r)
  end.

Fixpoint nullable (r : regex) : bool :=
  match r with
  | Void => false
  | Eps => true
  | Cls _ => false
  | Cat r1 r2 => nullable r1 && nullable r2
  | Alt r1 r2 => nullable r1 || nullable r2
  | Star _ => true
  end.

Fixpoint deriv (c : N) (r : regex) : regex :=
  match r with
  | Void => Void
  | Eps => Void
  | Cls p => if p c then Eps else Void
  | Cat r1 r2 =>
      if nullable r1 then Alt (Cat (deriv c r1) r2) (deriv c r2)
      else Cat (deriv c r1) r2
  | Alt r1 r2 => Alt (deriv c r1) (deriv c r2)
  | Star r1 => Cat (deriv c r1) (Star r1)
  end.

(** [RegExp.prototype.test] for a pattern anchored with [^] and [$] and
    without flags: the whole input has to be matched. *)
Fixpoint test (r : regex) (s : jsstring) : bool :=
  match s with
  | [] => nullable r
  | c :: s' => test (deriv c r) s'
  end.

(** The language of a regex. *)
Inductive lang : regex → jsstring → Prop :=
| lang_eps : lang Eps []
| lang_cls p c : p c = true → lang (Cls p) [c]
| lang_cat r1 r2 s1 s2 :
    lang r1 s1 → lang r2 s2 → lang (Cat r1 r2) (s1 ++ s2)
| lang_alt_l r1 r2 s : lang r1 s → lang (Alt r1 r2) s
| lang_alt_r r1 r2 s : lang r2 s → lang (Alt r1 r2) s
| lang_star_nil r : lang (Star r) []
| lang_star_app r s1 s2 :
    lang r s1 → lang (Star r) s2 → lang (Star r) (s1 ++ s2).

End Regex.
Import Regex.

(** ** Form Validation Functions *)

(** [[^\s@]] *)
Definition notSpaceAt (c : N) : bool := negb (isWhiteSpace c || (c =? 64)%N).

(** [/^[^\s@]+@[^\s@]+\.[^\s@]+$/] *)
Definition emailRegex : regex :=
  Cat (Plus (Cls notSpaceAt))
      (Cat (Chr 64)
           (Cat (Plus (Cls notSpaceAt))
                (Cat (Chr 46) (Plus (Cls notSpaceAt))))).

Definition isValidEmail (email : jsstring) : bool := test emailRegex email.

(** [[0-9\-\(\)\s+]] *)
Definition phoneChar (c : N) : bool :=
  ((48 <=? c) && (c <=? 57) || (c =? 45) || (c =? 40) || (c =? 41)
   || isWhiteSpace c || (c =? 43))%N.

(** [/^[0-9\-\(\)\s+]{10,}$/] *)
Definition phoneRegex : regex := AtLeast 10 (Cls phoneChar).

Definition isValidPhone (phone : jsstring) : bool := test phoneRegex phone.

(** [[a-zA-Z\s'-]] *)
Definition nameChar (c : N) : bool :=
  ((97 <=? c) && (c <=? 122) || (65 <=? c) && (c <=? 90) || isWhiteSpace c
   || (c =? 39) || (c =? 45))%N.

(** [/^[a-zA-Z\s'-]+$/] *)
Definition nameRegex : regex := Plus (Cls nameChar).

Definition isValidName (name : jsstring) : bool :=
  (3 <=? length (trim name)) && test nameRegex name.

(** ** Dates *)

Module JsDate.

Local Open Scope Z_scope.

Definition msPerDay : Z := 86400000.

Definition isDigit (c : N) : bool := ((48 <=? c) && (c <=? 57))%N.
Definition digitVal (c : N) : Z := Z.of_N c - 48.

(** Value of a run of decimal digits. *)
Definition digitsVal (ds : jsstring) : Z :=
  fold_left (λ acc c, 10 * acc + digitVal c) ds 0.

Definition isLeapYear (y : Z) : bool :=
  ((y mod 4 =? 0) && negb (y mod 100 =? 0)) || (y mod 400 =? 0).

Definition daysInMonth (y m : Z) : Z :=
  if (m =? 2) then (if isLeapYear y then 29 else 28)
  else if (m =? 4) || (m =? 6) || (m =? 9) || (m =? 11) then 30
  else 31.

(** [DayFromYear]: the day number of 1 January of year [y]. *)
Definition dayFromYear (y : Z) : Z :=
  365 * (y - 1970) + (y - 1969) / 4 - (y - 1901) / 100 + (y - 1601) / 400.

(** Days of the year before the first of month [m] (1 to 12). *)
Definition dayWithinYear (y m : Z) : Z :=
  fold_left (λ acc k, acc + daysInMonth y (Z.of_nat k)) (seq 1 (Z.to_nat (m - 1))) 0.

(** [MakeDay] for a calendar date, counted from 1 January 1970. *)
Definition makeDay (y m d : Z) : Z := dayFromYear y + dayWithinYear y m + (d - 1).

(** The date-only form [YYYY-MM-DD] of the date-time string format, which
    is what a date input holds.  It denotes midnight UTC of that day.  The
    result is [None] when the string does not have that form or names no
    calendar day. *)
Definition parseIsoDateOnly (s : jsstring) : option Z :=
  match s with
  | [y1; y2; y3; y4; 45; m1; m2; 45; d1; d2]%N =>
      if forallb isDigit [y1; y2; y3; y4; m1; m2; d1; d2] then
        let y := digitsVal [y1; y2; y3; y4] in
        let m := digitsVal [m1; m2] in
        let d := digitsVal [d1; d2] in
        if (1 <=? m) && (m <=? 12) && (1 <=? d) && (d <=? daysInMonth y m)
        then Some (makeDay y m d * msPerDay)
        else None
      else None
  | _ => None
  end.

(** A string of the date-only form whose month is not one of 01 to 12 or
    whose day is not one of 01 to 31.  It has the form of the date-time
    string format with an illegal element value, for which [Date.parse] has
    to return [NaN]. *)
Definition illegalIsoDateOnly (s : jsstring) : bool :=
  match s with
  | [y1; y2; y3; y4; 45; m1; m2; 45; d1; d2]%N =>
      forallb isDigit [y1; y2; y3; y4; m1; m2; d1; d2]
      && negb ((1 <=? digitsVal [m1; m2]) && (digitsVal [m1; m2] <=? 12)
               && (1 <=? digitsVal [d1; d2]) && (digitsVal [d1; d2] <=? 31))
  | _ => false
  end.

(** [x < y] on two time values, [None] standing for [NaN]: the comparison
    is undefined, here [None], when one of them is [NaN]. *)
Definition lessThan (x y : option Z) : option bool :=
  match x, y with
  | Some a, Some b => Some (a <? b)
  | _, _ => None
  end.

(** [x >= y] is evaluated as [x < y]; it is false when that is true or
    undefined. *)
Definition greaterEq (x y : option Z) : bool :=
  match lessThan x y with
  | Some false => true
  | _ => false
  end.

End JsDate.
Import JsDate.

(** What the script reads from its surroundings. *)
Record Env := mkEnv {
  (** the time value of [new Date()]: milliseconds since the epoch, UTC *)
  now : Z;
  (** [LocalTZA(t, isUTC)]: the offset of local time from UTC in
      milliseconds that is in force at the time value [t] when [isUTC] is
      true, and at the local time [t] when it is false *)
  localTZA : Z → bool → Z;
  (** what the engine's [Date.parse] makes of a string that is neither a
      date-only [YYYY-MM-DD] nor one with an illegal month or day: a time
      value, or [None] for an invalid date *)
  otherDateParse : jsstring → option Z;
  (** [Math.random().toString(36)] *)
  randomToString36 : jsstring
}.

(** [LocalTime(t)] and [UTC(t)] *)
Definition localTime (env : Env) (t : Z) : Z := (t + localTZA env t true)%Z.
Definition utcTime (env : Env) (t : Z) : Z := (t - localTZA env t false)%Z.

(** [new Date(dateString)]: the time value, [None] for [NaN]. *)
Definition newDate (env : Env) (dateString : jsstring) : option Z :=
  match parseIsoDateOnly dateString with
  | Some t => Some t
  | None =>
      if illegalIsoDateOnly dateString then None
      else otherDateParse env dateString
  end.

(** [today.setHours(0, 0, 0, 0)] on [today = new Date()]: the local time of
    the clock is cut down to the start of its day, and that local midnight
    is taken back to a time value with the offset in force then. *)
Definition todayMidnight (env : Env) : Z :=
  let t := localTime env (now env) in
  let date := ((t / msPerDay) * msPerDay)%Z in
  utcTime env date.

(** [selectedDate >= today] compares the two time values. *)
Definition isValidDate (env : Env) (dateString : jsstring) : bool :=
  let selectedDate := newDate env dateString in
  let today := todayMidnight env in
  greaterEq selectedDate (Some today).

(** ** Numbers read from strings *)

Module JsNumber.

Local Open Scope Z_scope.

(** The mathematical value of a numeric string before rounding:
    [Fin m e] stands for [m * 10^e]. *)
Inductive number : Type :=
| NaN
| PosInf
| NegInf
| Fin (m e : Z).

Fixpoint spanDigits (s : jsstring) : jsstring * jsstring :=
  match s with
  | c :: s' =>
      if isDigit c then let '(ds, r) := spanDigits s' in (c :: ds, r)
      else ([], s)
  | [] => ([], [])
  end.

Definition hexVal (c : N) : option Z :=
  (if (48 <=? c) && (c <=? 57) then Some (Z.of_N c - 48)%Z
   else if (97 <=? c) && (c <=? 102) then Some (Z.of_N c - 87)%Z
   else if (65 <=? c) && (c <=? 70) then Some (Z.of_N c - 55)%Z
   else None)%N.

(** Digits of a literal in base [b], at least one. *)
Definition radixVal (b : Z) (s : jsstring) : number :=
  match s with
  | [] => NaN
  | _ =>
      match
        fold_left (λ acc c,
                     match acc, hexVal c with
                     | Some a, Some d => if d <? b then Some (b * a + d) else None
                     | _, _ => None
                     end) s (Some 0)
      with
      | Some v => Fin v 0
      | None => NaN
      end
  end.

(** An optional sign in front: whether it is a minus, and the rest. *)
Definition signOf (s : jsstring) : bool * jsstring :=
  match s with
  | c :: r =>
      if (c =? 45)%N then (true, r)
      else if (c =? 43)%N then (false, r)
      else (false, s)
  | [] => (false, s)
  end.

(** [ExponentPart]: after [e] or [E], an optional sign and digits up to the
    end of the string. *)
Definition exponentVal (s : jsstring) : option Z :=
  let '(neg, r) := signOf s in
  match spanDigits r with
  | (d :: ds, []) =>
      Some (if neg then - digitsVal (d :: ds) else digitsVal (d :: ds))
  | _ => None
  end.

(** [StrUnsignedDecimalLiteral] other than [Infinity]: digits, an optional
    fraction, an optional exponent, with a digit before or after the
    dot. *)
Definition unsignedDecimal (s : jsstring) : option (Z * Z) :=
  let '(ip, r1) := spanDigits s in
  let '(fp, r2) :=
    match r1 with
    | c :: r => if (c =? 46)%N then spanDigits r else ([], r1)
    | [] => ([], r1)
    end in
  match ip ++ fp with
  | [] => None
  | _ =>
      match r2 with
      | [] => Some (digitsVal (ip ++ fp), - Z.of_nat (length fp))
      | c :: r3 =>
          if ((c =? 101) || (c =? 69))%N then
            match exponentVal r3 with
            | Some x => Some (digitsVal (ip ++ fp), x - Z.of_nat (length fp))
            | None => None
            end
          else None
      end
  end.

(** [StrDecimalLiteral] *)
Definition strDecimalLiteral (s : jsstring) : number :=
  let '(neg, r) := signOf s in
  if strictEq r (lit "Infinity") then (if neg then NegInf else PosInf)
  else match unsignedDecimal r with
       | Some (m, e) => Fin (if neg then - m else m) e
       | None => NaN
       end.

(** The prefixes [0x], [0o] and [0b], in either case: the radix and the
    rest. *)
Definition radixPrefix (s : jsstring) : option (Z * jsstring) :=
  match s with
  | c1 :: c2 :: r =>
      if (c1 =? 48)%N then
        if ((c2 =? 120) || (c2 =? 88))%N then Some (16, r)
        else if ((c2 =? 111) || (c2 =? 79))%N then Some (8, r)
        else if ((c2 =? 98) || (c2 =? 66))%N then Some (2, r)
        else None
      else None
  | _ => None
  end.

(** [StringToNumber]: surrounding white space is dropped, the empty string
    is 0, and the rest is a hexadecimal, octal, binary or decimal literal
    or [NaN]. *)
Definition stringToNumber (s : jsstring) : number :=
  match trim s with
  | [] => Fin 0 0
  | t =>
      match radixPrefix t with
      | Some (b, r) => radixVal b r
      | None => strDecimalLiteral t
      end
  end.

(** [m * 10^e] as a fraction. *)
Definition fraction (m e : Z) : Z * Z :=
  if 0 <=? e then (m * 10 ^ e, 1) else (m, 10 ^ (- e)).

(** [x < 1] where [x] is the Number value of the literal, that is its
    mathematical value rounded to the nearest double, ties to even (the
    language lets an engine shorten a literal of more than twenty
    significant digits first; the engines in use round the full literal).
    The double just below 1 is [1 - 2^-53] and the tie goes to 1, so the
    rounded value is below 1 exactly when the mathematical value is below
    [1 - 2^-54]. *)
Definition ltOne (x : number) : bool :=
  match x with
  | NaN => false
  | PosInf => false
  | NegInf => true
  | Fin m e => let '(p, q) := fraction m e in p * 2 ^ 54 <? (2 ^ 54 - 1) * q
  end.

(** [x > 8]: the double just above 8 is [8 + 2^-49] and the tie goes to 8,
    so the rounded value is above 8 exactly when the mathematical value is
    above [8 + 2^-50]. *)
Definition gtEight (x : number) : bool :=
  match x with
  | NaN => false
  | PosInf => true
  | NegInf => false
  | Fin m e => let '(p, q) := fraction m e in (2 ^ 53 + 1) * q <? p * 2 ^ 50
  end.

(** [Number.prototype.toString] of an integer. *)
Definition integerToString (z : Z) : jsstring :=
  lit (DecimalString.NilZero.string_of_int (Z.to_int z)).

End JsNumber.
Import JsNumber.

(** ** The page *)

(** The properties of an element that the script reads or writes. *)
Record Element := mkElement {
  value : jsstring;          (** [.value] *)
  checked : bool;            (** [.checked] *)
  textContent : jsstring;    (** [.textContent] *)
  display : jsstring;        (** [.style.display] *)
  errorClass : bool          (** whether the selector [.error] matches it *)
}.

Definition setTextContent (t : jsstring) (e : Element) : Element :=
  mkElement (value e) (checked e) t (display e) (errorClass e).

Definition setDisplay (v : jsstring) (e : Element) : Element :=
  mkElement (value e) (checked e) (textContent e) v (errorClass e).

(** The callback handed to [setTimeout] by the contact handler. *)
Inductive Callback := ResetContactForm.

(** The page and what else a handler acts on: the elements by id, whether
    the default action of the event was prevented, the calls of
    [window.scrollTo], the objects logged to the console (label, then
    property names with their values) and the pending timers (callback and
    delay in milliseconds), latest first. *)
Record World := mkWorld {
  doc : gmap string Element;
  defaultPrevented : bool;
  scrolledTo : list (Z * Z);
  console : list (jsstring * list (string * jsstring));
  timers : list (Callback * Z)
}.

Definition withDoc (f : gmap string Element → gmap string Element) (w : World) : World :=
  mkWorld (f (doc w)) (defaultPrevented w) (scrolledTo w) (console w) (timers w).

(** A property access on [null] throws; the id that was looked up is kept. *)
Inductive JsError := TypeError (id : string).

Inductive Result (A : Type) : Type :=
| Ok (a : A) (w : World)
| Throw (e : JsError).
Arguments Ok {A} a w.
Arguments Throw {A} e.

(** A statement of the script: it runs on a world and either completes with
    a value and the world it leaves, or throws. *)
Definition Js (A : Type) : Type := World → Result A.

#[global] Instance Js_ret : MRet Js := λ A a w, Ok a w.
#[global] Instance Js_bind : MBind Js := λ A B f m w,
  match m w with
  | Ok a w' => f a w'
  | Throw e => Throw e
  end.

(** [document.getElementById(id).value] *)
Definition getValue (id : string) : Js jsstring := λ w,
  match doc w !! id with
  | Some e => Ok (value e) w
  | None => Throw (TypeError id)
  end.

(** [document.getElementById(id).checked] *)
Definition getChecked (id : string) : Js bool := λ w,
  match doc w !! id with
  | Some e => Ok (checked e) w
  | None => Throw (TypeError id)
  end.

(** [document.getElementById(id).textContent = t] *)
Definition putTextContent (id : string) (t : jsstring) : Js unit := λ w,
  match doc w !! id with
  | Some e => Ok () (withDoc <[id := setTextContent t e]> w)
  | None => Throw (TypeError id)
  end.

(** [document.getElementById(id).style.display = v] *)
Definition putDisplay (id : string) (v : jsstring) : Js unit := λ w,
  match doc w !! id with
  | Some e => Ok () (withDoc <[id := setDisplay v e]> w)
  | None => Throw (TypeError id)
  end.

(** [event.preventDefault()] *)
Definition preventDefault : Js unit := λ w,
  Ok () (mkWorld (doc w) true (scrolledTo w) (console w) (timers w)).

(** [window.scrollTo(x, y)] *)
Definition scrollTo (x y : Z) : Js unit := λ w,
  Ok () (mkWorld (doc w) (defaultPrevented w) ((x, y) :: scrolledTo w) (console w) (timers w)).

(** [console.log(label, { ... })] *)
Definition consoleLog (label : jsstring) (obj : list (string * jsstring)) : Js unit := λ w,
  Ok () (mkWorld (doc w) (defaultPrevented w) (scrolledTo w) ((label, obj) :: console w) (timers w)).

(** [setTimeout(cb, delay)] *)
Definition setTimeout (cb : Callback) (delay : Z) : Js unit := λ w,
  Ok () (mkWorld (doc w) (defaultPrevented w) (scrolledTo w) (console w) ((cb, delay) :: timers w)).

(** Clear all error messages: every element matched by [.error] gets the
    empty text. *)
Definition clearErrors : Js unit := λ w,
  Ok () (withDoc (fmap (λ e, if errorClass e then setTextContent [] e else e)) w).

(** Display error message for a specific field.  A missing error element is
    skipped. *)
Definition showError (fieldId : string) (message : jsstring) : Js unit := λ w,
  match doc w !! (fieldId +:+ "Error") with
  | Some errorElement =>
      Ok () (withDoc <[fieldId +:+ "Error" := setTextContent message errorElement]> w)
  | None => Ok () w
  end.

(** The body of a failing branch: [showError(...); isValid = false;]. *)
Definition reject (fieldId : string) (message : string) : Js bool :=
  showError fieldId (lit message) ;; mret false.

(** ** Booking Form Validation *)

(** The condition of line 133:
    [pickupLocation && dropoffLocation &&
     pickupLocation.toLowerCase() === dropoffLocation.toLowerCase()]. *)
Definition sameLocations (pickupLocation dropoffLocation : jsstring) : bool :=
  truthy pickupLocation && truthy dropoffLocation
  && strictEq (toLowerCase pickupLocation) (toLowerCase dropoffLocation).

(** The condition of line 154:
    [!passengers || passengers < 1 || passengers > 8].  The two comparisons
    convert the string to a number. *)
Definition passengersRejected (passengers : jsstring) : bool :=
  negb (truthy passengers)
  || ltOne (stringToNumber passengers)
  || gtEight (stringToNumber passengers).

(** Lines 61 to 175: the reads and the checks, with the final value of
    [isValid] and the values the success branch logs. *)
Definition bookingValidation (env : Env) : Js (bool * list (string * jsstring)) :=
  preventDefault ;;
  clearErrors ;;
  let isValid := true in
  service ← getValue "service" ;
  fullName ← getValue "fullName" ;
  email ← getValue "email" ;
  phone ← getValue "phone" ;
  pickupLocation ← getValue "pickupLocation" ;
  dropoffLocation ← getValue "dropoffLocation" ;
  date ← getValue "date" ;
  time ← getValue "time" ;
  passengers ← getValue "passengers" ;
  paymentMethod ← getValue "paymentMethod" ;
  terms ← getChecked "terms" ;
  privacy ← getChecked "privacy" ;
  (* Validate Service Type *)
  isValid ← (if negb (truthy service)
             then reject "service" "Please select a service type"
             else mret isValid) ;
  (* Validate Full Name *)
  isValid ← (if negb (truthy fullName)
             then reject "fullName" "Full name is required"
             else if negb (isValidName fullName)
             then reject "fullName" "Full name must be at least 3 characters and contain only letters"
             else mret isValid) ;
  (* Validate Email *)
  isValid ← (if negb (truthy email)
             then reject "email" "Email is required"
             else if negb (isValidEmail email)
             then reject "email" "Please enter a valid email address"
             else mret isValid) ;
  (* Validate Phone *)
  isValid ← (if negb (truthy phone)
             then reject "phone" "Phone number is required"
             else if negb (isValidPhone phone)
             then reject "phone" "Please enter a valid phone number (at least 10 digits)"
             else mret isValid) ;
  (* Validate Pickup Location *)
  isValid ← (if negb (truthy pickupLocation)
             then reject "pickupLocation" "Pickup location is required"
             else if length (trim pickupLocation) <? 3
             then reject "pickupLocation" "Pickup location must be at least 3 characters"
             else mret isValid) ;
  (* Validate Drop-off Location *)
  isValid ← (if negb (truthy dropoffLocation)
             then reject "dropoffLocation" "Drop-off location is required"
             else if length (trim dropoffLocation) <? 3
             then reject "dropoffLocation" "Drop-off location must be at least 3 characters"
             else mret isValid) ;
  (* Validate pickup and drop-off are different *)
  isValid ← (if sameLocations pickupLocation dropoffLocation
             then reject "dropoffLocation" "Pickup and drop-off locations must be different"
             else mret isValid) ;
  (* Validate Date *)
  isValid ← (if negb (truthy date)
             then reject "date" "Date is required"
             else if negb (isValidDate env date)
             then reject "date" "Please select a date in the future"
             else mret isValid) ;
  (* Validate Time *)
  isValid ← (if negb (truthy time)
             then reject "time" "Time is required"
             else mret isValid) ;
  (* Validate Passengers *)
  isValid ← (if passengersRejected passengers
             then reject "passengers" "Please select between 1 and 8 passengers"
             else mret isValid) ;
  (* Validate Payment Method *)
  isValid ← (if negb (truthy paymentMethod)
             then reject "paymentMethod" "Please select a payment method"
             else mret isValid) ;
  (* Validate Terms & Conditions *)
  isValid ← (if negb terms
             then reject "terms" "You must agree to the terms and conditions"
             else mret isValid) ;
  (* Validate Privacy Policy *)
  isValid ← (if negb privacy
             then reject "privacy" "You must agree to the privacy policy"
             else mret isValid) ;
  mret (isValid,
        [("service", service); ("fullName", fullName); ("email", email);
         ("phone", phone); ("pickupLocation", pickupLocation);
         ("dropoffLocation", dropoffLocation); ("date", date); ("time", time);
         ("passengers", passengers); ("paymentMethod", paymentMethod)]).

(** Handle booking form submission *)
Definition handleBookingSubmit (env : Env) : Js unit :=
  '(isValid, data) ← bookingValidation env ;
  (* If all validations pass *)
  if isValid : bool then
    putDisplay "bookingForm" (lit "none") ;;
    putDisplay "bookingSuccess" (lit "block") ;;
    let bookingRef := lit "BK" ++ toUpperCase (substr 2 9 (randomToString36 env)) in
    putTextContent "bookingRef" bookingRef ;;
    scrollTo 0 0 ;;
    consoleLog (lit "Booking Data:") data
  else mret ().

(** ** Fare estimate *)

(** What a property read on the [baseFares] object can give. *)
Inductive JsValue :=
| VUndefined
| VNumber (n : Z)
| VObject.

(** The object literal of [updateEstimatedFare]. *)
Definition baseFares : gmap jsstring Z :=
  list_to_map [(lit "economy", 10%Z); (lit "comfort", 15%Z); (lit "xl", 25%Z);
               (lit "premium", 40%Z); (lit "delivery", 8%Z)].

(** The property names an object literal inherits from [Object.prototype];
    each of them holds a function or an object. *)
Definition objectPrototypeKeys : list jsstring :=
  map lit ["constructor"; "hasOwnProperty"; "isPrototypeOf";
           "propertyIsEnumerable"; "toLocaleString"; "toString"; "valueOf";
           "__proto__"; "__defineGetter__"; "__defineSetter__";
           "__lookupGetter__"; "__lookupSetter__"].

(** [baseFares[service]] *)
Definition baseFaresGet (service : jsstring) : JsValue :=
  match baseFares !! service with
  | Some n => VNumber n
  | None =>
      if bool_decide (service ∈ objectPrototypeKeys) then VObject else VUndefined
  end.

(** [v || 0] *)
Definition orZero (v : JsValue) : JsValue :=
  match v with
  | VUndefined => VNumber 0
  | VNumber n => if (n =? 0)%Z then VNumber 0 else VNumber n
  | VObject => VObject
  end.

(** Update estimated fare based on service type.  [baseFare > 0] converts a
    function or an object to [NaN], for which the comparison is false. *)
Definition updateEstimatedFare (service : jsstring) : Js unit :=
  let baseFare := orZero (baseFaresGet service) in
  match baseFare with
  | VNumber n =>
      if (0 <? n)%Z then
        let distanceCharge := 10%Z in
        let totalEstimate := (n + distanceCharge)%Z in
        putTextContent "baseFare" (lit "$" ++ integerToString n) ;;
        putTextContent "estimatedTotal" (lit "$" ++ integerToString totalEstimate) ;;
        putTextContent "summaryTotal" (lit "$" ++ integerToString totalEstimate) ;;
        putDisplay "priceEstimate" (lit "block")
      else putDisplay "priceEstimate" (lit "none")
  | _ => putDisplay "priceEstimate" (lit "none")
  end.

(** ** Contact Form Validation *)

(** Lines 277 to 330: the reads and the checks. *)
Definition contactValidation : Js (bool * list (string * jsstring)) :=
  preventDefault ;;
  clearErrors ;;
  let isValid := true in
  name ← getValue "name" ;
  email ← getValue "email" ;
  phone ← getValue "phone" ;
  subject ← getValue "subject" ;
  message ← getValue "message" ;
  (* Validate Name *)
  isValid ← (if negb (truthy name)
             then reject "name" "Name is required"
             else if negb (isValidName name)
             then reject "name" "Please enter a valid name"
             else mret isValid) ;
  (* Validate Email *)
  isValid ← (if negb (truthy email)
             then reject "email" "Email is required"
             else if negb (isValidEmail email)
             then reject "email" "Please enter a valid email address"
             else mret isValid) ;
  (* Validate Phone *)
  isValid ← (if negb (truthy phone)
             then reject "phone" "Phone number is required"
             else if negb (isValidPhone phone)
             then reject "phone" "Please enter a valid phone number"
             else mret isValid) ;
  (* Validate Subject *)
  isValid ← (if negb (truthy subject)
             then reject "subject" "Please select a subject"
             else mret isValid) ;
  (* Validate Message *)
  isValid ← (if negb (truthy message)
             then reject "message" "Message is required"
             else if length (trim message) <? 10
             then reject "message" "Message must be at least 10 characters"
             else mret isValid) ;
  mret (isValid,
        [("name", name); ("email", email); ("phone", phone);
         ("subject", subject); ("message", message)]).

(** Handle contact form submission *)
Definition handleContactSubmit : Js unit :=
  '(isValid, data) ← contactValidation ;
  if isValid : bool then
    (* Show success message *)
    putDisplay "contactForm" (lit "none") ;;
    putDisplay "contactSuccess" (lit "block") ;;
    (* Reset form after 3 seconds *)
    setTimeout ResetContactForm 3000 ;;
    consoleLog (lit "Contact Data:") data
  else mret ().

(** ** The rules as the spec words them *)

(** The spec's reading of the phone rule: digits, spaces, hyphens and
    parentheses, a plus only in front, ten characters or more. *)
Definition spec_phoneChar (c : N) : bool :=
  (isDigit c || (c =? 32) || (c =? 45) || (c =? 40) || (c =? 41))%N.

Definition spec_isValidPhone (s : jsstring) : bool :=
  match s with
  | 43%N :: s' => forallb spec_phoneChar s'
  | _ => forallb spec_phoneChar s
  end && (10 <=? length s).

(** The spec's reading of the name rule: trimmed length at least 3, and
    only letters, spaces, apostrophes and hyphens. *)
Definition isLetter (c : N) : bool :=
  ((97 <=? c) && (c <=? 122) || (65 <=? c) && (c <=? 90))%N.

Definition spec_nameChar (c : N) : bool :=
  (isLetter c || (c =? 32) || (c =? 39) || (c =? 45))%N.

Definition spec_isValidName (s : jsstring) : bool :=
  (3 <=? length (trim s)) && forallb spec_nameChar s.

(** The spec's reading of the email rule. *)
Definition EmailShape (s : jsstring) : Prop :=
  count_occ N.eq_dec s 64%N = 1
  ∧ forallb (λ c, negb (isWhiteSpace c)) s = true
  ∧ ∃ x y z, s = x ++ [64%N] ++ y ++ [46%N] ++ z ∧ x ≠ [] ∧ y ≠ [] ∧ z ≠ [].


(** ** Clocks used in the examples *)

(** 2 November 2026, 10:00 UTC, read in a zone at UTC. *)
Definition envUtc : Env :=
  mkEnv 1793613600000 (λ _ _, 0%Z) (λ _, None) (lit "0.4fzyo82mvyr").

(** 2 November 2026, 15:00 UTC, read in a zone five hours west of UTC: the
    local time is 10:00 on 2 November. *)
Definition envWest : Env :=
  mkEnv 1793631600000 (λ _ _, (-18000000)%Z) (λ _, None) (lit "0.4fzyo82mvyr").

(** 25 October 2026, 12:00 UTC, read in the Azores: summer time, at UTC,
    ended at 01:00 UTC that day and the zone is one hour west of UTC since.
    The local day began under summer time. *)
Definition envAzores : Env :=
  mkEnv 1792929600000
    (λ t _, if (t <? 1792890000000)%Z then 0%Z else (-3600000)%Z)
    (λ _, None) (lit "0.4fzyo82mvyr").


(** The day number of the local calendar day of [new Date()]. *)
Definition localDay (env : Env) : Z := (localTime env (now env) / msPerDay)%Z.

(** The offset of local time from UTC that is in force at the start of that
    local day. *)
Definition offsetAtMidnight (env : Env) : Z :=
  localTZA env (localDay env * msPerDay)%Z false.

(** ** Reading a page *)

Definition fieldValue (id : string) (w : World) : option jsstring :=
  value <$> doc w !! id.
Definition fieldChecked (id : string) (w : World) : option bool :=
  checked <$> doc w !! id.
Definition textOf (id : string) (w : World) : option jsstring :=
  textContent <$> doc w !! id.
Definition displayOf (id : string) (w : World) : option jsstring :=
  display <$> doc w !! id.

(** The values of the controls of the booking form. *)
Record BookingInput := mkBookingInput {
  b_service : jsstring;
  b_fullName : jsstring;
  b_email : jsstring;
  b_phone : jsstring;
  b_pickupLocation : jsstring;
  b_dropoffLocation : jsstring;
  b_date : jsstring;
  b_time : jsstring;
  b_passengers : jsstring;
  b_paymentMethod : jsstring;
  b_terms : bool;
  b_privacy : bool
}.

(** The controls as the handler reads them (lines 68 to 79); [None] when
    one of them is missing from the page. *)
Definition readBooking (w : World) : option BookingInput :=
  service ← fieldValue "service" w ;
  fullName ← fieldValue "fullName" w ;
  email ← fieldValue "email" w ;
  phone ← fieldValue "phone" w ;
  pickupLocation ← fieldValue "pickupLocation" w ;
  dropoffLocation ← fieldValue "dropoffLocation" w ;
  date ← fieldValue "date" w ;
  time ← fieldValue "time" w ;
  passengers ← fieldValue "passengers" w ;
  paymentMethod ← fieldValue "paymentMethod" w ;
  terms ← fieldChecked "terms" w ;
  privacy ← fieldChecked "privacy" w ;
  Some (mkBookingInput service fullName email phone pickupLocation
          dropoffLocation date time passengers paymentMethod terms privacy).

(** The object logged by the success branch of the booking handler. *)
Definition bookingData (v : BookingInput) : list (string * jsstring) :=
  [("service", b_service v); ("fullName", b_fullName v); ("email", b_email v);
   ("phone", b_phone v); ("pickupLocation", b_pickupLocation v);
   ("dropoffLocation", b_dropoffLocation v); ("date", b_date v);
   ("time", b_time v); ("passengers", b_passengers v);
   ("paymentMethod", b_paymentMethod v)].

(** The values of the controls of the contact form. *)
Record ContactInput := mkContactInput {
  c_name : jsstring;
  c_email : jsstring;
  c_phone : jsstring;
  c_subject : jsstring;
  c_message : jsstring
}.

Definition readContact (w : World) : option ContactInput :=
  name ← fieldValue "name" w ;
  email ← fieldValue "email" w ;
  phone ← fieldValue "phone" w ;
  subject ← fieldValue "subject" w ;
  message ← fieldValue "message" w ;
  Some (mkContactInput name email phone subject message).

Definition contactData (v : ContactInput) : list (string * jsstring) :=
  [("name", c_name v); ("email", c_email v); ("phone", c_phone v);
   ("subject", c_subject v); ("message", c_message v)].

(** ** Each field's rule taken alone *)

(** The failed checks of a booking submission, field and message, in the
    order of the handler: every [if] statement of lines 81 to 175 on its
    own, none depending on the outcome of another. *)
Definition bookingErrors (env : Env) (v : BookingInput) : list (string * string) :=
  (if negb (truthy (b_service v))
   then [("service", "Please select a service type")] else [])
  ++ (if negb (truthy (b_fullName v))
      then [("fullName", "Full name is required")]
      else if negb (isValidName (b_fullName v))
      then [("fullName", "Full name must be at least 3 characters and contain only letters")]
      else [])
  ++ (if negb (truthy (b_email v))
      then [("email", "Email is required")]
      else if negb (isValidEmail (b_email v))
      then [("email", "Please enter a valid email address")]
      else [])
  ++ (if negb (truthy (b_phone v))
      then [("phone", "Phone number is required")]
      else if negb (isValidPhone (b_phone v))
      then [("phone", "Please enter a valid phone number (at least 10 digits)")]
      else [])
  ++ (if negb (truthy (b_pickupLocation v))
      then [("pickupLocation", "Pickup location is required")]
      else if length (trim (b_pickupLocation v)) <? 3
      then [("pickupLocation", "Pickup location must be at least 3 characters")]
      else [])
  ++ (if negb (truthy (b_dropoffLocation v))
      then [("dropoffLocation", "Drop-off location is required")]
      else if length (trim (b_dropoffLocation v)) <? 3
      then [("dropoffLocation", "Drop-off location must be at least 3 characters")]
      else [])
  ++ (if sameLocations (b_pickupLocation v) (b_dropoffLocation v)
      then [("dropoffLocation", "Pickup and drop-off locations must be different")]
      else [])
  ++ (if negb (truthy (b_date v))
      then [("date", "Date is required")]
      else if negb (isValidDate env (b_date v))
      then [("date", "Please select a date in the future")]
      else [])
  ++ (if negb (truthy (b_time v))
      then [("time", "Time is required")] else [])
  ++ (if passengersRejected (b_passengers v)
      then [("passengers", "Please select between 1 and 8 passengers")] else [])
  ++ (if negb (truthy (b_paymentMethod v))
      then [("paymentMethod", "Please select a payment method")] else [])
  ++ (if negb (b_terms v)
      then [("terms", "You must agree to the terms and conditions")] else [])
  ++ (if negb (b_privacy v)
      then [("privacy", "You must agree to the privacy policy")] else []).

(** The same for the contact form, lines 290 to 330. *)
Definition contactErrors (v : ContactInput) : list (string * string) :=
  (if negb (truthy (c_name v))
   then [("name", "Name is required")]
   else if negb (isValidName (c_name v))
   then [("name", "Please enter a valid name")]
   else [])
  ++ (if negb (truthy (c_email v))
      then [("email", "Email is required")]
      else if negb (isValidEmail (c_email v))
      then [("email", "Please enter a valid email address")]
      else [])
  ++ (if negb (truthy (c_phone v))
      then [("phone", "Phone number is required")]
      else if negb (isValidPhone (c_phone v))
      then [("phone", "Please enter a valid phone number")]
      else [])
  ++ (if negb (truthy (c_subject v))
      then [("subject", "Please select a subject")] else [])
  ++ (if negb (truthy (c_message v))
      then [("message", "Message is required")]
      else if length (trim (c_message v)) <? 10
      then [("message", "Message must be at least 10 characters")]
      else []).

Definition noErrors (l : list (string * string)) : bool :=
  match l with [] => true | _ :: _ => false end.

(** ** Worlds a handler leaves *)

(** After [event.preventDefault(); clearErrors();]. *)
Definition cleared (w : World) : World :=
  mkWorld ((λ e, if errorClass e then setTextContent [] e else e) <$> doc w)
          true (scrolledTo w) (console w) (timers w).

(** After one [showError(fieldId, message)]. *)
Definition showErrorW (fieldId : string) (message : jsstring) (w : World) : World :=
  withDoc (alter (setTextContent message) (fieldId +:+ "Error")) w.

(** After a sequence of [showError] calls. *)
Definition showErrs (l : list (string * string)) (w : World) : World :=
  foldl (λ w fm, showErrorW fm.1 (lit fm.2) w) w l.

(** The message of the last call in [l] that writes the element [k]. *)
Definition lastAt (k : string) (l : list (string * string)) : option string :=
  foldl (λ acc fm, if String.eqb (fm.1 +:+ "Error") k then Some fm.2 else acc) None l.

(** Whether the page has an element with this id. *)
Definition present (id : string) (w : World) : bool :=
  match doc w !! id with Some _ => true | None => false end.

(** Whether the page has an element with this id that [.error] matches,
    so that [clearErrors] empties it. *)
Definition errorSlotAt (id : string) (w : World) : bool :=
  match doc w !! id with Some e => errorClass e | None => false end.

(** After the success branch of the booking handler (lines 178 to 203). *)
Definition bookingSuccessW (env : Env) (v : BookingInput) (w : World) : World :=
  mkWorld
    (alter (setTextContent (lit "BK" ++ toUpperCase (substr 2 9 (randomToString36 env))))
       "bookingRef"
       (alter (setDisplay (lit "block")) "bookingSuccess"
          (alter (setDisplay (lit "none")) "bookingForm" (doc w))))
    (defaultPrevented w) ((0, 0)%Z :: scrolledTo w)
    ((lit "Booking Data:", bookingData v) :: console w) (timers w).

(** After the success branch of the contact handler (lines 332 to 351). *)
Definition contactSuccessW (v : ContactInput) (w : World) : World :=
  mkWorld
    (alter (setDisplay (lit "block")) "contactSuccess"
       (alter (setDisplay (lit "none")) "contactForm" (doc w)))
    (defaultPrevented w) (scrolledTo w)
    ((lit "Contact Data:", contactData v) :: console w)
    ((ResetContactForm, 3000%Z) :: timers w).

(** An integer written in decimal with an optional sign. *)
Definition integerOf (s : jsstring) : option Z :=
  let '(neg, ds) := signOf s in
  match ds with
  | [] => None
  | _ => if forallb isDigit ds
         then Some (if neg then - digitsVal ds else digitsVal ds)%Z
         else None
  end.

(** ** Pages used in the examples *)

Definition control (v : jsstring) : Element := mkElement v false [] [] false.
Definition checkbox (b : bool) : Element := mkElement [] b [] [] false.
Definition errorSlot : Element := mkElement [] false [] [] true.
Definition panel : Element := mkElement [] false [] [] false.

(** A booking page whose controls hold [v]. *)
Definition bookingPage (v : BookingInput) : World :=
  mkWorld
    (list_to_map
       [("service", control (b_service v)); ("serviceError", errorSlot);
        ("fullName", control (b_fullName v)); ("fullNameError", errorSlot);
        ("email", control (b_email v)); ("emailError", errorSlot);
        ("phone", control (b_phone v)); ("phoneError", errorSlot);
        ("pickupLocation", control (b_pickupLocation v));
        ("pickupLocationError", errorSlot);
        ("dropoffLocation", control (b_dropoffLocation v));
        ("dropoffLocationError", errorSlot);
        ("date", control (b_date v)); ("dateError", errorSlot);
        ("time", control (b_time v)); ("timeError", errorSlot);
        ("passengers", control (b_passengers v)); ("passengersError", errorSlot);
        ("paymentMethod", control (b_paymentMethod v));
        ("paymentMethodError", errorSlot);
        ("terms", checkbox (b_terms v)); ("termsError", errorSlot);
        ("privacy", checkbox (b_privacy v)); ("privacyError", errorSlot);
        ("bookingForm", panel); ("bookingSuccess", panel); ("bookingRef", panel)])
    false [] [] [].

(** A contact page whose controls hold [v]. *)
Definition contactPage (v : ContactInput) : World :=
  mkWorld
    (list_to_map
       [("name", control (c_name v)); ("nameError", errorSlot);
        ("email", control (c_email v)); ("emailError", errorSlot);
        ("phone", control (c_phone v)); ("phoneError", errorSlot);
        ("subject", control (c_subject v)); ("subjectError", errorSlot);
        ("message", control (c_message v)); ("messageError", errorSlot);
        ("contactForm", panel); ("contactSuccess", panel)])
    false [] [] [].

(** The elements of the price panel. *)
Definition farePage : World :=
  mkWorld
    (list_to_map
       [("baseFare", panel); ("estimatedTotal", panel); ("summaryTotal", panel);
        ("priceEstimate", panel)])
    false [] [] [].

(** A booking that passes every check at the clock [envUtc]. *)
Definition goodBooking : BookingInput :=
  mkBookingInput (lit "economy") (lit "Ann Lee") (lit "a@b.c")
    (lit "555-123-4567") (lit "12 Main St") (lit "Airport")
    (lit "2026-11-03") (lit "10:00") (lit "2") (lit "cash") true true.

(** The same booking with the given pickup and drop-off locations. *)
Definition bookingBetween (pickup dropoff : jsstring) : BookingInput :=
  mkBookingInput (lit "economy") (lit "Ann Lee") (lit "a@b.c")
    (lit "555-123-4567") pickup dropoff
    (lit "2026-11-03") (lit "10:00") (lit "2") (lit "cash") true true.

(** The same booking with the given passenger count. *)
Definition bookingFor (passengers : jsstring) : BookingInput :=
  mkBookingInput (lit "economy") (lit "Ann Lee") (lit "a@b.c")
    (lit "555-123-4567") (lit "12 Main St") (lit "Airport")
    (lit "2026-11-03") (lit "10:00") passengers (lit "cash") true true.



(** A booking form and a contact form submitted with nothing filled in. *)
Definition emptyBooking : BookingInput :=
  mkBookingInput [] [] [] [] [] [] [] [] [] [] false false.

Definition emptyContact : ContactInput := mkContactInput [] [] [] [] [].

(** ** Event Listeners: what the page is given when it has loaded *)

(** [String.prototype.padStart(targetLength, fill)] for a fill string of one
    code unit. *)
Definition padStart (targetLength : nat) (fill : N) (s : jsstring) : jsstring :=
  replicate (targetLength - length s) fill ++ s.

Module JsCalendar.

Local Open Scope Z_scope.

Fixpoint yearUp (fuel : nat) (y day : Z) : Z :=
  match fuel with
  | O => y
  | S fuel' => if dayFromYear (y + 1) <=? day then yearUp fuel' (y + 1) day else y
  end.

(** [YearFromTime] on day numbers: the last year whose first day is not
    after [day].  The search starts from a year that is not after it (a year
    has at most 366 days, and at least 365) and then needs a step for about
    every 133590 days of distance from 1970. *)
Definition yearFromDay (day : Z) : Z :=
  yearUp (Z.to_nat (Z.abs day / 100000) + 2)
         (1970 + (if 0 <=? day then day / 366 else day / 365)) day.

Fixpoint monthUp (fuel : nat) (y m r : Z) : Z :=
  match fuel with
  | O => m
  | S fuel' => if dayWithinYear y (m + 1) <=? r then monthUp fuel' y (m + 1) r else m
  end.

(** [MonthFromTime], counted from 1: the month of day [r] of year [y]. *)
Definition monthFromDayInYear (y r : Z) : Z := monthUp 11 y 1 r.

(** The year of the date-time string format: four digits from 0 to 9999, a
    sign and six digits otherwise. *)
Definition yearString (y : Z) : jsstring :=
  if (0 <=? y) && (y <=? 9999) then padStart 4 48 (integerToString y)
  else (if y <? 0 then [45%N] else [43%N]) ++ padStart 6 48 (integerToString (Z.abs y)).

(** [toISOString().split('T')[0]] of the date with time value [t]: the UTC
    calendar day as [YYYY-MM-DD]. *)
Definition toISODate (t : Z) : jsstring :=
  let day := t / msPerDay in
  let y := yearFromDay day in
  let r := day - dayFromYear y in
  let m := monthFromDayInYear y r in
  let d := r - dayWithinYear y m + 1 in
  yearString y ++ lit "-" ++ padStart 2 48 (integerToString m)
  ++ lit "-" ++ padStart 2 48 (integerToString d).

End JsCalendar.
Import JsCalendar.

(** Line 375: [new Date().toISOString().split('T')[0]], the value given to
    the date input as its minimum. *)
Definition minDate (env : Env) : jsstring := toISODate (now env).

(** [now.getHours()] and [now.getMinutes()]: hour and minute of the local
    time. *)
Definition localHours (env : Env) : Z :=
  ((localTime env (now env) / 3600000) mod 24)%Z.
Definition localMinutes (env : Env) : Z :=
  ((localTime env (now env) / 60000) mod 60)%Z.

(** Lines 391 to 393: the template string [`${hours}:${minutes}`]. *)
Definition defaultTime (env : Env) : jsstring :=
  let hours := padStart 2 48 (integerToString (localHours env)) in
  let minutes := padStart 2 48 (integerToString (localMinutes env)) in
  hours ++ lit ":" ++ minutes.

Definition setValue (v : jsstring) (e : Element) : Element :=
  mkElement v (checked e) (textContent e) (display e) (errorClass e).

(** Lines 387 to 394: set current time as default, when the page has a time
    input. *)
Definition setDefaultTime (env : Env) : Js unit := λ w,
  match doc w !! "time" with
  | Some timeInput =>
      Ok () (withDoc <["time" := setValue (defaultTime env) timeInput]> w)
  | None => Ok () w
  end.

(** ** Further readings of a page *)

(** The controls of the two forms in the order the handlers read them. *)
Definition bookingControls : list string :=
  ["service"; "fullName"; "email"; "phone"; "pickupLocation";
   "dropoffLocation"; "date"; "time"; "passengers"; "paymentMethod";
   "terms"; "privacy"].

Definition contactControls : list string :=
  ["name"; "email"; "phone"; "subject"; "message"].

(** The first of the given elements that the page lacks. *)
Definition firstMissing (ids : list string) (w : World) : option string :=
  List.find (λ id, negb (present id w)) ids.

(** The elements [updateEstimatedFare] writes when it has a fare, in the
    order of the writes. *)
Definition farePanelIds : list string :=
  ["baseFare"; "estimatedTotal"; "summaryTotal"; "priceEstimate"].

(** The digits of a base-36 numeral as [toString(36)] writes them, and in
    upper case. *)
Definition isBase36 (c : N) : bool :=
  ((48 <=? c) && (c <=? 57) || (97 <=? c) && (c <=? 122))%N.
Definition isUpperBase36 (c : N) : bool :=
  ((48 <=? c) && (c <=? 57) || (65 <=? c) && (c <=? 90))%N.


(** A valid time string [HH:MM]. *)
Definition isTimeString (s : jsstring) : bool :=
  match s with
  | [h1; h2; c; m1; m2] =>
      forallb isDigit [h1; h2; m1; m2] && (c =? 58)%N
      && (digitsVal [h1; h2] <? 24)%Z && (digitsVal [m1; m2] <? 60)%Z
  | _ => false
  end.

(** A booking page on which an earlier attempt has left a message for the
    email field. *)
Definition stalePage (v : BookingInput) : World :=
  withDoc <["emailError" := mkElement [] false (lit "Email is required") [] true]>
    (bookingPage v).

(** The day number and the year of the UTC calendar day of [new Date()]. *)
Definition utcDay (env : Env) : Z := (now env / msPerDay)%Z.
Definition utcYear (env : Env) : Z := yearFromDay (utcDay env).

(** One more day in a leap year. *)
Definition leapDay (y : Z) : Z := if isLeapYear y then 1%Z else 0%Z.

(** Whether a number padded to [k] places is [k] digits that read back as
    the number. *)
Definition paddedOk (k : nat) (n : Z) : bool :=
  let s := padStart k 48 (integerToString n) in
  (length s =? k) && forallb isDigit s && (digitsVal s =? n)%Z.

(** The elements of the page after [updateEstimatedFare] has written the
    fares of a service with base fare [base]. *)
Definition fareShown (base : Z) (d : gmap string Element) : gmap string Element :=
  alter (setDisplay (lit "block")) "priceEstimate"
    (alter (setTextContent (lit "$" ++ integerToString (base + 10))) "summaryTotal"
       (alter (setTextContent (lit "$" ++ integerToString (base + 10))) "estimatedTotal"
          (alter (setTextContent (lit "$" ++ integerToString base)) "baseFare" d))).

(** And after it has hidden the panel. *)
Definition fareHidden (d : gmap string Element) : gmap string Element :=
  alter (setDisplay (lit "none")) "priceEstimate" d.

(** ** Further readings of a string *)

(** The white space a string begins with. *)
Fixpoint whiteSpacePrefix (s : jsstring) : jsstring :=
  match s with
  | c :: s' => if isWhiteSpace c then c :: whiteSpacePrefix s' else []
  | [] => []
  end.

(** The white space a string ends with, after the one it begins with. *)
Definition whiteSpaceSuffix (s : jsstring) : jsstring :=
  rev (whiteSpacePrefix (rev (trimStart s))).

(** The white-space code units as ranges, and whether the code points from
    [a] to [b] have none of them. *)
Definition whiteSpaceRanges : list (N * N) :=
  [(9, 13); (32, 32); (160, 160); (5760, 5760); (8192, 8202); (8232, 8233);
   (8239, 8239); (8287, 8287); (12288, 12288); (65279, 65279)]%N.

Definition avoidsWhiteSpace (a b : N) : bool :=
  forallb (λ r, (b <? r.1) || (r.2 <? a))%N whiteSpaceRanges.

(** Whether no run of a case mapping has a white-space code point among
    the code points it maps or among their images. *)
Definition runsAvoidWhiteSpace (runs : list (N * N * N * N)) : bool :=
  forallb (λ r, avoidsWhiteSpace r.1.1.1 r.1.1.2
                && avoidsWhiteSpace r.2 (r.2 + (r.1.1.2 - r.1.1.1))%N) runs.

Definition rangesAvoidWhiteSpace (ranges : list (N * N)) : bool :=
  forallb (λ r, avoidsWhiteSpace r.1 r.2) ranges.

(** The upper case of a base-36 digit. *)
Definition upperDigit (c : N) : N :=
  (if (97 <=? c) && (c <=? 122) then c - 32 else c)%N.

(** * Properties *)

(** ** The matcher decides the language *)

Section RegexFacts.

Implicit Types (r : regex) (s : jsstring) (c : N) (p : N → bool).

Lemma lang_void_inv s : lang Void s ↔ False.
Proof. split; [inversion 1 | done]. Qed.

Lemma lang_eps_inv s : lang Eps s ↔ s = [].
Proof. split; [by inversion 1 | intros ->; constructor]. Qed.

Lemma lang_cls_inv p s : lang (Cls p) s ↔ ∃ c, s = [c] ∧ p c = true.
Proof.
  split.
  - inversion 1; subst. eauto.
  - intros (c & -> & Hc). by constructor.
Qed.

Lemma lang_cat_inv r1 r2 s :
  lang (Cat r1 r2) s ↔ ∃ s1 s2, s = s1 ++ s2 ∧ lang r1 s1 ∧ lang r2 s2.
Proof.
  split.
  - inversion 1; subst. eauto.
  - intros (s1 & s2 & -> & H1 & H2). by constructor.
Qed.

Lemma lang_alt_inv r1 r2 s : lang (Alt r1 r2) s ↔ lang r1 s ∨ lang r2 s.
Proof.
  split.
  - inversion 1; subst; auto.
  - intros [H|H]; [by apply lang_alt_l | by apply lang_alt_r].
Qed.

Lemma nullable_lang r : nullable r = true ↔ lang r [].
Proof.
  induction r as [| |p|r1 IH1 r2 IH2|r1 IH1 r2 IH2|r IH]; simpl.
  - rewrite lang_void_inv. split; [discriminate | done].
  - rewrite lang_eps_inv. done.
  - rewrite lang_cls_inv. split; [discriminate | by intros (c & ? & _)].
  - rewrite andb_true_iff, IH1, IH2, lang_cat_inv. split.
    + intros [H1 H2]. by exists [], [].
    + intros (s1 & s2 & Heq & H1 & H2).
      symmetry in Heq. apply app_eq_nil in Heq as [-> ->]. auto.
  - by rewrite orb_true_iff, IH1, IH2, lang_alt_inv.
  - split; [constructor | reflexivity].
Qed.

Lemma lang_star_cons r c s :
  lang (Star r) (c :: s) →
  ∃ s1 s2, s = s1 ++ s2 ∧ lang r (c :: s1) ∧ lang (Star r) s2.
Proof.
  intros H. remember (Star r) as r' eqn:Er. remember (c :: s) as t eqn:Et.
  revert s Et.
  induction H as [| | | | | |r0 s1 s2 H1 _ H2 IH2]; intros u Et; try discriminate.
  injection Er as ->.
  destruct s1 as [|c' s1']; simpl in Et.
  - apply IH2; [reflexivity | exact Et].
  - injection Et as Hc Hu. subst c' u. exists s1', s2. auto.
Qed.

Lemma deriv_lang r : ∀ c s, lang (deriv c r) s ↔ lang r (c :: s).
Proof.
  induction r as [| |p|r1 IH1 r2 IH2|r1 IH1 r2 IH2|r IH]; intros c s; simpl.
  - by rewrite !lang_void_inv.
  - rewrite lang_void_inv, lang_eps_inv. done.
  - rewrite lang_cls_inv. destruct (p c) eqn:Hp.
    + rewrite lang_eps_inv. split; [intros ->; eauto |].
      intros (c' & Heq & _). by simplify_eq.
    + rewrite lang_void_inv. split; [done |].
      intros (c' & Heq & Hc'). simplify_eq. congruence.
  - assert (Hcat : lang (Cat (deriv c r1) r2) s ∨ (lang r1 [] ∧ lang (deriv c r2) s)
                   ↔ lang (Cat r1 r2) (c :: s)).
    { rewrite !lang_cat_inv. split.
      - intros [(s1 & s2 & -> & H1 & H2) | [H1 H2]].
        + exists (c :: s1), s2. split; [done|]. split; [by apply IH1 | done].
        + exists [], (c :: s). split; [done|]. split; [done | by apply IH2].
      - intros (s1 & s2 & Heq & H1 & H2). destruct s1 as [|c' s1']; simpl in Heq.
        + subst s2. right. split; [done | by apply IH2].
        + injection Heq as Hc Hs. subst c' s. left. exists s1', s2.
          split; [done|]. split; [by apply IH1 | done]. }
    rewrite <- Hcat. destruct (nullable r1) eqn:Hn.
    + rewrite lang_alt_inv. apply nullable_lang in Hn. tauto.
    + assert (¬ lang r1 []) by (rewrite <- nullable_lang; congruence). tauto.
  - by rewrite !lang_alt_inv, IH1, IH2.
  - rewrite lang_cat_inv. split.
    + intros (s1 & s2 & -> & H1 & H2).
      apply IH in H1. exact (lang_star_app _ (c :: s1) s2 H1 H2).
    + intros H. apply lang_star_cons in H as (s1 & s2 & -> & H1 & H2).
      exists s1, s2. split; [done|]. split; [by apply IH | done].
Qed.

(** [test] accepts exactly the strings of the language. *)
Lemma test_lang s : ∀ r, test r s = true ↔ lang r s.
Proof.
  induction s as [|c s IH]; intros r; simpl.
  - apply nullable_lang.
  - rewrite IH. apply deriv_lang.
Qed.

Lemma lang_star_cls p s : lang (Star (Cls p)) s ↔ forallb p s = true.
Proof.
  split.
  - intros H. remember (Star (Cls p)) as r eqn:Er.
    induction H as [| | | | | |r0 s1 s2 H1 _ H2 IH2]; try discriminate; [reflexivity|].
    injection Er as ->. apply lang_cls_inv in H1 as (c & -> & Hc).
    simpl. rewrite Hc. by apply IH2.
  - induction s as [|c s IH]; simpl; [constructor|].
    rewrite andb_true_iff. intros [Hc Hs].
    apply (lang_star_app _ [c] s); [by constructor | auto].
Qed.

(** [[p]+]: a non-empty run of the class. *)
Lemma lang_plus_cls p s :
  lang (Plus (Cls p)) s ↔ s ≠ [] ∧ forallb p s = true.
Proof.
  unfold Plus. rewrite lang_cat_inv. split.
  - intros (s1 & s2 & -> & H1 & H2).
    apply lang_cls_inv in H1 as (c & -> & Hc). apply lang_star_cls in H2.
    simpl. rewrite Hc, H2. done.
  - intros [Hne Hall]. destruct s as [|c s]; [done|].
    simpl in Hall. apply andb_true_iff in Hall as [Hc Hs].
    exists [c], s. split; [done|]. split; [by constructor | by apply lang_star_cls].
Qed.

(** [[p]{n,}]: at least [n] units, all of the class. *)
Lemma lang_atleast_cls p n : ∀ s,
  lang (AtLeast n (Cls p)) s ↔ n ≤ length s ∧ forallb p s = true.
Proof.
  induction n as [|n IH]; intros s; simpl.
  - rewrite lang_star_cls. split; [intros H; split; [lia | done] | by intros [_ H]].
  - rewrite lang_cat_inv. split.
    + intros (s1 & s2 & -> & H1 & H2).
      apply lang_cls_inv in H1 as (c & -> & Hc). apply IH in H2 as [Hl Hs].
      simpl. rewrite Hc, Hs. split; [lia | done].
    + intros [Hl Hall]. destruct s as [|c s]; simpl in Hl; [lia|].
      simpl in Hall. apply andb_true_iff in Hall as [Hc Hs].
      exists [c], s. split; [done|]. split; [by constructor|].
      apply IH. split; [lia | done].
Qed.

Lemma lang_chr c s : lang (Chr c) s ↔ s = [c].
Proof.
  unfold Chr. rewrite lang_cls_inv. split.
  - intros (c' & -> & Hc). apply N.eqb_eq in Hc. by subst.
  - intros ->. exists c. split; [done | apply N.eqb_refl].
Qed.

End RegexFacts.

(** ** Case conversion and white space *)

Section CaseConversion.

Implicit Types (s w : jsstring) (c u : N) (l before : list N).

Local Open Scope N_scope.

Lemma isWhiteSpace_inRanges c : isWhiteSpace c = inRanges whiteSpaceRanges c.
Proof.
  apply eq_true_iff_eq. unfold isWhiteSpace, inRanges, whiteSpaceRanges.
  cbn [existsb fst snd].
  rewrite !orb_true_iff, !andb_true_iff, !N.leb_le, !N.eqb_eq. lia.
Qed.

Lemma avoidsWhiteSpace_spec a b c :
  avoidsWhiteSpace a b = true → a ≤ c ≤ b → isWhiteSpace c = false.
Proof.
  unfold avoidsWhiteSpace, whiteSpaceRanges. cbn [forallb fst snd].
  rewrite !andb_true_iff, !orb_true_iff, !N.ltb_lt. intros Ha Hc.
  apply not_true_is_false. unfold isWhiteSpace.
  rewrite !orb_true_iff, !andb_true_iff, !N.leb_le, !N.eqb_eq. lia.
Qed.

Lemma runLookup_avoids runs c c' :
  runsAvoidWhiteSpace runs = true →
  runLookup runs c = Some c' →
  isWhiteSpace c = false ∧ isWhiteSpace c' = false.
Proof.
  unfold runsAvoidWhiteSpace.
  induction runs as [|[[[first last] step] image] runs IH]; [done|].
  cbn [forallb runLookup fst snd]. rewrite !andb_true_iff.
  intros [[H1 H2] Hr].
  destruct ((first <=? c) && (c <=? last) && ((c - first) mod step =? 0)) eqn:Hc;
    [|by apply IH].
  intros [= <-]. rewrite !andb_true_iff, !N.leb_le in Hc.
  destruct Hc as [[? ?] _]. split.
  - apply (avoidsWhiteSpace_spec first last); [done | lia].
  - apply (avoidsWhiteSpace_spec image (image + (last - first))); [done | lia].
Qed.

Lemma inRanges_avoids ranges c :
  rangesAvoidWhiteSpace ranges = true →
  isWhiteSpace c = true → inRanges ranges c = false.
Proof.
  unfold rangesAvoidWhiteSpace, inRanges.
  induction ranges as [|[a b] ranges IH]; [done|].
  cbn [forallb existsb fst snd]. rewrite andb_true_iff. intros [H1 Hr] Hc.
  rewrite (IH Hr Hc), orb_false_r.
  apply not_true_is_false. rewrite andb_true_iff, !N.leb_le. intros Hab.
  by rewrite (avoidsWhiteSpace_spec a b c H1 Hab) in Hc.
Qed.

Lemma lowerRuns_avoid : runsAvoidWhiteSpace lowerRuns = true.
Proof. vm_compute. reflexivity. Qed.

Lemma casedRanges_avoid : rangesAvoidWhiteSpace casedRanges = true.
Proof. vm_compute. reflexivity. Qed.

(** White space has no case, and nothing becomes white space. *)
Lemma simpleLower_whiteSpace c : isWhiteSpace c = true → simpleLower c = c.
Proof.
  intros Hc. unfold simpleLower.
  destruct (runLookup lowerRuns c) as [c'|] eqn:Hl; [|done].
  destruct (runLookup_avoids _ _ _ lowerRuns_avoid Hl) as [Hn _]. congruence.
Qed.

Lemma simpleLower_not_whiteSpace c :
  isWhiteSpace c = false → isWhiteSpace (simpleLower c) = false.
Proof.
  intros Hc. unfold simpleLower.
  destruct (runLookup lowerRuns c) as [c'|] eqn:Hl; [|done].
  by destruct (runLookup_avoids _ _ _ lowerRuns_avoid Hl).
Qed.

Lemma lowerCodePoint_whiteSpace before l c :
  isWhiteSpace c = true → lowerCodePoint before l c = [c].
Proof.
  intros Hc. unfold lowerCodePoint.
  destruct (N.eqb_spec c 304) as [->|_]; [done|].
  destruct (N.eqb_spec c 931) as [->|_]; [done|].
  by rewrite simpleLower_whiteSpace.
Qed.

Lemma lowerCodePoint_not_whiteSpace before l c :
  isWhiteSpace c = false →
  ∃ c' r, lowerCodePoint before l c = c' :: r ∧ isWhiteSpace c' = false.
Proof.
  intros Hc. unfold lowerCodePoint.
  destruct (N.eqb_spec c 304) as [->|_]; [by eexists _, _|].
  destruct (N.eqb_spec c 931) as [->|_].
  - eexists _, _. split; [done|]. by destruct (finalSigma _ _).
  - eexists _, _. split; [done|]. by apply simpleLower_not_whiteSpace.
Qed.

(** White space is not cased, so that no cased letter is found in it; some
    of it (the byte order mark) is case-ignorable. *)
Lemma casedLetterNext_whiteSpace_nil w :
  Forall (λ c, isWhiteSpace c = true) w → casedLetterNext w = false.
Proof.
  induction 1 as [|c w Hc _ IH]; [done|]. simpl. rewrite IH.
  unfold cased. rewrite (inRanges_avoids _ _ casedRanges_avoid Hc).
  by destruct (caseIgnorable c).
Qed.

Lemma casedLetterNext_whiteSpace l w :
  Forall (λ c, isWhiteSpace c = true) w →
  casedLetterNext (l ++ w) = casedLetterNext l.
Proof.
  intros Hw. induction l as [|c l IH]; simpl.
  - by apply casedLetterNext_whiteSpace_nil.
  - by rewrite IH.
Qed.

Lemma lowerCodePoints_whiteSpace before w :
  Forall (λ c, isWhiteSpace c = true) w → lowerCodePoints before w = w.
Proof.
  intros Hw. revert before. induction Hw as [|c w Hc _ IH]; intros before; [done|].
  simpl. by rewrite lowerCodePoint_whiteSpace, IH.
Qed.

Lemma lowerCodePoints_app_whiteSpace before l w :
  Forall (λ c, isWhiteSpace c = true) w →
  lowerCodePoints before (l ++ w) = lowerCodePoints before l ++ w.
Proof.
  intros Hw. revert before. induction l as [|c l IH]; intros before; simpl.
  - by rewrite lowerCodePoints_whiteSpace.
  - rewrite IH, <- app_assoc. f_equal.
    unfold lowerCodePoint, finalSigma. by rewrite casedLetterNext_whiteSpace.
Qed.

(** Code units and code points *)
Lemma whiteSpace_no_surrogate c :
  isWhiteSpace c = true → isLeadSurrogate c = false ∧ isTrailSurrogate c = false.
Proof.
  unfold isWhiteSpace, isLeadSurrogate, isTrailSurrogate.
  rewrite !orb_true_iff, !andb_true_iff, !N.leb_le, !N.eqb_eq. intros Hc.
  split; apply not_true_is_false; rewrite andb_true_iff, !N.leb_le; lia.
Qed.

Lemma consUnit_whiteSpace c l : isWhiteSpace c = true → consUnit c l = c :: l.
Proof.
  intros Hc. destruct (whiteSpace_no_surrogate c Hc) as [Hl _].
  unfold consUnit. destruct l; [done|]. by rewrite Hl.
Qed.

Lemma consUnit_not_whiteSpace c l :
  isWhiteSpace c = false →
  ∃ cp r, consUnit c l = cp :: r ∧ isWhiteSpace cp = false.
Proof.
  intros Hc. unfold consUnit. destruct l as [|t r]; [by eexists _, _|].
  destruct (isLeadSurrogate c && isTrailSurrogate t) eqn:Hp; [|by eexists _, _].
  eexists _, _. split; [done|].
  apply not_true_is_false. unfold isWhiteSpace.
  rewrite !orb_true_iff, !andb_true_iff, !N.leb_le, !N.eqb_eq.
  unfold isLeadSurrogate, isTrailSurrogate in Hp.
  rewrite !andb_true_iff, !N.leb_le in Hp. lia.
Qed.

Lemma stringToCodePoints_whiteSpace w :
  Forall (λ c, isWhiteSpace c = true) w → stringToCodePoints w = w.
Proof.
  induction 1 as [|c w Hc _ IH]; [done|].
  unfold stringToCodePoints in *. simpl. by rewrite IH, consUnit_whiteSpace.
Qed.

Lemma stringToCodePoints_app_whiteSpace s w :
  Forall (λ c, isWhiteSpace c = true) w →
  stringToCodePoints (s ++ w) = stringToCodePoints s ++ w.
Proof.
  intros Hw. induction s as [|u s IH].
  - by apply stringToCodePoints_whiteSpace.
  - change (consUnit u (stringToCodePoints (s ++ w))
            = consUnit u (stringToCodePoints s) ++ w).
    rewrite IH. destruct (stringToCodePoints s) as [|t r]; [|simpl; by destruct (_ && _)].
    destruct Hw as [|c w Hc _]; [done|]. simpl.
    destruct (whiteSpace_no_surrogate c Hc) as [_ ->]. by rewrite andb_false_r.
Qed.

Lemma codePointToUnits_whiteSpace c : isWhiteSpace c = true → codePointToUnits c = [c].
Proof.
  intros Hc. unfold codePointToUnits.
  destruct (N.ltb_spec c 65536); [done|]. exfalso.
  unfold isWhiteSpace in Hc.
  rewrite !orb_true_iff, !andb_true_iff, !N.leb_le, !N.eqb_eq in Hc. lia.
Qed.

Lemma codePointToUnits_not_whiteSpace c :
  isWhiteSpace c = false →
  ∃ u r, codePointToUnits c = u :: r ∧ isWhiteSpace u = false.
Proof.
  intros Hc. unfold codePointToUnits.
  destruct ((c <? 65536) || (1114111 <? c)) eqn:Hb; [by eexists _, _|].
  eexists _, _. split; [done|].
  rewrite orb_false_iff, !N.ltb_ge in Hb.
  apply not_true_is_false. unfold isWhiteSpace.
  rewrite !orb_true_iff, !andb_true_iff, !N.leb_le, !N.eqb_eq.
  assert (Hq : (c - 65536) / 1024 < 1024) by (apply N.Div0.div_lt_upper_bound; lia).
  revert Hq. generalize ((c - 65536) / 1024). intros q Hq. lia.
Qed.

Lemma codePointsToString_whiteSpace w :
  Forall (λ c, isWhiteSpace c = true) w → codePointsToString w = w.
Proof.
  induction 1 as [|c w Hc _ IH]; [done|].
  unfold codePointsToString in *. simpl. by rewrite IH, codePointToUnits_whiteSpace.
Qed.

(** [toLowerCase] leaves the white space at the end of a string as it
    is. *)
Lemma toLowerCase_app_whiteSpace s w :
  Forall (λ c, isWhiteSpace c = true) w →
  toLowerCase (s ++ w) = toLowerCase s ++ w.
Proof.
  intros Hw. unfold toLowerCase.
  rewrite stringToCodePoints_app_whiteSpace, lowerCodePoints_app_whiteSpace by done.
  unfold codePointsToString. rewrite flat_map_app. f_equal.
  by apply codePointsToString_whiteSpace.
Qed.

(** And the white space at its start. *)
Lemma whiteSpacePrefix_lower before s :
  whiteSpacePrefix (codePointsToString (lowerCodePoints before (stringToCodePoints s)))
  = whiteSpacePrefix s.
Proof.
  revert before. induction s as [|u s IH]; intros before; [done|].
  change (stringToCodePoints (u :: s)) with (consUnit u (stringToCodePoints s)).
  simpl whiteSpacePrefix at 2. destruct (isWhiteSpace u) eqn:Hu.
  - rewrite consUnit_whiteSpace by done. simpl.
    rewrite lowerCodePoint_whiteSpace by done. simpl.
    rewrite codePointToUnits_whiteSpace by done. simpl.
    by rewrite Hu, IH.
  - destruct (consUnit_not_whiteSpace u (stringToCodePoints s) Hu)
      as (cp & r & -> & Hcp).
    simpl.
    destruct (lowerCodePoint_not_whiteSpace before r cp Hcp) as (c' & r' & -> & Hc').
    simpl.
    destruct (codePointToUnits_not_whiteSpace c' Hc') as (h & t & -> & Hh).
    simpl. by rewrite Hh.
Qed.

Lemma whiteSpacePrefix_toLowerCase s :
  whiteSpacePrefix (toLowerCase s) = whiteSpacePrefix s.
Proof. apply whiteSpacePrefix_lower. Qed.

(** A string is the white space it begins with, its trimmed part and the
    white space it ends with. *)
Lemma whiteSpacePrefix_Forall s :
  Forall (λ c, isWhiteSpace c = true) (whiteSpacePrefix s).
Proof.
  induction s as [|c s IH]; simpl; [constructor|].
  destruct (isWhiteSpace c) eqn:Hc; by constructor.
Qed.

Lemma whiteSpacePrefix_trimStart s : s = whiteSpacePrefix s ++ trimStart s.
Proof.
  induction s as [|c s IH]; simpl; [done|].
  destruct (isWhiteSpace c); simpl; by f_equal.
Qed.

Lemma trim_split s : s = whiteSpacePrefix s ++ trim s ++ whiteSpaceSuffix s.
Proof.
  rewrite (whiteSpacePrefix_trimStart s) at 1. f_equal.
  unfold trim, trimEnd, whiteSpaceSuffix. rewrite <- rev_app_distr.
  rewrite <- whiteSpacePrefix_trimStart. by rewrite rev_involutive.
Qed.

Lemma whiteSpaceSuffix_Forall s :
  Forall (λ c, isWhiteSpace c = true) (whiteSpaceSuffix s).
Proof.
  unfold whiteSpaceSuffix. apply Forall_rev, whiteSpacePrefix_Forall.
Qed.

(** Two strings that are equal after trimming but not before are not made
    equal by [toLowerCase]. *)
Lemma toLowerCase_trim_differ p d :
  trim p = trim d → toLowerCase p = toLowerCase d → p = d.
Proof.
  intros Ht Hl.
  assert (Ha : whiteSpacePrefix p = whiteSpacePrefix d)
    by (by rewrite <- (whiteSpacePrefix_toLowerCase p), Hl, whiteSpacePrefix_toLowerCase).
  rewrite (trim_split p), (trim_split d) in Hl |- *.
  rewrite <- Ha, <- Ht in Hl |- *.
  rewrite !(app_assoc (whiteSpacePrefix p)) in Hl.
  rewrite (toLowerCase_app_whiteSpace _ (whiteSpaceSuffix p)) in Hl
    by apply whiteSpaceSuffix_Forall.
  rewrite (toLowerCase_app_whiteSpace _ (whiteSpaceSuffix d)) in Hl
    by apply whiteSpaceSuffix_Forall.
  apply app_inv_head in Hl. by rewrite Hl.
Qed.

(** Only the empty string has an empty lower case. *)
Lemma toLowerCase_nil s : toLowerCase s = [] ↔ s = [].
Proof.
  split; [|by intros ->].
  destruct s as [|u s]; [done|]. unfold toLowerCase.
  change (stringToCodePoints (u :: s)) with (consUnit u (stringToCodePoints s)).
  assert (∃ cp r, consUnit u (stringToCodePoints s) = cp :: r) as (cp & r & ->).
  { unfold consUnit. destruct (stringToCodePoints s); [by eexists _, _|].
    destruct (_ && _); by eexists _, _. }
  simpl.
  assert (∃ c' r', lowerCodePoint [] r cp = c' :: r') as (c' & r' & ->).
  { unfold lowerCodePoint. repeat destruct (_ =? _); by eexists _, _. }
  simpl. unfold codePointToUnits. by destruct (_ || _).
Qed.

End CaseConversion.

(** ** The validators *)

Section Validators.

Implicit Types (s : jsstring) (c : N).

Lemma isValidPhone_iff s :
  isValidPhone s = true ↔ 10 ≤ length s ∧ forallb phoneChar s = true.
Proof. unfold isValidPhone, phoneRegex. rewrite test_lang. apply lang_atleast_cls. Qed.

Lemma phoneChar_cases c :
  phoneChar c = true ↔
  isDigit c = true ∨ isWhiteSpace c = true
  ∨ c = 45%N ∨ c = 40%N ∨ c = 41%N ∨ c = 43%N.
Proof.
  unfold phoneChar, isDigit.
  rewrite !orb_true_iff, !N.eqb_eq. tauto.
Qed.

Lemma isValidName_iff s :
  isValidName s = true ↔ 3 ≤ length (trim s) ∧ forallb nameChar s = true.
Proof.
  unfold isValidName, nameRegex.
  rewrite andb_true_iff, Nat.leb_le, test_lang, lang_plus_cls.
  split; [tauto|]. intros [Hl Hall]. repeat split; try done.
  intros ->. vm_compute in Hl. lia.
Qed.

Lemma nameChar_cases c :
  nameChar c = true ↔
  isLetter c = true ∨ isWhiteSpace c = true ∨ c = 39%N ∨ c = 45%N.
Proof.
  unfold nameChar, isLetter.
  rewrite !orb_true_iff, !N.eqb_eq. tauto.
Qed.

Lemma forallb_notSpaceAt s :
  forallb notSpaceAt s = true ↔
  forallb (λ c, negb (isWhiteSpace c)) s = true ∧ count_occ N.eq_dec s 64%N = 0.
Proof.
  induction s as [|c s IH]; simpl; [done|].
  rewrite !andb_true_iff, IH. unfold notSpaceAt.
  destruct (isWhiteSpace c) eqn:Hw; simpl.
  - split; [intros [[=] _] | intros [[[=] _] _]].
  - destruct (N.eqb_spec c 64) as [->|Hne]; simpl.
    + split; [intros [[=] _] | intros [_ [=]]].
    + destruct (N.eq_dec c 64%N); [done | tauto].
Qed.

(** What the email pattern accepts: three non-empty runs without white
    space and without "@", separated by one "@" and one ".". *)
Lemma isValidEmail_iff s :
  isValidEmail s = true ↔
  ∃ x y z, s = x ++ [64%N] ++ y ++ [46%N] ++ z
           ∧ (x ≠ [] ∧ forallb notSpaceAt x = true)
           ∧ (y ≠ [] ∧ forallb notSpaceAt y = true)
           ∧ (z ≠ [] ∧ forallb notSpaceAt z = true).
Proof.
  unfold isValidEmail, emailRegex. rewrite test_lang, lang_cat_inv. split.
  - intros (x & r1 & -> & Hx & H1).
    apply lang_cat_inv in H1 as (a & r2 & -> & Ha & H2).
    apply lang_cat_inv in H2 as (y & r3 & -> & Hy & H3).
    apply lang_cat_inv in H3 as (d & z & -> & Hd & Hz).
    apply lang_chr in Ha as ->. apply lang_chr in Hd as ->.
    apply lang_plus_cls in Hx, Hy, Hz. by exists x, y, z.
  - intros (x & y & z & -> & Hx & Hy & Hz).
    exists x, ([64%N] ++ y ++ [46%N] ++ z). split; [done|].
    split; [by apply lang_plus_cls|].
    apply lang_cat_inv. exists [64%N], (y ++ [46%N] ++ z). split; [done|].
    split; [by apply lang_chr|].
    apply lang_cat_inv. exists y, ([46%N] ++ z). split; [done|].
    split; [by apply lang_plus_cls|].
    apply lang_cat_inv. exists [46%N], z. split; [done|].
    split; [by apply lang_chr | by apply lang_plus_cls].
Qed.

Lemma isValidEmail_shape s : isValidEmail s = true ↔ EmailShape s.
Proof.
  rewrite isValidEmail_iff. unfold EmailShape. split.
  - intros (x & y & z & -> & [Hx1 Hx2] & [Hy1 Hy2] & [Hz1 Hz2]).
    apply forallb_notSpaceAt in Hx2 as [Hx2 Hx3], Hy2 as [Hy2 Hy3], Hz2 as [Hz2 Hz3].
    split; [|split].
    + rewrite !count_occ_app, Hx3, Hy3, Hz3. reflexivity.
    + rewrite !forallb_app, Hx2, Hy2, Hz2. reflexivity.
    + by exists x, y, z.
  - intros (Hcount & Hws & x & y & z & -> & Hx & Hy & Hz).
    rewrite !count_occ_app in Hcount. simpl in Hcount.
    rewrite !forallb_app, !andb_true_iff in Hws. simpl in Hws.
    exists x, y, z. split; [done|].
    rewrite !forallb_notSpaceAt. repeat split; try tauto; lia.
Qed.

End Validators.

(** C7: [isValidEmail] accepts exactly the strings with a single "@",
    something before it, a "." after it with something on both sides of the
    dot, and no white space; strings without "@" or without a "." after the
    "@" are rejected and ["a@b.c"] is accepted. *)
Theorem isValidEmail_spec :
  (∀ s, isValidEmail s = true ↔ EmailShape s)
  ∧ (∀ s, 64%N ∉ s → isValidEmail s = false)
  ∧ (∀ s, (∀ x r, s = x ++ 64%N :: r → 46%N ∉ r) → isValidEmail s = false)
  ∧ isValidEmail (lit "a@b.c") = true.
Proof.
  split; [exact isValidEmail_shape|]. split; [|split].
  - intros s Hs. apply not_true_is_false. rewrite isValidEmail_iff.
    intros (x & y & z & -> & _). apply Hs. set_solver.
  - intros s Hs. apply not_true_is_false. rewrite isValidEmail_iff.
    intros (x & y & z & -> & _). apply (Hs x (y ++ [46%N] ++ z)); [done | set_solver].
  - reflexivity.
Qed.

Lemma isValidEmail_spec_witness :
  (64%N ∉ lit "ab.c") ∧ isValidEmail (lit "ab.c") = false.
Proof.
  assert (H : 64%N ∉ lit "ab.c").
  { intros H. vm_compute in H.
    repeat (apply elem_of_cons in H as [H|H]; [discriminate H|]).
    by apply elem_of_nil in H. }
  split; [exact H|]. exact (proj1 (proj2 isValidEmail_spec) (lit "ab.c") H).
Defined.

(** C4, as the code has it: [isValidPhone] accepts exactly the strings of
    ten or more characters that are all digits, white space, hyphens,
    parentheses or plus signs, the plus at any position; shorter strings are
    rejected and ["555-123-4567"] is accepted. *)
Theorem isValidPhone_spec :
  (∀ s, isValidPhone s = true ↔
        10 ≤ length s
        ∧ ∀ c, c ∈ s → isDigit c = true ∨ isWhiteSpace c = true
                       ∨ c = 45%N ∨ c = 40%N ∨ c = 41%N ∨ c = 43%N)
  ∧ (∀ s, length s < 10 → isValidPhone s = false)
  ∧ isValidPhone (lit "555-123-4567") = true.
Proof.
  split; [|split].
  - intros s. rewrite isValidPhone_iff, forallb_forall.
    setoid_rewrite <- list_elem_of_In. setoid_rewrite phoneChar_cases. done.
  - intros s Hs. apply not_true_is_false. rewrite isValidPhone_iff. lia.
  - reflexivity.
Qed.

Lemma isValidPhone_spec_witness :
  (length (lit "555-1234") < 10) ∧ isValidPhone (lit "555-1234") = false.
Proof.
  assert (H : length (lit "555-1234") < 10) by (vm_compute; lia).
  split; [exact H|]. exact (proj1 (proj2 isValidPhone_spec) (lit "555-1234") H).
Defined.

(** C4 as the spec words it fails: a plus that is not in front and a tab are
    both accepted. *)
Lemma isValidPhone_not_spec :
  isValidPhone (lit "555 123 456+") = true
  ∧ spec_isValidPhone (lit "555 123 456+") = false
  ∧ isValidPhone (lit "555" ++ [9%N] ++ lit "1234567") = true
  ∧ spec_isValidPhone (lit "555" ++ [9%N] ++ lit "1234567") = false.
Proof. repeat split; reflexivity. Qed.

(** C8, as the code has it: [isValidName] accepts exactly the strings whose
    trimmed length is at least 3 and whose characters are all ASCII letters,
    white space, apostrophes or hyphens. *)
Theorem isValidName_spec :
  (∀ s, isValidName s = true ↔
        3 ≤ length (trim s)
        ∧ ∀ c, c ∈ s → isLetter c = true ∨ isWhiteSpace c = true
                       ∨ c = 39%N ∨ c = 45%N)
  ∧ isValidName (lit "") = false
  ∧ isValidName (lit "Al") = false
  ∧ isValidName (lit "Ann Lee") = true
  ∧ isValidName (lit "Ann123") = false.
Proof.
  split; [|repeat split; reflexivity].
  intros s. rewrite isValidName_iff, forallb_forall.
  setoid_rewrite <- list_elem_of_In. setoid_rewrite nameChar_cases. done.
Qed.

(** C8 as the spec words it fails: a name with a tab in it is accepted. *)
Lemma isValidName_not_spec :
  isValidName (lit "Ann" ++ [9%N] ++ lit "Lee") = true
  ∧ spec_isValidName (lit "Ann" ++ [9%N] ++ lit "Lee") = false.
Proof. split; reflexivity. Qed.

(** ** Dates *)

Section Dates.

Local Open Scope Z_scope.

Lemma todayMidnight_localDay env :
  todayMidnight env = localDay env * msPerDay - offsetAtMidnight env.
Proof. reflexivity. Qed.

Lemma greaterEq_Some (t u : Z) : greaterEq (Some t) (Some u) = (u <=? t).
Proof.
  unfold greaterEq, lessThan.
  destruct (Z.ltb_spec t u), (Z.leb_spec u t); (done || lia).
Qed.


(** When the offset in force at the start of the local day is at or east
    of UTC, a date-only string is accepted exactly from the local day on. *)
Lemma isValidDate_east env s k :
  0 ≤ offsetAtMidnight env < msPerDay →
  newDate env s = Some (k * msPerDay) →
  isValidDate env s = true ↔ localDay env ≤ k.
Proof.
  intros Htz Hs. unfold isValidDate. cbv zeta.
  rewrite Hs, greaterEq_Some, todayMidnight_localDay.
  rewrite Z.leb_le. unfold msPerDay in *. lia.
Qed.

(** When it is west of UTC the local day itself is refused. *)
Lemma isValidDate_west env s k :
  - msPerDay < offsetAtMidnight env < 0 →
  newDate env s = Some (k * msPerDay) →
  isValidDate env s = true ↔ localDay env < k.
Proof.
  intros Htz Hs. unfold isValidDate. cbv zeta.
  rewrite Hs, greaterEq_Some, todayMidnight_localDay.
  rewrite Z.leb_le. unfold msPerDay in *. lia.
Qed.

End Dates.

(** C2, at a clock five hours west of UTC: the local day is 2 November
    2026, the date input's string for that day denotes midnight UTC, and
    [isValidDate] refuses it; the day after is accepted and the day before
    refused. *)
Theorem isValidDate_today_west :
  localDay envWest = makeDay 2026 11 2
  ∧ newDate envWest (lit "2026-11-02") = Some (makeDay 2026 11 2 * msPerDay)%Z
  ∧ isValidDate envWest (lit "2026-11-02") = false
  ∧ isValidDate envWest (lit "2026-11-03") = true
  ∧ isValidDate envWest (lit "2026-11-01") = false.
Proof. repeat split; vm_compute; reflexivity. Qed.

(** ** Running statements *)

Section Running.

Implicit Types (w : World) (id k f : string) (l : list (string * string)).

Lemma prelude_run {A} (m : Js A) w :
  (preventDefault ;; clearErrors ;; m) w = m (cleared w).
Proof. reflexivity. Qed.

Lemma value_cleared w id : fieldValue id (cleared w) = fieldValue id w.
Proof.
  unfold fieldValue, cleared; simpl. rewrite lookup_fmap.
  destruct (doc w !! id) as [e|]; simpl; [|done].
  by destruct (errorClass e).
Qed.

Lemma checked_cleared w id : fieldChecked id (cleared w) = fieldChecked id w.
Proof.
  unfold fieldChecked, cleared; simpl. rewrite lookup_fmap.
  destruct (doc w !! id) as [e|]; simpl; [|done].
  by destruct (errorClass e).
Qed.

Lemma showError_run f t w : showError f t w = Ok () (showErrorW f t w).
Proof.
  unfold showError, showErrorW, withDoc.
  destruct (doc w !! (f +:+ "Error")) as [e|] eqn:He; f_equal.
  - f_equal. apply map_eq. intros k.
    rewrite lookup_insert, lookup_alter. case_decide; subst; by rewrite ?He.
  - destruct w as [d ? ? ? ?]; simpl in *. f_equal. apply map_eq. intros k.
    rewrite lookup_alter. case_decide; subst; by rewrite ?He.
Qed.

Lemma showErrs_snoc l f m w :
  showErrs (l ++ [(f, m)]) w = showErrorW f (lit m) (showErrs l w).
Proof. unfold showErrs. by rewrite foldl_snoc. Qed.

Lemma showErrs_app l1 l2 w : showErrs (l1 ++ l2) w = showErrs l2 (showErrs l1 w).
Proof. unfold showErrs. by rewrite foldl_app. Qed.

(** Reading a control after the prelude. *)
Lemma bind_getValue {A} (k : jsstring → Js A) id w x :
  fieldValue id w = Some x →
  (getValue id ≫= k) (cleared w) = k x (cleared w).
Proof.
  intros H. rewrite <- value_cleared in H. unfold fieldValue in H.
  unfold mbind, Js_bind, getValue.
  destruct (doc (cleared w) !! id); simplify_eq/=; done.
Qed.

Lemma bind_getChecked {A} (k : bool → Js A) id w x :
  fieldChecked id w = Some x →
  (getChecked id ≫= k) (cleared w) = k x (cleared w).
Proof.
  intros H. rewrite <- checked_cleared in H. unfold fieldChecked in H.
  unfold mbind, Js_bind, getChecked.
  destruct (doc (cleared w) !! id); simplify_eq/=; done.
Qed.

(** One [if] statement of a handler. *)
Lemma bind_check {A} (k : bool → Js A) (c : bool) f m l w :
  ((if c then reject f m else mret (noErrors l)) ≫= k) (showErrs l w)
  = k (noErrors (l ++ (if c then [(f, m)] else [])))
      (showErrs (l ++ (if c then [(f, m)] else [])) w).
Proof.
  destruct c.
  - rewrite showErrs_snoc. unfold mbind, Js_bind, reject.
    unfold mbind, Js_bind. rewrite showError_run. simpl.
    by destruct l.
  - by rewrite app_nil_r.
Qed.

(** One [if ... else if ...] statement of a handler. *)
Lemma bind_check2 {A} (k : bool → Js A) (c1 c2 : bool) f1 m1 f2 m2 l w :
  ((if c1 then reject f1 m1 else if c2 then reject f2 m2 else mret (noErrors l)) ≫= k)
    (showErrs l w)
  = k (noErrors (l ++ (if c1 then [(f1, m1)] else if c2 then [(f2, m2)] else [])))
      (showErrs (l ++ (if c1 then [(f1, m1)] else if c2 then [(f2, m2)] else [])) w).
Proof.
  destruct c1; [exact (bind_check k true f1 m1 l w)|].
  exact (bind_check k c2 f2 m2 l w).
Qed.

End Running.

Ltac run_checks :=
  repeat (first [rewrite bind_check2 | rewrite bind_check]; cbv beta).

Section BookingRun.

Lemma readBooking_fields w v :
  readBooking w = Some v →
  fieldValue "service" w = Some (b_service v)
  ∧ fieldValue "fullName" w = Some (b_fullName v)
  ∧ fieldValue "email" w = Some (b_email v)
  ∧ fieldValue "phone" w = Some (b_phone v)
  ∧ fieldValue "pickupLocation" w = Some (b_pickupLocation v)
  ∧ fieldValue "dropoffLocation" w = Some (b_dropoffLocation v)
  ∧ fieldValue "date" w = Some (b_date v)
  ∧ fieldValue "time" w = Some (b_time v)
  ∧ fieldValue "passengers" w = Some (b_passengers v)
  ∧ fieldValue "paymentMethod" w = Some (b_paymentMethod v)
  ∧ fieldChecked "terms" w = Some (b_terms v)
  ∧ fieldChecked "privacy" w = Some (b_privacy v).
Proof.
  unfold readBooking. intros H.
  repeat match type of H with
         | context [mbind _ ?o] => destruct o eqn:?; simpl in H; [|discriminate]
         end.
  injection H as <-. simpl. repeat split; reflexivity.
Qed.

(** The reads and checks of the booking handler never throw on a page
    that has the twelve controls; they leave the messages of the failed
    checks in the error elements, and [isValid] tells whether there was
    none. *)
Lemma bookingValidation_run env w v :
  readBooking w = Some v →
  bookingValidation env w
  = Ok (noErrors (bookingErrors env v), bookingData v)
       (showErrs (bookingErrors env v) (cleared w)).
Proof.
  intros H. apply readBooking_fields in H
    as (H1 & H2 & H3 & H4 & H5 & H6 & H7 & H8 & H9 & H10 & H11 & H12).
  unfold bookingValidation. rewrite prelude_run. cbv zeta.
  rewrite (bind_getValue _ _ _ _ H1), (bind_getValue _ _ _ _ H2),
    (bind_getValue _ _ _ _ H3), (bind_getValue _ _ _ _ H4),
    (bind_getValue _ _ _ _ H5), (bind_getValue _ _ _ _ H6),
    (bind_getValue _ _ _ _ H7), (bind_getValue _ _ _ _ H8),
    (bind_getValue _ _ _ _ H9), (bind_getValue _ _ _ _ H10),
    (bind_getChecked _ _ _ _ H11), (bind_getChecked _ _ _ _ H12).
  change (cleared w) with (showErrs [] (cleared w)) at 1.
  change (mret true) with (mret (M := Js) (noErrors [])).
  run_checks.
  unfold bookingErrors, bookingData. rewrite <- !app_assoc, !app_nil_l.
  reflexivity.
Qed.

End BookingRun.

(** ** What a run of [showError] calls leaves on the page *)

Section ShowErrors.

Implicit Types (w : World) (k f : string) (l : list (string * string)).

Lemma list_ascii_app (s1 s2 : string) :
  list_ascii_of_string (s1 +:+ s2)
  = list_ascii_of_string s1 ++ list_ascii_of_string s2.
Proof. induction s1 as [|a s1 IH]; simpl; [done | by rewrite IH]. Qed.

(** Two fields have the same error element only when they are the same
    field. *)
Lemma error_id_inj f1 f2 : f1 +:+ "Error" = f2 +:+ "Error" → f1 = f2.
Proof.
  intros H. apply (f_equal list_ascii_of_string) in H.
  rewrite !list_ascii_app in H. apply app_inv_tail in H.
  rewrite <- (string_of_list_ascii_of_string f1), H.
  apply string_of_list_ascii_of_string.
Qed.

Lemma lastAt_snoc k l f m :
  lastAt k (l ++ [(f, m)])
  = if String.eqb (f +:+ "Error") k then Some m else lastAt k l.
Proof. unfold lastAt. by rewrite foldl_snoc. Qed.

Lemma lastAt_app k l1 l2 :
  lastAt k (l1 ++ l2)
  = match lastAt k l2 with Some m => Some m | None => lastAt k l1 end.
Proof.
  induction l2 as [|[f m] l2 IH] using rev_ind.
  - by rewrite app_nil_r.
  - rewrite app_assoc, !lastAt_snoc, IH. by destruct (String.eqb _ _).
Qed.

Lemma lastAt_if k (c : bool) f m :
  lastAt k (if c then [(f, m)] else [])
  = if String.eqb (f +:+ "Error") k then (if c then Some m else None) else None.
Proof. destruct c; unfold lastAt; simpl; by destruct (String.eqb _ _). Qed.

Lemma lastAt_if2 k (c1 c2 : bool) f m1 m2 :
  lastAt k (if c1 then [(f, m1)] else if c2 then [(f, m2)] else [])
  = if String.eqb (f +:+ "Error") k
    then (if c1 then Some m1 else if c2 then Some m2 else None)
    else None.
Proof. destruct c1, c2; unfold lastAt; simpl; by destruct (String.eqb _ _). Qed.

Lemma lastAt_elem_of k l m :
  lastAt k l = Some m → ∃ f, (f, m) ∈ l ∧ f +:+ "Error" = k.
Proof.
  induction l as [|[f m'] l IH] using rev_ind; [done|].
  rewrite lastAt_snoc. destruct (String.eqb_spec (f +:+ "Error") k) as [Heq|Hne].
  - intros [= ->]. exists f. split; [|done].
    apply elem_of_app. right. by apply list_elem_of_singleton.
  - intros H. destruct (IH H) as (f' & Hin & Hk). exists f'. split; [|done].
    apply elem_of_app. by left.
Qed.

Lemma lastAt_is_Some f m l : (f, m) ∈ l → is_Some (lastAt (f +:+ "Error") l).
Proof.
  induction l as [|[f' m'] l IH] using rev_ind; [set_solver|].
  rewrite lastAt_snoc, elem_of_app, list_elem_of_singleton.
  destruct (String.eqb_spec (f' +:+ "Error") (f +:+ "Error")) as [Heq|Hne]; [eauto|].
  intros [Hin|[= -> ->]]; [auto | done].
Qed.

Lemma doc_showErrorW f t w k :
  doc (showErrorW f t w) !! k
  = if String.eqb (f +:+ "Error") k then setTextContent t <$> doc w !! k
    else doc w !! k.
Proof.
  unfold showErrorW, withDoc; simpl. rewrite lookup_alter.
  destruct (String.eqb_spec (f +:+ "Error") k); case_decide; congruence.
Qed.

(** Each element keeps everything but its text, and the text is that of
    the last call that addressed it. *)
Lemma doc_showErrs l w k :
  doc (showErrs l w) !! k
  = match lastAt k l with
    | Some m => setTextContent (lit m) <$> doc w !! k
    | None => doc w !! k
    end.
Proof.
  induction l as [|[f m] l IH] using rev_ind; [done|].
  rewrite showErrs_snoc, doc_showErrorW, lastAt_snoc, IH.
  destruct (String.eqb _ _); [|done].
  destruct (lastAt k l), (doc w !! k); done.
Qed.

Lemma textOf_showErrs l w k :
  textOf k (showErrs l w)
  = match lastAt k l with
    | Some m => (λ _, lit m) <$> textOf k w
    | None => textOf k w
    end.
Proof.
  unfold textOf. rewrite doc_showErrs.
  destruct (lastAt k l), (doc w !! k); done.
Qed.

Lemma displayOf_showErrs l w k : displayOf k (showErrs l w) = displayOf k w.
Proof.
  unfold displayOf. rewrite doc_showErrs.
  destruct (lastAt k l), (doc w !! k); done.
Qed.

Lemma fieldValue_showErrs l w k : fieldValue k (showErrs l w) = fieldValue k w.
Proof.
  unfold fieldValue. rewrite doc_showErrs.
  destruct (lastAt k l), (doc w !! k); done.
Qed.

Lemma rest_showErrs l w :
  defaultPrevented (showErrs l w) = defaultPrevented w
  ∧ scrolledTo (showErrs l w) = scrolledTo w
  ∧ console (showErrs l w) = console w
  ∧ timers (showErrs l w) = timers w.
Proof.
  induction l as [|[f m] l IH] using rev_ind; [done|].
  rewrite showErrs_snoc. exact IH.
Qed.

Lemma textOf_cleared w k :
  textOf k (cleared w)
  = (λ e, if errorClass e then [] else textContent e) <$> doc w !! k.
Proof.
  unfold textOf, cleared; simpl. rewrite lookup_fmap.
  destruct (doc w !! k) as [e|]; simpl; [|done]. by destruct (errorClass e).
Qed.

Lemma displayOf_cleared w k : displayOf k (cleared w) = displayOf k w.
Proof.
  unfold displayOf, cleared; simpl. rewrite lookup_fmap.
  destruct (doc w !! k) as [e|]; simpl; [|done]. by destruct (errorClass e).
Qed.

Lemma is_Some_cleared w k : is_Some (doc (cleared w) !! k) ↔ is_Some (doc w !! k).
Proof. unfold cleared; simpl. rewrite lookup_fmap. apply fmap_is_Some. Qed.

(** A field with a failed check has, after the pass, a message of one of
    its own failed checks in its error element. *)
Lemma showErrs_reports l w f m :
  (f, m) ∈ l →
  is_Some (doc w !! (f +:+ "Error")) →
  ∃ m', (f, m') ∈ l ∧ textOf (f +:+ "Error") (showErrs l w) = Some (lit m').
Proof.
  intros Hin [e He]. destruct (lastAt_is_Some _ _ _ Hin) as [m' Hm'].
  exists m'. split.
  - apply lastAt_elem_of in Hm' as (f' & Hin' & Heq).
    apply error_id_inj in Heq. by subst.
  - rewrite textOf_showErrs, Hm'. unfold textOf. by rewrite He.
Qed.

End ShowErrors.

(** ** The two handlers as a whole *)

Section Handlers.

Implicit Types (w : World) (id k f : string).

Lemma present_is_Some id w : present id w = true ↔ is_Some (doc w !! id).
Proof.
  unfold present. destruct (doc w !! id); split; done.
Qed.

Lemma putDisplay_run id v w :
  present id w = true →
  putDisplay id v w = Ok () (withDoc (alter (setDisplay v) id) w).
Proof.
  unfold present, putDisplay, withDoc.
  destruct (doc w !! id) as [e|] eqn:He; [intros _ | done].
  do 2 f_equal. apply map_eq. intros k.
  rewrite lookup_insert, lookup_alter. case_decide; subst; by rewrite ?He.
Qed.

Lemma putTextContent_run id t w :
  present id w = true →
  putTextContent id t w = Ok () (withDoc (alter (setTextContent t) id) w).
Proof.
  unfold present, putTextContent, withDoc.
  destruct (doc w !! id) as [e|] eqn:He; [intros _ | done].
  do 2 f_equal. apply map_eq. intros k.
  rewrite lookup_insert, lookup_alter. case_decide; subst; by rewrite ?He.
Qed.

Lemma present_alter g id id' w :
  present id' (withDoc (alter g id) w) = present id' w.
Proof.
  unfold present, withDoc; simpl. rewrite lookup_alter.
  case_decide; subst; by destruct (doc w !! _).
Qed.

Lemma present_cleared id w : present id (cleared w) = present id w.
Proof.
  unfold present, cleared; simpl. rewrite lookup_fmap.
  by destruct (doc w !! id).
Qed.

(** A failed submission stops after the checks. *)
Lemma handleBookingSubmit_failure env w v :
  readBooking w = Some v →
  bookingErrors env v ≠ [] →
  handleBookingSubmit env w
  = Ok () (showErrs (bookingErrors env v) (cleared w)).
Proof.
  intros Hv He. unfold handleBookingSubmit, mbind, Js_bind.
  rewrite (bookingValidation_run env w v Hv).
  by destruct (bookingErrors env v).
Qed.

(** A submission without failed checks goes through the success branch. *)
Lemma handleBookingSubmit_success env w v :
  readBooking w = Some v →
  present "bookingForm" w = true →
  present "bookingSuccess" w = true →
  present "bookingRef" w = true →
  bookingErrors env v = [] →
  handleBookingSubmit env w = Ok () (bookingSuccessW env v (cleared w)).
Proof.
  intros Hv H1 H2 H3 He. unfold handleBookingSubmit, mbind, Js_bind at 1.
  rewrite (bookingValidation_run env w v Hv), He.
  change (noErrors []) with true.
  change (showErrs [] (cleared w)) with (cleared w). cbv iota beta.
  rewrite <- present_cleared in H1. rewrite <- present_cleared in H2.
  rewrite <- present_cleared in H3.
  unfold mbind, Js_bind.
  rewrite (putDisplay_run _ _ _ H1).
  rewrite putDisplay_run by (by rewrite present_alter).
  rewrite putTextContent_run by (by rewrite !present_alter).
  reflexivity.
Qed.

End Handlers.

Section ContactRun.

Lemma readContact_fields w v :
  readContact w = Some v →
  fieldValue "name" w = Some (c_name v)
  ∧ fieldValue "email" w = Some (c_email v)
  ∧ fieldValue "phone" w = Some (c_phone v)
  ∧ fieldValue "subject" w = Some (c_subject v)
  ∧ fieldValue "message" w = Some (c_message v).
Proof.
  unfold readContact. intros H.
  repeat match type of H with
         | context [mbind _ ?o] => destruct o eqn:?; simpl in H; [|discriminate]
         end.
  injection H as <-. simpl. repeat split; reflexivity.
Qed.

Lemma contactValidation_run w v :
  readContact w = Some v →
  contactValidation w
  = Ok (noErrors (contactErrors v), contactData v)
       (showErrs (contactErrors v) (cleared w)).
Proof.
  intros H. apply readContact_fields in H as (H1 & H2 & H3 & H4 & H5).
  unfold contactValidation. rewrite prelude_run. cbv zeta.
  rewrite (bind_getValue _ _ _ _ H1), (bind_getValue _ _ _ _ H2),
    (bind_getValue _ _ _ _ H3), (bind_getValue _ _ _ _ H4),
    (bind_getValue _ _ _ _ H5).
  change (cleared w) with (showErrs [] (cleared w)) at 1.
  change (mret true) with (mret (M := Js) (noErrors [])).
  run_checks.
  unfold contactErrors, contactData. rewrite <- !app_assoc, !app_nil_l.
  reflexivity.
Qed.

Lemma handleContactSubmit_failure w v :
  readContact w = Some v →
  contactErrors v ≠ [] →
  handleContactSubmit w = Ok () (showErrs (contactErrors v) (cleared w)).
Proof.
  intros Hv He. unfold handleContactSubmit, mbind, Js_bind.
  rewrite (contactValidation_run w v Hv).
  by destruct (contactErrors v).
Qed.

Lemma handleContactSubmit_success w v :
  readContact w = Some v →
  present "contactForm" w = true →
  present "contactSuccess" w = true →
  contactErrors v = [] →
  handleContactSubmit w = Ok () (contactSuccessW v (cleared w)).
Proof.
  intros Hv H1 H2 He. unfold handleContactSubmit, mbind, Js_bind at 1.
  rewrite (contactValidation_run w v Hv), He.
  change (noErrors []) with true.
  change (showErrs [] (cleared w)) with (cleared w). cbv iota beta.
  rewrite <- present_cleared in H1. rewrite <- present_cleared in H2.
  unfold mbind, Js_bind.
  rewrite (putDisplay_run _ _ _ H1).
  rewrite putDisplay_run by (by rewrite present_alter).
  reflexivity.
Qed.

End ContactRun.

Section Observations.

Implicit Types (w : World) (id : string).

Lemma bookingSuccessW_displays env v w :
  present "bookingForm" w = true →
  present "bookingSuccess" w = true →
  displayOf "bookingForm" (bookingSuccessW env v w) = Some (lit "none")
  ∧ displayOf "bookingSuccess" (bookingSuccessW env v w) = Some (lit "block").
Proof.
  unfold present, displayOf, bookingSuccessW; simpl. intros H1 H2.
  rewrite !lookup_alter. repeat case_decide; try done.
  destruct (doc w !! "bookingForm"), (doc w !! "bookingSuccess"); done.
Qed.

Lemma contactSuccessW_displays v w :
  present "contactForm" w = true →
  present "contactSuccess" w = true →
  displayOf "contactForm" (contactSuccessW v w) = Some (lit "none")
  ∧ displayOf "contactSuccess" (contactSuccessW v w) = Some (lit "block").
Proof.
  unfold present, displayOf, contactSuccessW; simpl. intros H1 H2.
  rewrite !lookup_alter. repeat case_decide; try done.
  destruct (doc w !! "contactForm"), (doc w !! "contactSuccess"); done.
Qed.

(** A pass with failed checks changes nothing but the texts of error
    elements and the event's flag. *)
Lemma failure_leaves l w id :
  displayOf id (showErrs l (cleared w)) = displayOf id w
  ∧ fieldValue id (showErrs l (cleared w)) = fieldValue id w
  ∧ scrolledTo (showErrs l (cleared w)) = scrolledTo w
  ∧ console (showErrs l (cleared w)) = console w
  ∧ timers (showErrs l (cleared w)) = timers w.
Proof.
  rewrite displayOf_showErrs, fieldValue_showErrs, displayOf_cleared, value_cleared.
  destruct (rest_showErrs l (cleared w)) as (_ & -> & -> & ->). done.
Qed.

End Observations.

(** C5: on a page that has the form's controls and panels, a submission of
    either form completes without throwing; every field with a failed check
    has a message of one of its own failed checks in its error element,
    whichever other fields failed before it; with no failed check the
    success panel replaces the form, and with a failed check nothing on the
    page changes but the texts of error elements. *)
Theorem every_failure_reported :
  (∀ env w v,
     readBooking w = Some v →
     present "bookingForm" w = true →
     present "bookingSuccess" w = true →
     present "bookingRef" w = true →
     ∃ w', handleBookingSubmit env w = Ok () w'
       ∧ (∀ f m, (f, m) ∈ bookingErrors env v →
                 present (f +:+ "Error") w = true →
                 ∃ m', (f, m') ∈ bookingErrors env v
                       ∧ textOf (f +:+ "Error") w' = Some (lit m'))
       ∧ (bookingErrors env v = [] →
          displayOf "bookingForm" w' = Some (lit "none")
          ∧ displayOf "bookingSuccess" w' = Some (lit "block"))
       ∧ (bookingErrors env v ≠ [] →
          ∀ id, displayOf id w' = displayOf id w
                ∧ fieldValue id w' = fieldValue id w
                ∧ scrolledTo w' = scrolledTo w
                ∧ console w' = console w
                ∧ timers w' = timers w))
  ∧ (∀ w v,
       readContact w = Some v →
       present "contactForm" w = true →
       present "contactSuccess" w = true →
       ∃ w', handleContactSubmit w = Ok () w'
         ∧ (∀ f m, (f, m) ∈ contactErrors v →
                   present (f +:+ "Error") w = true →
                   ∃ m', (f, m') ∈ contactErrors v
                         ∧ textOf (f +:+ "Error") w' = Some (lit m'))
         ∧ (contactErrors v = [] →
            displayOf "contactForm" w' = Some (lit "none")
            ∧ displayOf "contactSuccess" w' = Some (lit "block"))
         ∧ (contactErrors v ≠ [] →
            ∀ id, displayOf id w' = displayOf id w
                  ∧ fieldValue id w' = fieldValue id w
                  ∧ scrolledTo w' = scrolledTo w
                  ∧ console w' = console w
                  ∧ timers w' = timers w)).
Proof.
  split.
  - intros env w v Hv H1 H2 H3.
    destruct (bookingErrors env v) as [|x l] eqn:He.
    + exists (bookingSuccessW env v (cleared w)).
      split; [by apply handleBookingSubmit_success|].
      split; [intros f m Hin; by apply elem_of_nil in Hin|].
      split; [|done]. intros _.
      apply bookingSuccessW_displays; by rewrite present_cleared.
    + exists (showErrs (x :: l) (cleared w)).
      split; [rewrite <- He; apply handleBookingSubmit_failure; [done | by rewrite He]|].
      split; [|split; [done|]].
      * intros f m Hin Hp. apply (showErrs_reports _ _ f m Hin).
        apply is_Some_cleared. by apply present_is_Some.
      * intros _ id. apply failure_leaves.
  - intros w v Hv H1 H2.
    destruct (contactErrors v) as [|x l] eqn:He.
    + exists (contactSuccessW v (cleared w)).
      split; [by apply handleContactSubmit_success|].
      split; [intros f m Hin; by apply elem_of_nil in Hin|].
      split; [|done]. intros _.
      apply contactSuccessW_displays; by rewrite present_cleared.
    + exists (showErrs (x :: l) (cleared w)).
      split; [rewrite <- He; apply handleContactSubmit_failure; [done | by rewrite He]|].
      split; [|split; [done|]].
      * intros f m Hin Hp. apply (showErrs_reports _ _ f m Hin).
        apply is_Some_cleared. by apply present_is_Some.
      * intros _ id. apply failure_leaves.
Qed.

Lemma every_failure_reported_witness :
  (∃ w', handleBookingSubmit envUtc (bookingPage emptyBooking) = Ok () w'
     ∧ ∃ m', ("privacy", m') ∈ bookingErrors envUtc emptyBooking
             ∧ textOf "privacyError" w' = Some (lit m'))
  ∧ (∃ w', handleContactSubmit (contactPage emptyContact) = Ok () w'
       ∧ ∃ m', ("message", m') ∈ contactErrors emptyContact
               ∧ textOf "messageError" w' = Some (lit m')).
Proof.
  split.
  - destruct (proj1 every_failure_reported envUtc (bookingPage emptyBooking) emptyBooking)
      as (w' & Hrun & Hrep & _); [vm_compute; reflexivity ..|].
    exists w'. split; [exact Hrun|].
    apply (Hrep "privacy" "You must agree to the privacy policy");
      [vm_compute; repeat constructor | vm_compute; reflexivity].
  - destruct (proj2 every_failure_reported (contactPage emptyContact) emptyContact)
      as (w' & Hrun & Hrep & _); [vm_compute; reflexivity ..|].
    exists w'. split; [exact Hrun|].
    apply (Hrep "message" "Message is required");
      [vm_compute; repeat constructor | vm_compute; reflexivity].
Defined.

(** ** When a submission is accepted *)

Section Acceptance.

Implicit Types (s : jsstring) (l : list (string * string)).

Lemma app_nil_iff {A} (l1 l2 : list A) : l1 ++ l2 = [] ↔ l1 = [] ∧ l2 = [].
Proof.
  split; [apply app_eq_nil | by intros [-> ->]].
Qed.

Lemma if_nil_iff {A} (c : bool) (x : A) : (if c then [x] else []) = [] ↔ c = false.
Proof. by destruct c. Qed.

Lemma if2_nil_iff {A} (c1 c2 : bool) (x y : A) :
  (if c1 then [x] else if c2 then [y] else []) = [] ↔ c1 = false ∧ c2 = false.
Proof. destruct c1, c2; split; (done || by intros [? ?]). Qed.

Lemma noErrors_true l : noErrors l = true ↔ l = [].
Proof. by destruct l. Qed.

Lemma not_truthy_false s : negb (truthy s) = false ↔ s ≠ [].
Proof. by destruct s. Qed.

(** The validators refuse the empty string themselves, so the checks for a
    missing value before them decide nothing. *)
Lemma required_then_valid (valid : jsstring → bool) s :
  valid [] = false →
  negb (truthy s) = false ∧ negb (valid s) = false ↔ valid s = true.
Proof.
  intros H0. rewrite !negb_false_iff. destruct s as [|c s].
  - rewrite H0. split; [by intros [_ ?] | done].
  - split; [by intros [_ ?] | by intros ?; split].
Qed.

Lemma required_then_long (n : nat) s :
  0 < n →
  negb (truthy s) = false ∧ (length (trim s) <? n) = false ↔ n ≤ length (trim s).
Proof.
  intros Hn. rewrite Nat.ltb_ge. destruct s as [|c s].
  - change (length (trim [])) with 0. split; [by intros [_ ?] | lia].
  - split; [by intros [_ ?] | by intros ?; split].
Qed.

Lemma sameLocations_false p d :
  p ≠ [] → d ≠ [] →
  sameLocations p d = false ↔ toLowerCase p ≠ toLowerCase d.
Proof.
  intros Hp Hd. unfold sameLocations, strictEq.
  destruct p; [done|]. destruct d; [done|]. simpl truthy. simpl andb.
  rewrite bool_decide_eq_false. done.
Qed.

Lemma trim_long_nonempty (n : nat) s : 0 < n → n ≤ length (trim s) → s ≠ [].
Proof. intros Hn Hl ->. change (length (trim [])) with 0 in Hl. lia. Qed.

Lemma bookingErrors_nil env v :
  bookingErrors env v = [] ↔
  b_service v ≠ []
  ∧ isValidName (b_fullName v) = true
  ∧ isValidEmail (b_email v) = true
  ∧ isValidPhone (b_phone v) = true
  ∧ 3 ≤ length (trim (b_pickupLocation v))
  ∧ 3 ≤ length (trim (b_dropoffLocation v))
  ∧ toLowerCase (b_pickupLocation v) ≠ toLowerCase (b_dropoffLocation v)
  ∧ b_date v ≠ []
  ∧ isValidDate env (b_date v) = true
  ∧ b_time v ≠ []
  ∧ passengersRejected (b_passengers v) = false
  ∧ b_paymentMethod v ≠ []
  ∧ b_terms v = true
  ∧ b_privacy v = true.
Proof.
  unfold bookingErrors.
  rewrite !app_nil_iff, !if2_nil_iff, !if_nil_iff.
  rewrite (required_then_valid isValidName), (required_then_valid isValidEmail),
    (required_then_valid isValidPhone), !(required_then_long 3) by (done || lia).
  rewrite !not_truthy_false, !negb_false_iff.
  split.
  - intros (H1 & H2 & H3 & H4 & H5 & H6 & H7 & [H8 H9] & H10 & H11 & H12 & H13 & H14).
    repeat split; try done.
    apply sameLocations_false; [..|done]; by apply (trim_long_nonempty 3); [lia|].
  - intros (H1 & H2 & H3 & H4 & H5 & H6 & H7 & H8 & H9 & H10 & H11 & H12 & H13 & H14).
    repeat split; try done.
    apply sameLocations_false; [..|done]; by apply (trim_long_nonempty 3); [lia|].
Qed.

Lemma contactErrors_nil v :
  contactErrors v = [] ↔
  isValidName (c_name v) = true
  ∧ isValidEmail (c_email v) = true
  ∧ isValidPhone (c_phone v) = true
  ∧ c_subject v ≠ []
  ∧ 10 ≤ length (trim (c_message v)).
Proof.
  unfold contactErrors.
  rewrite !app_nil_iff, !if2_nil_iff, !if_nil_iff.
  rewrite (required_then_valid isValidName), (required_then_valid isValidEmail),
    (required_then_valid isValidPhone), (required_then_long 10) by (done || lia).
  by rewrite !not_truthy_false.
Qed.

Lemma value_alter (g : Element → Element) k (d : gmap string Element) id :
  (∀ e, value (g e) = value e) →
  value <$> (alter g k d !! id) = value <$> (d !! id).
Proof.
  intros Hg. rewrite lookup_alter. case_decide; [|done].
  subst. destruct (d !! id); simpl; by rewrite ?Hg.
Qed.

End Acceptance.

(** ** Single fields of the booking form *)

Ltac eval_eqb :=
  repeat match goal with
         | |- context [String.eqb ?a ?b] =>
             let r := eval vm_compute in (String.eqb a b) in
             change (String.eqb a b) with r
         end.

Ltac lastAt_compute :=
  unfold bookingErrors, contactErrors;
  rewrite !lastAt_app, ?lastAt_if2, ?lastAt_if; eval_eqb; cbv iota.

Section BookingFields.

Implicit Types (w : World) (v : BookingInput).

Lemma lastAt_noErrors k l m : lastAt k l = Some m → noErrors l = false.
Proof. by destruct l. Qed.

Lemma textOf_errorSlot k w : errorSlotAt k w = true → textOf k (cleared w) = Some [].
Proof.
  unfold errorSlotAt. rewrite textOf_cleared.
  destruct (doc w !! k) as [e|]; simpl; [|done]. by intros ->.
Qed.

Lemma textOf_present k w : present k w = true → is_Some (textOf k (cleared w)).
Proof.
  unfold present. rewrite textOf_cleared.
  destruct (doc w !! k); simpl; [eauto | done].
Qed.

(** The message left in the drop-off field's error element. *)
Lemma lastAt_dropoff env v :
  lastAt "dropoffLocationError" (bookingErrors env v)
  = if sameLocations (b_pickupLocation v) (b_dropoffLocation v)
    then Some "Pickup and drop-off locations must be different"
    else if negb (truthy (b_dropoffLocation v))
    then Some "Drop-off location is required"
    else if length (trim (b_dropoffLocation v)) <? 3
    then Some "Drop-off location must be at least 3 characters"
    else None.
Proof.
  lastAt_compute.
  destruct (sameLocations _ _); [done|].
  destruct (negb _); [done|]. by destruct (_ <? _).
Qed.

Lemma lastAt_pickup env v :
  lastAt "pickupLocationError" (bookingErrors env v)
  = if negb (truthy (b_pickupLocation v))
    then Some "Pickup location is required"
    else if length (trim (b_pickupLocation v)) <? 3
    then Some "Pickup location must be at least 3 characters"
    else None.
Proof.
  lastAt_compute.
  destruct (negb _); [done|]. by destruct (_ <? _).
Qed.

Lemma lastAt_passengers env v :
  lastAt "passengersError" (bookingErrors env v)
  = if passengersRejected (b_passengers v)
    then Some "Please select between 1 and 8 passengers"
    else None.
Proof. lastAt_compute. by destruct (passengersRejected _). Qed.

End BookingFields.

(** C1, as the code has it: when the pickup and the drop-off location are
    equal up to case as they were entered, without trimming, validation
    fails and the drop-off field's error element holds a message, whatever
    the other fields hold.  Two locations that are equal after trimming but
    not as they were entered are not equal up to case: the message that
    they must be different is not written, and the submission is accepted
    exactly when the other checks pass. *)
Theorem same_locations_rejected :
  (∀ env w v,
     readBooking w = Some v →
     present "dropoffLocationError" w = true →
     toLowerCase (b_pickupLocation v) = toLowerCase (b_dropoffLocation v) →
     ∃ data w',
       bookingValidation env w = Ok (false, data) w'
       ∧ handleBookingSubmit env w = Ok () w'
       ∧ (textOf "dropoffLocationError" w'
            = Some (lit "Pickup and drop-off locations must be different")
          ∨ textOf "dropoffLocationError" w'
            = Some (lit "Drop-off location is required")))
  ∧ (∀ env w v,
       readBooking w = Some v →
       errorSlotAt "dropoffLocationError" w = true →
       b_pickupLocation v ≠ b_dropoffLocation v →
       trim (b_pickupLocation v) = trim (b_dropoffLocation v) →
       toLowerCase (b_pickupLocation v) ≠ toLowerCase (b_dropoffLocation v)
       ∧ ∃ isValid w',
           bookingValidation env w = Ok (isValid, bookingData v) w'
           ∧ textOf "dropoffLocationError" w'
             ≠ Some (lit "Pickup and drop-off locations must be different")
           ∧ (isValid = true ↔
              b_service v ≠ []
              ∧ isValidName (b_fullName v) = true
              ∧ isValidEmail (b_email v) = true
              ∧ isValidPhone (b_phone v) = true
              ∧ 3 ≤ length (trim (b_pickupLocation v))
              ∧ b_date v ≠ []
              ∧ isValidDate env (b_date v) = true
              ∧ b_time v ≠ []
              ∧ passengersRejected (b_passengers v) = false
              ∧ b_paymentMethod v ≠ []
              ∧ b_terms v = true
              ∧ b_privacy v = true)).
Proof.
  split.
  - intros env w v Hv Hp Heq.
    assert (Hlast : lastAt "dropoffLocationError" (bookingErrors env v)
                    = Some "Pickup and drop-off locations must be different"
                    ∨ lastAt "dropoffLocationError" (bookingErrors env v)
                      = Some "Drop-off location is required").
    { rewrite lastAt_dropoff. unfold sameLocations, strictEq.
      rewrite bool_decide_eq_true_2 by done. rewrite andb_true_r.
      destruct (b_dropoffLocation v) as [|c d] eqn:Hd.
      - apply (proj1 (toLowerCase_nil _)) in Heq as ->. by right.
      - destruct (b_pickupLocation v); [|by left].
        assert (H0 : toLowerCase (c :: d) = []) by (by rewrite <- Heq).
        apply (proj1 (toLowerCase_nil _)) in H0. discriminate H0. }
    exists (bookingData v), (showErrs (bookingErrors env v) (cleared w)).
    assert (Hno : noErrors (bookingErrors env v) = false)
      by (destruct Hlast as [H|H]; exact (lastAt_noErrors _ _ _ H)).
    split; [by rewrite (bookingValidation_run env w v Hv), Hno|].
    split; [apply handleBookingSubmit_failure; [done | by destruct (bookingErrors env v)]|].
    rewrite textOf_showErrs.
    destruct (textOf_present _ _ Hp) as [t Ht].
    destruct Hlast as [-> | ->]; rewrite Ht; [by left | by right].
  - intros env w v Hv Hslot Hne Htrim.
    assert (Hlow : toLowerCase (b_pickupLocation v) ≠ toLowerCase (b_dropoffLocation v))
      by (intros Hl; by apply Hne, toLowerCase_trim_differ).
    split; [exact Hlow|].
    assert (Hsame : sameLocations (b_pickupLocation v) (b_dropoffLocation v) = false).
    { unfold sameLocations, strictEq. rewrite bool_decide_eq_false_2 by done.
      by rewrite andb_false_r. }
    eexists _, _. split; [exact (bookingValidation_run env w v Hv)|]. split.
    + rewrite textOf_showErrs, lastAt_dropoff, Hsame, textOf_errorSlot by done.
      destruct (negb _); [by vm_compute|]. destruct (_ <? _); by vm_compute.
    + rewrite noErrors_true, bookingErrors_nil, <- Htrim. tauto.
Qed.

Lemma same_locations_rejected_witness :
  (∃ data w',
     bookingValidation envUtc (bookingPage (bookingBetween (lit "Main St") (lit "MAIN ST")))
     = Ok (false, data) w'
     ∧ handleBookingSubmit envUtc (bookingPage (bookingBetween (lit "Main St") (lit "MAIN ST")))
       = Ok () w'
     ∧ (textOf "dropoffLocationError" w'
          = Some (lit "Pickup and drop-off locations must be different")
        ∨ textOf "dropoffLocationError" w'
          = Some (lit "Drop-off location is required")))
  ∧ toLowerCase (lit " Main St") ≠ toLowerCase (lit "Main St ").
Proof.
  split.
  - apply (proj1 same_locations_rejected envUtc
             (bookingPage (bookingBetween (lit "Main St") (lit "MAIN ST")))
             (bookingBetween (lit "Main St") (lit "MAIN ST")));
      vm_compute; reflexivity.
  - apply (proj2 same_locations_rejected envUtc
             (bookingPage (bookingBetween (lit " Main St") (lit "Main St ")))
             (bookingBetween (lit " Main St") (lit "Main St ")));
      vm_compute; (reflexivity || discriminate).
Defined.

(** C1 as the spec words it fails: two locations that differ only by a
    trailing space are equal after trimming, and the submission passes with
    no message on the drop-off field. *)
Lemma same_locations_after_trim_accepted :
  toLowerCase (trim (lit "Main St")) = toLowerCase (trim (lit "Main St "))
  ∧ match bookingValidation envUtc
            (bookingPage (bookingBetween (lit "Main St") (lit "Main St "))) with
    | Ok (isValid, _) w' =>
        isValid = true ∧ textOf "dropoffLocationError" w' = Some []
    | Throw _ => False
    end.
Proof. split; [vm_compute; reflexivity|]. vm_compute. split; reflexivity. Qed.

(** The comparison of line 133 beyond Basic Latin: Cyrillic and Polish
    letters, the Kelvin sign against the letter k, the capital I with dot
    above against an i with a combining dot, a capital sigma at the end of
    a word against the final sigma and, in the middle of a word, against
    the other one, and two letters of the Deseret alphabet, each made of
    two code units. *)
Lemma sameLocations_beyond_latin :
  sameLocations [1052; 1054; 1057; 1050; 1042; 1040]%N
                [1084; 1086; 1089; 1082; 1074; 1072]%N = true
  ∧ sameLocations [321; 211; 68; 377]%N [322; 243; 100; 378]%N = true
  ∧ sameLocations [8490; 105; 110; 103]%N [107; 105; 110; 103]%N = true
  ∧ sameLocations [304; 122; 109; 105; 114]%N [105; 775; 122; 109; 105; 114]%N = true
  ∧ sameLocations [927; 916; 927; 931]%N [959; 948; 959; 962]%N = true
  ∧ sameLocations [927; 916; 927; 931]%N [959; 948; 959; 963]%N = false
  ∧ sameLocations [913; 931; 913]%N [945; 963; 945]%N = true
  ∧ sameLocations [55297; 56320; 55297; 56321]%N [55297; 56360; 55297; 56361]%N = true.
Proof. vm_compute. repeat split; reflexivity. Qed.

(** C10: when the pickup or the drop-off location is empty, the drop-off
    field's error element does not get the message that the two must be
    different; an empty pickup location gets its required-field message and
    an empty drop-off location gets its own. *)
Theorem empty_location_not_compared env w v :
  readBooking w = Some v →
  errorSlotAt "pickupLocationError" w = true →
  errorSlotAt "dropoffLocationError" w = true →
  b_pickupLocation v = [] ∨ b_dropoffLocation v = [] →
  ∃ data w',
    bookingValidation env w = Ok (false, data) w'
    ∧ textOf "dropoffLocationError" w'
      ≠ Some (lit "Pickup and drop-off locations must be different")
    ∧ (b_pickupLocation v = [] →
       textOf "pickupLocationError" w' = Some (lit "Pickup location is required"))
    ∧ (b_dropoffLocation v = [] →
       textOf "dropoffLocationError" w' = Some (lit "Drop-off location is required")).
Proof.
  intros Hv Hp Hd Hempty.
  exists (bookingData v), (showErrs (bookingErrors env v) (cleared w)).
  assert (Hsame : sameLocations (b_pickupLocation v) (b_dropoffLocation v) = false).
  { unfold sameLocations. destruct Hempty as [-> | ->]; [done|].
    by rewrite andb_false_r. }
  pose proof (lastAt_dropoff env v) as Ld. rewrite Hsame in Ld.
  pose proof (lastAt_pickup env v) as Lp.
  rewrite !textOf_showErrs, Ld, Lp, !textOf_errorSlot by done.
  assert (Hno : noErrors (bookingErrors env v) = false).
  { destruct Hempty as [He|He]; rewrite He in *; simpl in *;
      eauto using lastAt_noErrors. }
  split; [by rewrite (bookingValidation_run env w v Hv), Hno|].
  split; [|split].
  - destruct (negb _); [by vm_compute|]. destruct (_ <? _); by vm_compute.
  - by intros ->.
  - by intros ->.
Qed.

Lemma empty_location_not_compared_witness :
  ∃ data w',
    bookingValidation envUtc (bookingPage (bookingBetween [] [])) = Ok (false, data) w'
    ∧ textOf "dropoffLocationError" w'
      ≠ Some (lit "Pickup and drop-off locations must be different")
    ∧ (b_pickupLocation (bookingBetween [] []) = [] →
       textOf "pickupLocationError" w' = Some (lit "Pickup location is required"))
    ∧ (b_dropoffLocation (bookingBetween [] []) = [] →
       textOf "dropoffLocationError" w' = Some (lit "Drop-off location is required")).
Proof.
  apply (empty_location_not_compared envUtc (bookingPage (bookingBetween [] []))
           (bookingBetween [] []));
    [vm_compute; reflexivity | vm_compute; reflexivity | vm_compute; reflexivity
    | left; reflexivity].
Defined.

(** ** The passenger count *)

Section Passengers.

Local Open Scope Z_scope.

Implicit Types (s ds : jsstring) (c : N).

Lemma isDigit_not_space c : isDigit c = true → isWhiteSpace c = false.
Proof.
  unfold isDigit. rewrite andb_true_iff, !N.leb_le. intros [H1 H2].
  assert (c = 48 ∨ c = 49 ∨ c = 50 ∨ c = 51 ∨ c = 52 ∨ c = 53 ∨ c = 54
          ∨ c = 55 ∨ c = 56 ∨ c = 57)%N as Hc by lia.
  repeat destruct Hc as [->|Hc]; try reflexivity. by subst.
Qed.

Lemma isDigit_range c : isDigit c = true → (48 ≤ c ≤ 57)%N.
Proof. unfold isDigit. rewrite andb_true_iff, !N.leb_le. done. Qed.

Lemma spanDigits_all ds : forallb isDigit ds = true → spanDigits ds = (ds, []).
Proof.
  induction ds as [|c ds IH]; simpl; [done|].
  rewrite andb_true_iff. intros [-> H]. by rewrite (IH H).
Qed.

Lemma trimStart_head c s : isWhiteSpace c = false → trimStart (c :: s) = c :: s.
Proof. simpl. by intros ->. Qed.

(** A string that neither starts nor ends with white space is its own
    trimmed form. *)
Lemma trim_fixed c s c' s' :
  isWhiteSpace c = false → isWhiteSpace c' = false →
  c :: s = s' ++ [c'] → trim (c :: s) = c :: s.
Proof.
  intros Hc Hc' Heq. unfold trim, trimEnd. rewrite (trimStart_head _ _ Hc).
  rewrite Heq, rev_app_distr. simpl. rewrite Hc'. simpl.
  by rewrite rev_involutive.
Qed.

(** The number read from a run of digits. *)
Lemma unsignedDecimal_digits ds :
  ds ≠ [] → forallb isDigit ds = true →
  unsignedDecimal ds = Some (digitsVal ds, 0).
Proof.
  intros Hne Hall. unfold unsignedDecimal.
  rewrite (spanDigits_all _ Hall), app_nil_r. by destruct ds.
Qed.

Lemma strDecimalLiteral_integer s n :
  integerOf s = Some n → strDecimalLiteral s = Fin n 0.
Proof.
  unfold integerOf, strDecimalLiteral.
  destruct (signOf s) as [neg ds]. destruct ds as [|c ds]; [done|].
  destruct (forallb isDigit (c :: ds)) eqn:Hall; [|done]. intros [= <-].
  unfold strictEq. rewrite bool_decide_eq_false_2.
  - by rewrite unsignedDecimal_digits.
  - intros Heq. rewrite Heq in Hall. discriminate Hall.
Qed.

Lemma integerOf_shape s n :
  integerOf s = Some n →
  ∃ c r c' r', s = c :: r ∧ s = r' ++ [c']
               ∧ isWhiteSpace c = false ∧ isWhiteSpace c' = false
               ∧ (c = 48%N → ∀ c2 r2, r = c2 :: r2 → isDigit c2 = true).
Proof.
  unfold integerOf, signOf. destruct s as [|c r]; [done|].
  assert (Hlast : ∀ ds, ds ≠ [] → forallb isDigit ds = true →
                        ∃ c' r', ds = r' ++ [c'] ∧ isWhiteSpace c' = false).
  { intros ds Hne Hall. destruct (exists_last Hne) as (r' & c' & ->).
    exists c', r'. split; [done|]. apply isDigit_not_space.
    rewrite forallb_app in Hall. simpl in Hall.
    by destruct (isDigit c'); [|rewrite andb_false_r in Hall]. }
  destruct (N.eqb_spec c 45) as [->|H45]; [|destruct (N.eqb_spec c 43) as [->|H43]].
  - destruct r as [|d r]; [done|].
    destruct (forallb isDigit (d :: r)) eqn:Hall; [|done]. intros _.
    destruct (Hlast (d :: r)) as (c' & r' & Heq & Hc'); [done..|].
    exists 45%N, (d :: r), c', (45%N :: r'). rewrite Heq. by repeat split.
  - destruct r as [|d r]; [done|].
    destruct (forallb isDigit (d :: r)) eqn:Hall; [|done]. intros _.
    destruct (Hlast (d :: r)) as (c' & r' & Heq & Hc'); [done..|].
    exists 43%N, (d :: r), c', (43%N :: r'). rewrite Heq. by repeat split.
  - destruct (forallb isDigit (c :: r)) eqn:Hall; [|done]. intros _.
    destruct (Hlast (c :: r)) as (c' & r' & Heq & Hc'); [done..|].
    exists c, r, c', r'. repeat split; try done.
    + apply isDigit_not_space. simpl in Hall. by destruct (isDigit c).
    + intros _ c2 r2 ->. simpl in Hall.
      destruct (isDigit c); [|done]. by destruct (isDigit c2).
Qed.

(** An integer literal is read as that integer. *)
Lemma stringToNumber_integer s n :
  integerOf s = Some n → stringToNumber s = Fin n 0.
Proof.
  intros Hn.
  destruct (integerOf_shape s n Hn) as (c & r & c' & r' & Hs & Hs' & Hc & Hc' & H0).
  subst s. unfold stringToNumber. rewrite (trim_fixed c r c' r' Hc Hc' Hs').
  assert (Hr : radixPrefix (c :: r) = None).
  { unfold radixPrefix. destruct r as [|c2 r2]; [done|].
    destruct (N.eqb_spec c 48) as [H48|]; [|done].
    pose proof (isDigit_range _ (H0 H48 c2 r2 eq_refl)) as Hr.
    destruct (N.eqb_spec c2 120), (N.eqb_spec c2 88), (N.eqb_spec c2 111),
      (N.eqb_spec c2 79), (N.eqb_spec c2 98), (N.eqb_spec c2 66);
      simpl; try done; lia. }
  rewrite Hr. by apply strDecimalLiteral_integer.
Qed.

Lemma integerOf_truthy s n : integerOf s = Some n → truthy s = true.
Proof.
  intros Hn. destruct (integerOf_shape s n Hn) as (c & r & _ & _ & -> & _). done.
Qed.

(** For integers the check of line 154 is the range check. *)
Lemma passengersRejected_integer s n :
  integerOf s = Some n →
  passengersRejected s = false ↔ 1 ≤ n ≤ 8.
Proof.
  intros Hn. unfold passengersRejected.
  rewrite (integerOf_truthy s n Hn), (stringToNumber_integer s n Hn).
  unfold ltOne, gtEight, fraction. simpl.
  rewrite !orb_false_iff, !Z.ltb_ge. lia.
Qed.

Lemma passengersRejected_unfold s :
  passengersRejected s = false ↔
  s ≠ [] ∧ ltOne (stringToNumber s) = false ∧ gtEight (stringToNumber s) = false.
Proof.
  unfold passengersRejected. destruct s as [|c s].
  - split; [done | by intros [? _]].
  - change (negb (truthy (c :: s))) with false.
    rewrite orb_false_l, orb_false_iff. split; [by intros [? ?] | by intros (_ & ? & ?)].
Qed.

End Passengers.

(** C3, as the code has it: the passenger-count field gets its message
    exactly when the value is empty or its numeric conversion is below 1 or
    above 8.  An absent value fails, an integer passes exactly when it lies
    in 1 to 8, and a value that is not an integer is not refused for that:
    ["2.5"] passes. *)
Theorem passengers_rule :
  (∀ env w v,
     readBooking w = Some v →
     errorSlotAt "passengersError" w = true →
     ∃ isValid data w',
       bookingValidation env w = Ok (isValid, data) w'
       ∧ textOf "passengersError" w'
         = Some (if passengersRejected (b_passengers v)
                 then lit "Please select between 1 and 8 passengers" else [])
       ∧ (passengersRejected (b_passengers v) = true → isValid = false))
  ∧ passengersRejected [] = true
  ∧ (∀ s n, integerOf s = Some n →
            passengersRejected s = false ↔ (1 ≤ n ≤ 8)%Z)
  ∧ (∀ s, passengersRejected s = false ↔
          s ≠ [] ∧ ltOne (stringToNumber s) = false
          ∧ gtEight (stringToNumber s) = false)
  ∧ passengersRejected (lit "2.5") = false.
Proof.
  split; [|split; [reflexivity|split; [exact passengersRejected_integer|]]].
  - intros env w v Hv Hslot.
    exists (noErrors (bookingErrors env v)), (bookingData v),
      (showErrs (bookingErrors env v) (cleared w)).
    split; [exact (bookingValidation_run env w v Hv)|].
    rewrite textOf_showErrs, textOf_errorSlot by done.
    pose proof (lastAt_passengers env v) as L.
    destruct (passengersRejected (b_passengers v)); rewrite L; [|done].
    split; [done|]. intros _. exact (lastAt_noErrors _ _ _ L).
  - split; [exact passengersRejected_unfold | reflexivity].
Qed.

Lemma passengers_rule_witness :
  (∃ isValid data w',
     bookingValidation envUtc (bookingPage (bookingFor (lit "9")))
     = Ok (isValid, data) w'
     ∧ textOf "passengersError" w'
       = Some (if passengersRejected (b_passengers (bookingFor (lit "9")))
               then lit "Please select between 1 and 8 passengers" else [])
     ∧ (passengersRejected (b_passengers (bookingFor (lit "9"))) = true →
        isValid = false))
  ∧ (passengersRejected (lit "8") = false ↔ (1 ≤ 8 ≤ 8)%Z).
Proof.
  split.
  - apply (proj1 passengers_rule envUtc (bookingPage (bookingFor (lit "9")))
             (bookingFor (lit "9"))); vm_compute; reflexivity.
  - apply (proj1 (proj2 (proj2 passengers_rule)) (lit "8") 8%Z).
    vm_compute; reflexivity.
Defined.

(** C3 as the spec words it fails: a value that is not an integer passes the
    check, and the submission is valid. *)
Lemma passengers_fraction_accepted :
  integerOf (lit "2.5") = None
  ∧ match bookingValidation envUtc (bookingPage (bookingFor (lit "2.5"))) with
    | Ok (isValid, _) w' =>
        isValid = true ∧ textOf "passengersError" w' = Some []
    | Throw _ => False
    end.
Proof. split; [reflexivity|]. vm_compute. split; reflexivity. Qed.

(** ** Strings that are no dates *)

Section InvalidDates.

Local Open Scope Z_scope.




End InvalidDates.



(** ** The fare estimate *)

Section Fare.

Local Open Scope Z_scope.

Implicit Types (w : World) (service : jsstring).

(** Every base fare of the table is positive. *)
Lemma baseFares_positive service base :
  baseFares !! service = Some base → 0 < base.
Proof.
  assert (H : map_Forall (λ _ b, 0 < b) baseFares)
    by (refine (bool_decide_unpack _ _); vm_compute; exact I).
  apply H.
Qed.

(** Without a usable base fare only the panel is hidden. *)
Lemma updateEstimatedFare_hidden service w :
  present "priceEstimate" w = true →
  baseFares !! service = None ∨ baseFares !! service = Some 0 →
  updateEstimatedFare service w
  = Ok () (withDoc (alter (setDisplay (lit "none")) "priceEstimate") w).
Proof.
  intros Hp H. unfold updateEstimatedFare, baseFaresGet.
  destruct H as [-> | ->]; simpl.
  - destruct (bool_decide _); simpl; by apply putDisplay_run.
  - by apply putDisplay_run.
Qed.

(** With a base fare the three amounts are written and the panel shown. *)
Lemma updateEstimatedFare_shown service base w :
  present "baseFare" w = true →
  present "estimatedTotal" w = true →
  present "summaryTotal" w = true →
  present "priceEstimate" w = true →
  baseFares !! service = Some base →
  updateEstimatedFare service w
  = Ok () (withDoc
             (λ d, alter (setDisplay (lit "block")) "priceEstimate"
                     (alter (setTextContent (lit "$" ++ integerToString (base + 10)))
                        "summaryTotal"
                        (alter (setTextContent (lit "$" ++ integerToString (base + 10)))
                           "estimatedTotal"
                           (alter (setTextContent (lit "$" ++ integerToString base))
                              "baseFare" d)))) w).
Proof.
  intros H1 H2 H3 H4 Hb. pose proof (baseFares_positive _ _ Hb) as Hpos.
  unfold updateEstimatedFare, baseFaresGet. rewrite Hb. unfold orZero.
  destruct (Z.eqb_spec base 0) as [|_]; [lia|].
  destruct (Z.ltb_spec 0 base) as [_|]; [|lia].
  cbv zeta. unfold mbind, Js_bind.
  rewrite (putTextContent_run _ _ _ H1).
  rewrite putTextContent_run by (by rewrite present_alter).
  rewrite putTextContent_run by (by rewrite !present_alter).
  rewrite putDisplay_run by (by rewrite !present_alter).
  reflexivity.
Qed.

End Fare.

(** C6: a service key that is not in the fare table, or whose fare is zero,
    gets no estimate and the price panel is hidden; any other key gets its
    base fare and the base fare plus 10 written out and the panel shown.
    ["economy"] gives 10 and 20, and a key that is not in the table gives no
    estimate. *)
Theorem fare_estimate :
  (∀ service w,
     present "baseFare" w = true →
     present "estimatedTotal" w = true →
     present "summaryTotal" w = true →
     present "priceEstimate" w = true →
     ∃ w', updateEstimatedFare service w = Ok () w'
       ∧ (baseFares !! service = None ∨ baseFares !! service = Some 0%Z →
          displayOf "priceEstimate" w' = Some (lit "none")
          ∧ ∀ id, textOf id w' = textOf id w)
       ∧ (∀ base, baseFares !! service = Some base → base ≠ 0%Z →
          textOf "baseFare" w' = Some (lit "$" ++ integerToString base)
          ∧ textOf "estimatedTotal" w' = Some (lit "$" ++ integerToString (base + 10))
          ∧ textOf "summaryTotal" w' = Some (lit "$" ++ integerToString (base + 10))
          ∧ displayOf "priceEstimate" w' = Some (lit "block")))
  ∧ baseFares !! lit "economy" = Some 10%Z
  ∧ integerToString 10 = lit "10" ∧ integerToString (10 + 10) = lit "20"
  ∧ baseFares !! lit "limousine" = None.
Proof.
  split; [|repeat split; vm_compute; reflexivity].
  intros service w H1 H2 H3 H4.
  destruct (baseFares !! service) as [base|] eqn:Hb.
  - eexists. split; [by apply (updateEstimatedFare_shown service base)|].
    pose proof (baseFares_positive _ _ Hb) as Hpos. split.
    + intros [[=] | [= ->]]. lia.
    + intros ? [= <-] _. unfold present, textOf, displayOf, withDoc in *; simpl.
      rewrite !lookup_alter. repeat case_decide; try done.
      destruct (doc w !! "baseFare"), (doc w !! "estimatedTotal"),
        (doc w !! "summaryTotal"), (doc w !! "priceEstimate"); done.
  - eexists. split; [apply updateEstimatedFare_hidden; [done | by left]|].
    split; [|done]. intros _. unfold present, textOf, displayOf, withDoc in *; simpl.
    split.
    + rewrite lookup_alter. case_decide; [|done].
      by destruct (doc w !! "priceEstimate").
    + intros id. rewrite lookup_alter. case_decide; [|done]. subst.
      by destruct (doc w !! "priceEstimate").
Qed.

Lemma fare_estimate_witness :
  ∃ w', updateEstimatedFare (lit "economy") farePage = Ok () w'
    ∧ textOf "baseFare" w' = Some (lit "$" ++ integerToString 10)
    ∧ textOf "estimatedTotal" w' = Some (lit "$" ++ integerToString (10 + 10))
    ∧ textOf "summaryTotal" w' = Some (lit "$" ++ integerToString (10 + 10))
    ∧ displayOf "priceEstimate" w' = Some (lit "block").
Proof.
  destruct (proj1 fare_estimate (lit "economy") farePage) as (w' & Hrun & _ & Hshown);
    [vm_compute; reflexivity ..|].
  exists w'. split; [exact Hrun|].
  apply Hshown; [vm_compute; reflexivity | discriminate].
Defined.

(** * Further properties of the script *)

(** ** The submissions that are accepted *)

(** X1: a booking is accepted exactly when a service, a date, a time and a
    payment method are given, the name, the email address and the phone
    number pass their validators, both locations have three characters or
    more after trimming and differ when case is ignored, the date passes
    [isValidDate], the passenger count is not refused and both consents
    are checked. *)
Theorem booking_accepted_iff env w v :
  readBooking w = Some v →
  ∃ isValid w',
    bookingValidation env w = Ok (isValid, bookingData v) w'
    ∧ (isValid = true ↔
       b_service v ≠ []
       ∧ isValidName (b_fullName v) = true
       ∧ isValidEmail (b_email v) = true
       ∧ isValidPhone (b_phone v) = true
       ∧ 3 ≤ length (trim (b_pickupLocation v))
       ∧ 3 ≤ length (trim (b_dropoffLocation v))
       ∧ toLowerCase (b_pickupLocation v) ≠ toLowerCase (b_dropoffLocation v)
       ∧ b_date v ≠ []
       ∧ isValidDate env (b_date v) = true
       ∧ b_time v ≠ []
       ∧ passengersRejected (b_passengers v) = false
       ∧ b_paymentMethod v ≠ []
       ∧ b_terms v = true
       ∧ b_privacy v = true).
Proof.
  intros Hv. eexists _, _. split; [exact (bookingValidation_run env w v Hv)|].
  rewrite noErrors_true. apply bookingErrors_nil.
Qed.

Lemma booking_accepted_iff_witness :
  ∃ w', bookingValidation envUtc (bookingPage goodBooking)
        = Ok (true, bookingData goodBooking) w'.
Proof.
  destruct (booking_accepted_iff envUtc (bookingPage goodBooking) goodBooking)
    as (isValid & w' & Hrun & Hiff); [vm_compute; reflexivity|].
  exists w'. rewrite Hrun. do 2 f_equal.
  apply Hiff. vm_compute. repeat split; (reflexivity || discriminate || lia).
Defined.

(** X2: a contact message is accepted exactly when the name, the email
    address and the phone number pass their validators, a subject is chosen
    and the message has ten characters or more after trimming.  The form is
    then not reset at once: the success panel replaces it, the values stay,
    the data is logged and one reset is scheduled 3000 ms later.  A refused
    message schedules nothing. *)
Theorem contact_accepted_iff w v :
  readContact w = Some v →
  present "contactForm" w = true →
  present "contactSuccess" w = true →
  ∃ isValid w1 w',
    contactValidation w = Ok (isValid, contactData v) w1
    ∧ handleContactSubmit w = Ok () w'
    ∧ (isValid = true ↔
       isValidName (c_name v) = true
       ∧ isValidEmail (c_email v) = true
       ∧ isValidPhone (c_phone v) = true
       ∧ c_subject v ≠ []
       ∧ 10 ≤ length (trim (c_message v)))
    ∧ (isValid = true →
       displayOf "contactForm" w' = Some (lit "none")
       ∧ displayOf "contactSuccess" w' = Some (lit "block")
       ∧ timers w' = (ResetContactForm, 3000%Z) :: timers w
       ∧ console w' = (lit "Contact Data:", contactData v) :: console w
       ∧ ∀ id, fieldValue id w' = fieldValue id w)
    ∧ (isValid = false → timers w' = timers w ∧ console w' = console w).
Proof.
  intros Hv H1 H2. exists (noErrors (contactErrors v)).
  destruct (contactErrors v) as [|x l] eqn:He.
  - exists (showErrs [] (cleared w)), (contactSuccessW v (cleared w)).
    split; [by rewrite (contactValidation_run w v Hv), He|].
    split; [by apply handleContactSubmit_success|].
    split; [rewrite <- He, noErrors_true; apply contactErrors_nil|].
    split; [|done]. intros _.
    destruct (contactSuccessW_displays v (cleared w)) as [D1 D2];
      [by rewrite present_cleared ..|].
    repeat split; try done. intros id.
    rewrite <- (value_cleared w id). unfold fieldValue, contactSuccessW; simpl.
    by rewrite !value_alter.
  - exists (showErrs (x :: l) (cleared w)), (showErrs (x :: l) (cleared w)).
    split; [by rewrite (contactValidation_run w v Hv), He|].
    split; [rewrite <- He; apply handleContactSubmit_failure; [done | by rewrite He]|].
    split; [rewrite <- He, noErrors_true; apply contactErrors_nil|].
    split; [done|]. intros _.
    destruct (rest_showErrs (x :: l) (cleared w)) as (_ & _ & -> & ->). done.
Qed.

Lemma contact_accepted_iff_witness :
  ∃ w', handleContactSubmit
          (contactPage (mkContactInput (lit "Ann Lee") (lit "a@b.c")
                          (lit "555-123-4567") (lit "booking")
                          (lit "  Please call me back.  ")))
        = Ok () w'
        ∧ timers w' = [(ResetContactForm, 3000%Z)].
Proof.
  destruct (contact_accepted_iff
              (contactPage (mkContactInput (lit "Ann Lee") (lit "a@b.c")
                              (lit "555-123-4567") (lit "booking")
                              (lit "  Please call me back.  ")))
              (mkContactInput (lit "Ann Lee") (lit "a@b.c")
                 (lit "555-123-4567") (lit "booking")
                 (lit "  Please call me back.  ")))
    as (isValid & w1 & w' & _ & Hrun & Hiff & Hyes & _); [vm_compute; reflexivity ..|].
  exists w'. split; [exact Hrun|].
  apply Hyes. apply Hiff. vm_compute. repeat split; (reflexivity || discriminate || lia).
Defined.

(** ** Messages from one pass to the next *)

Section Passes.

Implicit Types (w : World) (k f : string) (l : list (string * string)).

Lemma lastAt_None f l : (∀ m, (f, m) ∉ l) → lastAt (f +:+ "Error") l = None.
Proof.
  intros Hf. destruct (lastAt (f +:+ "Error") l) as [m|] eqn:Hl; [|done].
  apply lastAt_elem_of in Hl as (f' & Hin & Heq).
  apply error_id_inj in Heq. subst f'. by destruct (Hf m).
Qed.




Lemma world_eq w1 w2 :
  doc w1 = doc w2 → defaultPrevented w1 = defaultPrevented w2 →
  scrolledTo w1 = scrolledTo w2 → console w1 = console w2 →
  timers w1 = timers w2 → w1 = w2.
Proof. destruct w1, w2; simpl. by intros -> -> -> -> ->. Qed.



End Passes.

(** X3: after a pass, a field without a failed check shows no message of
    an earlier attempt, provided [.error] matches its error element (then
    [clearErrors] has emptied it); an error element that [.error] does not
    match keeps the text it had. *)
Theorem passing_field_cleared :
  (∀ env w v f e,
     readBooking w = Some v →
     doc w !! (f +:+ "Error") = Some e →
     (∀ m, (f, m) ∉ bookingErrors env v) →
     ∃ r w', bookingValidation env w = Ok r w'
       ∧ textOf (f +:+ "Error") w'
         = Some (if errorClass e then [] else textContent e))
  ∧ (∀ w v f e,
       readContact w = Some v →
       doc w !! (f +:+ "Error") = Some e →
       (∀ m, (f, m) ∉ contactErrors v) →
       ∃ r w', contactValidation w = Ok r w'
         ∧ textOf (f +:+ "Error") w'
           = Some (if errorClass e then [] else textContent e)).
Proof.
  split.
  - intros env w v f e Hv He Hf. eexists _, _.
    split; [exact (bookingValidation_run env w v Hv)|].
    rewrite textOf_showErrs, (lastAt_None _ _ Hf), textOf_cleared, He. done.
  - intros w v f e Hv He Hf. eexists _, _.
    split; [exact (contactValidation_run w v Hv)|].
    rewrite textOf_showErrs, (lastAt_None _ _ Hf), textOf_cleared, He. done.
Qed.

Lemma passing_field_cleared_witness :
  textOf "emailError" (stalePage goodBooking) = Some (lit "Email is required")
  ∧ ∃ r w', bookingValidation envUtc (stalePage goodBooking) = Ok r w'
            ∧ textOf "emailError" w' = Some [].
Proof.
  split; [vm_compute; reflexivity|].
  apply (proj1 passing_field_cleared envUtc (stalePage goodBooking) goodBooking
           "email" (mkElement [] false (lit "Email is required") [] true));
    [vm_compute; reflexivity | vm_compute; reflexivity |].
  intros m Hin. vm_compute in Hin. by apply elem_of_nil in Hin.
Defined.



(** X5: the message on the drop-off field after a pass.  The comparison
    with the pickup location is made last and overwrites the field's own
    message: two locations that are both given and equal up to case, and
    that are also too short, show that they must be different, not that
    they are too short. *)
Theorem dropoff_message env w v :
  readBooking w = Some v →
  errorSlotAt "dropoffLocationError" w = true →
  (sameLocations (b_pickupLocation v) (b_dropoffLocation v) = true ↔
   b_pickupLocation v ≠ [] ∧ b_dropoffLocation v ≠ []
   ∧ toLowerCase (b_pickupLocation v) = toLowerCase (b_dropoffLocation v))
  ∧ ∃ r w',
      bookingValidation env w = Ok r w'
      ∧ textOf "dropoffLocationError" w'
        = Some (if sameLocations (b_pickupLocation v) (b_dropoffLocation v)
                then lit "Pickup and drop-off locations must be different"
                else if negb (truthy (b_dropoffLocation v))
                then lit "Drop-off location is required"
                else if length (trim (b_dropoffLocation v)) <? 3
                then lit "Drop-off location must be at least 3 characters"
                else []).
Proof.
  intros Hv Hslot. split.
  - unfold sameLocations, strictEq.
    rewrite !andb_true_iff, bool_decide_eq_true.
    rewrite <- !not_truthy_false, !negb_false_iff. tauto.
  - eexists _, _.
    split; [exact (bookingValidation_run env w v Hv)|].
    rewrite textOf_showErrs, lastAt_dropoff, textOf_errorSlot by done.
    destruct (sameLocations _ _); [done|].
    destruct (negb _); [done|]. by destruct (_ <? _).
Qed.

Lemma dropoff_message_witness :
  ∃ r w',
    bookingValidation envUtc
      (bookingPage (bookingBetween [1091; 1083]%N [1059; 1051]%N))
    = Ok r w'
    ∧ textOf "dropoffLocationError" w'
      = Some (lit "Pickup and drop-off locations must be different").
Proof.
  exact (proj2 (dropoff_message envUtc
                  (bookingPage (bookingBetween [1091; 1083]%N [1059; 1051]%N))
                  (bookingBetween [1091; 1083]%N [1059; 1051]%N) eq_refl eq_refl)).
Defined.

(** ** Elements the page lacks *)

Section Missing.

Implicit Types (w : World) (id f : string).

Lemma present_value id w : present id w = true → ∃ x, fieldValue id w = Some x.
Proof.
  unfold present, fieldValue. destruct (doc w !! id) as [e|]; [|done].
  intros _. by exists (value e).
Qed.

Lemma present_checked id w : present id w = true → ∃ x, fieldChecked id w = Some x.
Proof.
  unfold present, fieldChecked. destruct (doc w !! id) as [e|]; [|done].
  intros _. by exists (checked e).
Qed.

(** Reading a control the page lacks throws, whatever would follow. *)
Lemma bind_getValue_missing {A} (k : jsstring → Js A) id w :
  present id w = false → (getValue id ≫= k) (cleared w) = Throw (TypeError id).
Proof.
  intros H. rewrite <- present_cleared in H. unfold present in H.
  unfold mbind, Js_bind, getValue. by destruct (doc (cleared w) !! id).
Qed.

Lemma bind_getChecked_missing {A} (k : bool → Js A) id w :
  present id w = false → (getChecked id ≫= k) (cleared w) = Throw (TypeError id).
Proof.
  intros H. rewrite <- present_cleared in H. unfold present in H.
  unfold mbind, Js_bind, getChecked. by destruct (doc (cleared w) !! id).
Qed.

End Missing.

(** One read of a handler: the control is there and the read goes on to the
    next, or it is the first one missing and the read throws. *)
Ltac read_next H :=
  match type of H with
  | (if negb (present ?id ?w) then _ else _) = _ =>
      let P := fresh "P" in
      destruct (present id w) eqn:P; simpl in H;
      [ first
          [ let x := fresh "x" in
            destruct (present_value id w P) as [x ?];
            erewrite (bind_getValue _ id w x) by eassumption
          | let x := fresh "x" in
            destruct (present_checked id w P) as [x ?];
            erewrite (bind_getChecked _ id w x) by eassumption ]
      | injection H as <-;
        first [ exact (bind_getValue_missing _ _ _ P)
              | exact (bind_getChecked_missing _ _ _ P) ] ]
  end.

Section MissingControls.

Lemma bookingValidation_missing env w id :
  firstMissing bookingControls w = Some id →
  bookingValidation env w = Throw (TypeError id).
Proof.
  unfold firstMissing, bookingControls. simpl. intros H.
  unfold bookingValidation. rewrite prelude_run. cbv zeta.
  do 12 (try read_next H). discriminate H.
Qed.

Lemma contactValidation_missing w id :
  firstMissing contactControls w = Some id →
  contactValidation w = Throw (TypeError id).
Proof.
  unfold firstMissing, contactControls. simpl. intros H.
  unfold contactValidation. rewrite prelude_run. cbv zeta.
  do 5 (try read_next H). discriminate H.
Qed.

End MissingControls.

(** X6: on a page that lacks a control of the form, the handler throws a
    [TypeError] for the first missing control in reading order. *)
Theorem missing_control_throws :
  (∀ env w id,
     firstMissing bookingControls w = Some id →
     handleBookingSubmit env w = Throw (TypeError id))
  ∧ (∀ w id,
       firstMissing contactControls w = Some id →
       handleContactSubmit w = Throw (TypeError id)).
Proof.
  split.
  - intros env w id H. unfold handleBookingSubmit, mbind, Js_bind.
    by rewrite (bookingValidation_missing env w id H).
  - intros w id H. unfold handleContactSubmit, mbind, Js_bind.
    by rewrite (contactValidation_missing w id H).
Qed.

Lemma missing_control_throws_witness :
  handleBookingSubmit envUtc (withDoc (delete "phone") (bookingPage goodBooking))
  = Throw (TypeError "phone")
  ∧ handleContactSubmit (withDoc (delete "subject") (contactPage emptyContact))
    = Throw (TypeError "subject").
Proof.
  split.
  - apply (proj1 missing_control_throws). vm_compute. reflexivity.
  - apply (proj2 missing_control_throws). vm_compute. reflexivity.
Defined.

(** ** [showError] and [clearErrors] together *)

Lemma doc_withDoc g w : doc (withDoc g w) = g (doc w).
Proof. reflexivity. Qed.

(** X7: [showError] on a field without an error element does nothing and
    does not throw.  A message it has written is taken away again by
    [clearErrors] when [.error] matches the error element, and the page is
    then as if nothing had been shown; when [.error] does not match it, the
    message survives [clearErrors]. *)
Theorem shown_then_cleared :
  (∀ f m w, doc w !! (f +:+ "Error") = None → showError f m w = Ok () w)
  ∧ (∀ f m w e,
       doc w !! (f +:+ "Error") = Some e → errorClass e = true →
       (showError f m ;; clearErrors) w = clearErrors w)
  ∧ (∀ f m w e,
       doc w !! (f +:+ "Error") = Some e → errorClass e = false →
       ∃ w', (showError f m ;; clearErrors) w = Ok () w'
             ∧ textOf (f +:+ "Error") w' = Some m).
Proof.
  split; [|split].
  - intros f m w H. unfold showError. by rewrite H.
  - intros f m w e He Hc. unfold mbind, Js_bind. rewrite showError_run.
    unfold clearErrors. f_equal. apply world_eq; try done.
    rewrite !doc_withDoc. apply map_eq. intros k.
    rewrite !lookup_fmap, doc_showErrorW.
    destruct (String.eqb_spec (f +:+ "Error") k) as [<-|]; [|done].
    rewrite He; simpl. by rewrite Hc.
  - intros f m w e He Hc. unfold mbind, Js_bind. rewrite showError_run.
    eexists. split; [reflexivity|].
    unfold textOf. rewrite doc_withDoc, lookup_fmap, doc_showErrorW.
    rewrite String.eqb_refl, He; simpl. by rewrite Hc.
Qed.

Lemma shown_then_cleared_witness :
  (showError "email" (lit "Email is required") ;; clearErrors) (bookingPage goodBooking)
  = clearErrors (bookingPage goodBooking).
Proof.
  apply (proj1 (proj2 shown_then_cleared) "email" (lit "Email is required")
           (bookingPage goodBooking) errorSlot); vm_compute; reflexivity.
Defined.

(** ** The booking reference *)

Section Reference.

Implicit Types (s ds : jsstring) (c : N).

Lemma forallb_below (p : N → bool) (k : nat) :
  forallb (λ n, p (N.of_nat n)) (seq 0 k) = true →
  ∀ c, (c < N.of_nat k)%N → p c = true.
Proof.
  intros H c Hc. rewrite forallb_forall in H. rewrite <- (N2Nat.id c).
  apply H, in_seq. lia.
Qed.

(** The upper case of a base-36 digit, by the tables. *)
Lemma upperCodePoint_base36 c :
  isBase36 c = true →
  upperCodePoint c = [upperDigit c] ∧ isUpperBase36 (upperDigit c) = true.
Proof.
  intros Hc.
  assert (Hlt : (c < N.of_nat 123)%N).
  { unfold isBase36 in Hc.
    rewrite orb_true_iff, !andb_true_iff, !N.leb_le in Hc. lia. }
  pose proof (forallb_below
                (λ c, implb (isBase36 c)
                        (bool_decide (upperCodePoint c = [upperDigit c])
                         && isUpperBase36 (upperDigit c))) 123) as H.
  specialize (H ltac:(vm_compute; reflexivity) c Hlt). simpl in H.
  rewrite Hc in H. apply andb_true_iff in H as [H1 H2].
  by apply bool_decide_eq_true in H1.
Qed.

Lemma base36_units ds :
  forallb isBase36 ds = true →
  stringToCodePoints ds = ds
  ∧ codePointsToString (map upperDigit ds) = map upperDigit ds.
Proof.
  induction ds as [|c ds IH]; [done|]. simpl forallb.
  rewrite andb_true_iff. intros [Hc Hds]. destruct (IH Hds) as [IH1 IH2].
  unfold isBase36 in Hc. rewrite orb_true_iff, !andb_true_iff, !N.leb_le in Hc.
  split.
  - change (consUnit c (stringToCodePoints ds) = c :: ds). rewrite IH1.
    unfold consUnit. destruct ds as [|t r]; [done|].
    replace (isLeadSurrogate c) with false; [done|].
    symmetry. apply not_true_is_false. unfold isLeadSurrogate.
    rewrite andb_true_iff, !N.leb_le. lia.
  - change (codePointToUnits (upperDigit c) ++ codePointsToString (map upperDigit ds)
            = upperDigit c :: map upperDigit ds).
    rewrite IH2. unfold codePointToUnits.
    replace (upperDigit c <? 65536)%N with true; [done|].
    symmetry. apply N.ltb_lt. unfold upperDigit. destruct (_ && _); lia.
Qed.

(** Upper-casing base-36 digits is done digit by digit. *)
Lemma toUpperCase_base36 ds :
  forallb isBase36 ds = true →
  toUpperCase ds = map upperDigit ds
  ∧ forallb isUpperBase36 (map upperDigit ds) = true.
Proof.
  intros Hds. destruct (base36_units ds Hds) as [H1 H2]. split.
  - unfold toUpperCase. rewrite H1, <- H2. f_equal.
    clear H1 H2. induction ds as [|c ds IH]; [done|].
    simpl in Hds |- *. apply andb_true_iff in Hds as [Hc Hds].
    by rewrite (proj1 (upperCodePoint_base36 c Hc)), IH.
  - clear H1 H2. induction ds as [|c ds IH]; [done|].
    simpl in Hds |- *. apply andb_true_iff in Hds as [Hc Hds].
    by rewrite (proj2 (upperCodePoint_base36 c Hc)), IH.
Qed.

Lemma forallb_take {A} (p : A → bool) (n : nat) (l : list A) :
  forallb p l = true → forallb p (take n l) = true.
Proof.
  revert n. induction l as [|x l IH]; intros [|n]; simpl; try done.
  rewrite !andb_true_iff. intros [? ?]. auto.
Qed.

Lemma textOf_bookingRef env v w :
  present "bookingRef" w = true →
  textOf "bookingRef" (bookingSuccessW env v w)
  = Some (lit "BK" ++ toUpperCase (substr 2 9 (randomToString36 env))).
Proof.
  unfold present, textOf, bookingSuccessW. cbn [doc].
  rewrite lookup_alter, decide_True by done.
  rewrite !lookup_alter, !decide_False by done.
  by destruct (doc w !! "bookingRef").
Qed.

End Reference.

(** X8: an accepted booking hides the form, shows the success panel, scrolls
    to the top, keeps the values of the controls and schedules nothing.
    The reference it writes is ["BK"] followed by the upper case of the
    nine code units of [Math.random().toString(36)] after the second.  When
    that numeral is ["0."] followed by base-36 digits, these are the first
    nine digits, and fewer when there are fewer, each of them in upper
    case. *)
Theorem booking_reference env w v ds :
  readBooking w = Some v →
  present "bookingForm" w = true →
  present "bookingSuccess" w = true →
  present "bookingRef" w = true →
  bookingErrors env v = [] →
  randomToString36 env = lit "0." ++ ds →
  forallb isBase36 ds = true →
  ∃ w',
    handleBookingSubmit env w = Ok () w'
    ∧ textOf "bookingRef" w'
      = Some (lit "BK" ++ toUpperCase (substr 2 9 (randomToString36 env)))
    ∧ textOf "bookingRef" w' = Some (lit "BK" ++ map upperDigit (take 9 ds))
    ∧ length (map upperDigit (take 9 ds)) = min 9 (length ds)
    ∧ forallb isUpperBase36 (map upperDigit (take 9 ds)) = true
    ∧ displayOf "bookingForm" w' = Some (lit "none")
    ∧ displayOf "bookingSuccess" w' = Some (lit "block")
    ∧ scrolledTo w' = (0, 0)%Z :: scrolledTo w
    ∧ timers w' = timers w
    ∧ ∀ id, fieldValue id w' = fieldValue id w.
Proof.
  intros Hv H1 H2 H3 He Hr Hds.
  exists (bookingSuccessW env v (cleared w)).
  split; [by apply handleBookingSubmit_success|].
  destruct (toUpperCase_base36 (take 9 ds)) as [L U]; [by apply forallb_take|].
  destruct (bookingSuccessW_displays env v (cleared w)) as [D1 D2];
    [by rewrite present_cleared ..|].
  assert (Href : textOf "bookingRef" (bookingSuccessW env v (cleared w))
                 = Some (lit "BK" ++ toUpperCase (substr 2 9 (randomToString36 env))))
    by (rewrite textOf_bookingRef by (by rewrite present_cleared); done).
  split; [exact Href|]. split; [|split; [|repeat split; try done]].
  - rewrite Href, Hr. do 2 f_equal. exact L.
  - rewrite length_map, length_take. lia.
  - intros id. rewrite <- (value_cleared w id).
    unfold fieldValue, bookingSuccessW; simpl. by rewrite !value_alter.
Qed.

Lemma booking_reference_witness :
  ∃ w', handleBookingSubmit envUtc (bookingPage goodBooking) = Ok () w'
        ∧ textOf "bookingRef" w' = Some (lit "BK4FZYO82MV").
Proof.
  destruct (booking_reference envUtc (bookingPage goodBooking) goodBooking
              (lit "4fzyo82mvyr"))
    as (w' & Hrun & _ & Href & _); [vm_compute; reflexivity ..|].
  exists w'. split; [exact Hrun|]. rewrite Href. vm_compute. reflexivity.
Defined.

(** ** The fare estimate on a page without its elements *)

Section FareMissing.

Implicit Types (w : World) (id : string).

Lemma putTextContent_missing id t w :
  present id w = false → putTextContent id t w = Throw (TypeError id).
Proof. unfold present, putTextContent. by destruct (doc w !! id). Qed.

Lemma putDisplay_missing id v w :
  present id w = false → putDisplay id v w = Throw (TypeError id).
Proof. unfold present, putDisplay. by destruct (doc w !! id). Qed.

End FareMissing.

(** X9: with a service of the fare table, [updateEstimatedFare] throws a
    [TypeError] for the first of its four elements that the page lacks.
    With any other service it needs the price panel only: it hides the
    panel when the page has it, whether or not the three amounts are there,
    and throws when it has not. *)
Theorem fare_estimate_missing :
  (∀ service base w id,
     baseFares !! service = Some base →
     firstMissing farePanelIds w = Some id →
     updateEstimatedFare service w = Throw (TypeError id))
  ∧ (∀ service w,
       baseFares !! service = None →
       updateEstimatedFare service w
       = if present "priceEstimate" w
         then Ok () (withDoc (alter (setDisplay (lit "none")) "priceEstimate") w)
         else Throw (TypeError "priceEstimate")).
Proof.
  split.
  - intros service base w id Hb H. pose proof (baseFares_positive _ _ Hb) as Hpos.
    unfold updateEstimatedFare, baseFaresGet. rewrite Hb. unfold orZero.
    destruct (Z.eqb_spec base 0) as [|_]; [lia|].
    destruct (Z.ltb_spec 0 base) as [_|]; [|lia].
    cbv zeta. unfold mbind, Js_bind.
    unfold firstMissing, farePanelIds in H. simpl in H.
    destruct (present "baseFare" w) eqn:P1; simpl in H;
      [|injection H as <-; by rewrite putTextContent_missing].
    rewrite (putTextContent_run _ _ _ P1).
    destruct (present "estimatedTotal" w) eqn:P2; simpl in H;
      [|injection H as <-; by rewrite putTextContent_missing by (by rewrite present_alter)].
    rewrite putTextContent_run by (by rewrite present_alter).
    destruct (present "summaryTotal" w) eqn:P3; simpl in H;
      [|injection H as <-; by rewrite putTextContent_missing by (by rewrite !present_alter)].
    rewrite putTextContent_run by (by rewrite !present_alter).
    destruct (present "priceEstimate" w) eqn:P4; simpl in H; [discriminate H|].
    injection H as <-. by rewrite putDisplay_missing by (by rewrite !present_alter).
  - intros service w Hb. unfold updateEstimatedFare, baseFaresGet. rewrite Hb.
    destruct (present "priceEstimate" w) eqn:P.
    + destruct (bool_decide _); simpl; by apply putDisplay_run.
    + destruct (bool_decide _); simpl; by apply putDisplay_missing.
Qed.

Lemma fare_estimate_missing_witness :
  updateEstimatedFare (lit "xl") (withDoc (delete "summaryTotal") farePage)
  = Throw (TypeError "summaryTotal").
Proof.
  apply (proj1 fare_estimate_missing (lit "xl") 25%Z); vm_compute; reflexivity.
Defined.

(** ** Days other than today *)

(** X10: whenever the offset of local time that is in force at the start
    of the local day is less than a day from UTC, a date-only string for a
    day after the local day is accepted by [isValidDate] and one for a day
    before the local day is refused. *)
Theorem isValidDate_other_days env s k :
  (- msPerDay < offsetAtMidnight env < msPerDay)%Z →
  newDate env s = Some (k * msPerDay)%Z →
  ((localDay env < k)%Z → isValidDate env s = true)
  ∧ ((k < localDay env)%Z → isValidDate env s = false).
Proof.
  intros Htz Hs. unfold isValidDate. cbv zeta.
  rewrite Hs, greaterEq_Some, todayMidnight_localDay.
  split; intros Hk.
  - apply Z.leb_le. unfold msPerDay in *. lia.
  - apply Z.leb_gt. unfold msPerDay in *. lia.
Qed.

Lemma isValidDate_other_days_witness :
  isValidDate envAzores (lit "2026-10-26") = true.
Proof.
  apply (isValidDate_other_days envAzores (lit "2026-10-26") (makeDay 2026 10 26));
    vm_compute; (reflexivity || (split; reflexivity)).
Defined.

(** ** The calendar *)

Section Calendar.

Local Open Scope Z_scope.

Implicit Types (y m d r day : Z).

Lemma yearUp_spec day : ∀ fuel y,
  dayFromYear y ≤ day →
  day < dayFromYear (y + Z.of_nat fuel + 1) →
  dayFromYear (yearUp fuel y day) ≤ day < dayFromYear (yearUp fuel y day + 1).
Proof.
  induction fuel as [|fuel IH]; intros y Hlo Hhi; simpl yearUp.
  - replace (y + Z.of_nat 0 + 1) with (y + 1) in Hhi by lia. lia.
  - destruct (Z.leb_spec (dayFromYear (y + 1)) day) as [Hle|Hgt]; [|lia].
    apply IH; [done|].
    replace (y + 1 + Z.of_nat fuel + 1) with (y + Z.of_nat (S fuel) + 1) by lia.
    done.
Qed.

(** [yearFromDay] is the year the day lies in. *)
Lemma yearFromDay_spec day :
  dayFromYear (yearFromDay day) ≤ day < dayFromYear (yearFromDay day + 1).
Proof.
  unfold yearFromDay. apply yearUp_spec.
  - unfold dayFromYear. destruct (Z.leb_spec 0 day); Z.div_mod_to_equations; lia.
  - unfold dayFromYear. destruct (Z.leb_spec 0 day); Z.div_mod_to_equations; lia.
Qed.

(** A year has 365 days and one more when it is a leap year. *)
Lemma year_length y : dayFromYear (y + 1) = dayFromYear y + 365 + leapDay y.
Proof.
  unfold dayFromYear, leapDay, isLeapYear.
  destruct (Z.eqb_spec (y mod 4) 0), (Z.eqb_spec (y mod 100) 0),
    (Z.eqb_spec (y mod 400) 0); simpl; Z.div_mod_to_equations; lia.
Qed.

Lemma leapDay_range y : 0 ≤ leapDay y ≤ 1.
Proof. unfold leapDay. destruct (isLeapYear y); lia. Qed.

Lemma dayWithinYear_ends y :
  dayWithinYear y 1 = 0 ∧ dayWithinYear y 13 = 365 + leapDay y.
Proof.
  unfold dayWithinYear, leapDay, daysInMonth. simpl.
  destruct (isLeapYear y); split; reflexivity.
Qed.

(** The first day of a month and the length of the month give the first
    day of the next. *)
Lemma dayWithinYear_step y m :
  1 ≤ m ≤ 12 → dayWithinYear y (m + 1) = dayWithinYear y m + daysInMonth y m.
Proof.
  intros Hm.
  assert (m = 1 ∨ m = 2 ∨ m = 3 ∨ m = 4 ∨ m = 5 ∨ m = 6 ∨ m = 7 ∨ m = 8
          ∨ m = 9 ∨ m = 10 ∨ m = 11 ∨ m = 12) as H by lia.
  repeat destruct H as [H|H]; subst m;
    unfold dayWithinYear, daysInMonth; simpl; destruct (isLeapYear y); reflexivity.
Qed.

Lemma monthUp_spec y r : ∀ fuel m,
  1 ≤ m → m + Z.of_nat fuel = 12 →
  dayWithinYear y m ≤ r < dayWithinYear y 13 →
  m ≤ monthUp fuel y m r ≤ 12
  ∧ dayWithinYear y (monthUp fuel y m r) ≤ r
    < dayWithinYear y (monthUp fuel y m r + 1).
Proof.
  induction fuel as [|fuel IH]; intros m Hm Hf Hr; simpl monthUp.
  - assert (m = 12) as -> by lia. change (12 + 1) with 13. lia.
  - destruct (Z.leb_spec (dayWithinYear y (m + 1)) r) as [Hle|Hgt]; [|lia].
    destruct (IH (m + 1)) as [? ?]; lia.
Qed.

(** The month and the day of the month of day [r] of a year: a month from 1
    to 12 and a day that the month has, which together are day [r]. *)
Lemma monthFromDayInYear_spec y r :
  0 ≤ r < 365 + leapDay y →
  let m := monthFromDayInYear y r in
  let d := r - dayWithinYear y m + 1 in
  1 ≤ m ≤ 12 ∧ 1 ≤ d ≤ daysInMonth y m.
Proof.
  intros Hr. cbv zeta. destruct (dayWithinYear_ends y) as [W1 W13].
  destruct (monthUp_spec y r 11 1) as [Hm Hd]; [lia | lia | lia |].
  fold (monthFromDayInYear y r) in Hm, Hd.
  rewrite dayWithinYear_step in Hd by lia. lia.
Qed.

End Calendar.

(** ** Numbers written with leading zeros *)

Section Padding.

Local Open Scope Z_scope.

Lemma padded4 n : 0 ≤ n ≤ 9999 → paddedOk 4 n = true.
Proof.
  intros Hn.
  assert (H : forallb (λ i, paddedOk 4 (Z.of_nat i)) (seq 0 (Z.to_nat 10000)) = true)
    by (vm_compute; reflexivity).
  rewrite forallb_forall in H. specialize (H (Z.to_nat n)).
  rewrite Z2Nat.id in H by lia. apply H, in_seq. lia.
Qed.

Lemma padded2 n : 0 ≤ n ≤ 99 → paddedOk 2 n = true.
Proof.
  intros Hn.
  assert (H : forallb (λ i, paddedOk 2 (Z.of_nat i)) (seq 0 (Z.to_nat 100)) = true)
    by (vm_compute; reflexivity).
  rewrite forallb_forall in H. specialize (H (Z.to_nat n)).
  rewrite Z2Nat.id in H by lia. apply H, in_seq. lia.
Qed.

Lemma padded4_inv n :
  paddedOk 4 n = true →
  ∃ a b c d, padStart 4 48 (integerToString n) = [a; b; c; d]
             ∧ forallb isDigit [a; b; c; d] = true
             ∧ digitsVal [a; b; c; d] = n.
Proof.
  unfold paddedOk. cbv zeta.
  destruct (padStart 4 48 (integerToString n)) as [|a [|b [|c [|d [|x l]]]]];
    try discriminate.
  rewrite !andb_true_iff, Z.eqb_eq. intros [[_ H1] H2]. by exists a, b, c, d.
Qed.

Lemma padded2_inv n :
  paddedOk 2 n = true →
  ∃ a b, padStart 2 48 (integerToString n) = [a; b]
         ∧ forallb isDigit [a; b] = true
         ∧ digitsVal [a; b] = n.
Proof.
  unfold paddedOk. cbv zeta.
  destruct (padStart 2 48 (integerToString n)) as [|a [|b [|x l]]];
    try discriminate.
  rewrite !andb_true_iff, Z.eqb_eq. intros [[_ H1] H2]. by exists a, b.
Qed.

End Padding.

(** ** The earliest date of the date input *)

Section MinDate.

Local Open Scope Z_scope.

Lemma parseIsoDateOnly_digits (a b c d e f g h : N) :
  forallb isDigit [a; b; c; d; e; f; g; h] = true →
  parseIsoDateOnly [a; b; c; d; 45%N; e; f; 45%N; g; h]
  = if (1 <=? digitsVal [e; f]) && (digitsVal [e; f] <=? 12)
       && (1 <=? digitsVal [g; h])
       && (digitsVal [g; h] <=? daysInMonth (digitsVal [a; b; c; d]) (digitsVal [e; f]))
    then Some (makeDay (digitsVal [a; b; c; d]) (digitsVal [e; f]) (digitsVal [g; h])
               * msPerDay)
    else None.
Proof. intros H. unfold parseIsoDateOnly. by rewrite H. Qed.

(** The date part of [toISOString] is read back by the date-only form as
    midnight UTC of the same day, for the years that are written with four
    digits. *)
Lemma toISODate_parse t :
  0 ≤ yearFromDay (t / msPerDay) ≤ 9999 →
  parseIsoDateOnly (toISODate t) = Some (t / msPerDay * msPerDay).
Proof.
  intros Hy. unfold toISODate. cbv zeta.
  set (day := t / msPerDay) in *. set (y := yearFromDay day) in *.
  pose proof (yearFromDay_spec day) as Hday. fold y in Hday.
  rewrite year_length in Hday.
  set (r := day - dayFromYear y).
  destruct (monthFromDayInYear_spec y r) as [Hm Hd]; [unfold r; lia|].
  set (m := monthFromDayInYear y r) in *.
  set (d := r - dayWithinYear y m + 1) in *.
  assert (Hd31 : d ≤ 99).
  { assert (daysInMonth y m ≤ 31); [|lia]. unfold daysInMonth.
    destruct (m =? 2); [destruct (isLeapYear y); lia|]. destruct (_ || _); lia. }
  unfold yearString.
  destruct (Z.leb_spec 0 y), (Z.leb_spec y 9999); try lia. simpl andb. cbv iota.
  destruct (padded4_inv y) as (a & b & c & e & -> & Dy & Vy); [apply padded4; lia|].
  destruct (padded2_inv m) as (f & g & -> & Dm & Vm); [apply padded2; lia|].
  destruct (padded2_inv d) as (h & i & -> & Dd & Vd); [apply padded2; lia|].
  change ([a; b; c; e] ++ lit "-" ++ [f; g] ++ lit "-" ++ [h; i])
    with [a; b; c; e; 45%N; f; g; 45%N; h; i].
  rewrite parseIsoDateOnly_digits.
  - rewrite Vy, Vm, Vd.
    destruct (Z.leb_spec 1 m), (Z.leb_spec m 12), (Z.leb_spec 1 d),
      (Z.leb_spec d (daysInMonth y m)); try lia.
    simpl andb. cbv iota. do 2 f_equal. unfold makeDay, d, r. lia.
  - simpl in Dy, Dm, Dd |- *.
    repeat match goal with
           | H : _ && _ = true |- _ => apply andb_true_iff in H as [? ?]
           end.
    repeat (apply andb_true_iff; split; [assumption|]). reflexivity.
Qed.

End MinDate.

(** X11: the minimum given to the date input, the date part of
    [toISOString], is read back by [new Date] as midnight UTC of the current
    UTC day (for the years written with four digits).  What [isValidDate]
    makes of that minimum goes by the offset of local time in force at the
    start of the local day: when it is zero, and zero now, the minimum is
    accepted; when it is at or east of UTC the minimum is accepted unless
    the local day is already the next one; when it is west of UTC the
    minimum is refused whenever the local day is the UTC day. *)
Theorem minDate_round_trip env :
  (0 ≤ utcYear env ≤ 9999)%Z →
  newDate env (minDate env) = Some (utcDay env * msPerDay)%Z
  ∧ (localTZA env (now env) true = 0%Z → offsetAtMidnight env = 0%Z →
     isValidDate env (minDate env) = true)
  ∧ ((0 ≤ offsetAtMidnight env < msPerDay)%Z →
     isValidDate env (minDate env) = true ↔ (localDay env ≤ utcDay env)%Z)
  ∧ ((- msPerDay < offsetAtMidnight env < 0)%Z →
     isValidDate env (minDate env) = true ↔ (localDay env < utcDay env)%Z).
Proof.
  intros Hy.
  assert (Hnew : newDate env (minDate env) = Some (utcDay env * msPerDay)%Z).
  { unfold newDate, minDate. by rewrite (toISODate_parse (now env) Hy). }
  split; [exact Hnew|]. split; [|split].
  - intros Hnow Htz. apply (isValidDate_east env _ (utcDay env)); [|done|].
    + rewrite Htz. unfold msPerDay. lia.
    + unfold localDay, utcDay, localTime. rewrite Hnow, Z.add_0_r. lia.
  - intros Htz. by apply isValidDate_east.
  - intros Htz. by apply isValidDate_west.
Qed.

Lemma minDate_round_trip_witness :
  newDate envWest (minDate envWest) = Some (utcDay envWest * msPerDay)%Z
  ∧ isValidDate envWest (minDate envWest) = false
  ∧ isValidDate envAzores (minDate envAzores) = true.
Proof.
  destruct (minDate_round_trip envWest) as (Hnew & _ & _ & Hwest);
    [vm_compute; split; discriminate|].
  split; [exact Hnew|]. split.
  - apply not_true_is_false. intros Hacc.
    apply Hwest in Hacc; [|vm_compute; split; reflexivity].
    vm_compute in Hacc. discriminate Hacc.
  - destruct (minDate_round_trip envAzores) as (_ & _ & Heast & _);
      [vm_compute; split; discriminate|].
    apply Heast; vm_compute; [split|]; (reflexivity || discriminate).
Defined.

(** ** The default of the time input *)

(** X12: the default given to the time input is always a valid time
    string: two digits, a colon and two digits, which read back as the hour
    (below 24) and the minute (below 60) of the local time.  On a page with
    a time input it becomes the value of that input and of nothing else;
    without one the page is left as it is. *)
Theorem defaultTime_valid env :
  isTimeString (defaultTime env) = true
  ∧ (∃ h1 h2 m1 m2,
       defaultTime env = [h1; h2; 58%N; m1; m2]
       ∧ digitsVal [h1; h2] = localHours env
       ∧ digitsVal [m1; m2] = localMinutes env)
  ∧ (∀ w, ∃ w', setDefaultTime env w = Ok () w'
        ∧ fieldValue "time" w'
          = (if present "time" w then Some (defaultTime env) else None)
        ∧ ∀ id, id ≠ "time" → doc w' !! id = doc w !! id).
Proof.
  assert (Hh : (0 ≤ localHours env < 24)%Z)
    by (unfold localHours; apply Z.mod_pos_bound; lia).
  assert (Hm : (0 ≤ localMinutes env < 60)%Z)
    by (unfold localMinutes; apply Z.mod_pos_bound; lia).
  assert (Hshape : ∃ h1 h2 m1 m2,
             defaultTime env = [h1; h2; 58%N; m1; m2]
             ∧ forallb isDigit [h1; h2; m1; m2] = true
             ∧ digitsVal [h1; h2] = localHours env
             ∧ digitsVal [m1; m2] = localMinutes env).
  { unfold defaultTime. cbv zeta.
    destruct (padded2_inv (localHours env)) as (h1 & h2 & -> & Dh & Vh);
      [apply padded2; lia|].
    destruct (padded2_inv (localMinutes env)) as (m1 & m2 & -> & Dm & Vm);
      [apply padded2; lia|].
    exists h1, h2, m1, m2. split; [reflexivity|]. split; [|done].
    simpl in Dh, Dm |- *.
    repeat match goal with
           | H : _ && _ = true |- _ => apply andb_true_iff in H as [? ?]
           end.
    repeat (apply andb_true_iff; split; [assumption|]). reflexivity. }
  destruct Hshape as (h1 & h2 & m1 & m2 & Hs & Hd & Vh & Vm).
  split; [|split].
  - rewrite Hs. unfold isTimeString. rewrite Hd, Vh, Vm. simpl.
    destruct (Z.ltb_spec (localHours env) 24), (Z.ltb_spec (localMinutes env) 60);
      (done || lia).
  - by exists h1, h2, m1, m2.
  - intros w. unfold setDefaultTime, present, fieldValue.
    destruct (doc w !! "time") as [e|] eqn:He.
    + eexists. split; [reflexivity|]. rewrite !doc_withDoc. split.
      * by rewrite lookup_insert_eq.
      * intros id Hid. by rewrite lookup_insert_ne.
    + exists w. by rewrite He.
Qed.

(** ** One fare estimate after another *)

Section FareTwice.

Implicit Types (w : World) (service : jsstring).

Lemma fareShown_run service base w :
  present "baseFare" w = true → present "estimatedTotal" w = true →
  present "summaryTotal" w = true → present "priceEstimate" w = true →
  baseFares !! service = Some base →
  updateEstimatedFare service w = Ok () (withDoc (fareShown base) w).
Proof. exact (updateEstimatedFare_shown service base w). Qed.

Lemma fareHidden_run service w :
  present "priceEstimate" w = true →
  baseFares !! service = None →
  updateEstimatedFare service w = Ok () (withDoc fareHidden w).
Proof. intros H Hb. apply updateEstimatedFare_hidden; [done | by left]. Qed.

Lemma present_fareShown base id w :
  present id (withDoc (fareShown base) w) = present id w.
Proof.
  unfold present, fareShown. rewrite doc_withDoc, !lookup_alter.
  repeat case_decide; subst; by destruct (doc w !! _).
Qed.

Lemma present_fareHidden id w : present id (withDoc fareHidden w) = present id w.
Proof. apply present_alter. Qed.

(** Writing the price panel for a service of the table covers whatever an
    earlier call wrote. *)
Lemma fareShown_covers (b : Z) w g :
  g = fareHidden ∨ (∃ a, g = fareShown a) →
  withDoc (fareShown b) (withDoc g w) = withDoc (fareShown b) w.
Proof.
  intros Hg. apply world_eq; try done. rewrite !doc_withDoc.
  apply map_eq. intros k.
  destruct Hg as [-> | [a ->]]; unfold fareShown, fareHidden;
    rewrite !lookup_alter;
    repeat case_decide; subst; try done; by destruct (doc w !! _).
Qed.

End FareTwice.

(** X13: for a service of the fare table, what [updateEstimatedFare] leaves
    does not depend on the call before it: the panel shows the fare of the
    service chosen last, and calling it twice is calling it once.  For a
    service that is not in the table the panel is hidden but the amounts of
    the service before stay where they were written, the total in the
    summary included. *)
Theorem fare_of_last_service :
  (∀ before service base w w1,
     present "baseFare" w = true →
     present "estimatedTotal" w = true →
     present "summaryTotal" w = true →
     present "priceEstimate" w = true →
     baseFares !! service = Some base →
     updateEstimatedFare before w = Ok () w1 →
     updateEstimatedFare service w1 = updateEstimatedFare service w)
  ∧ (∀ before base service w w1 w2,
       present "baseFare" w = true →
       present "estimatedTotal" w = true →
       present "summaryTotal" w = true →
       present "priceEstimate" w = true →
       baseFares !! before = Some base →
       baseFares !! service = None →
       updateEstimatedFare before w = Ok () w1 →
       updateEstimatedFare service w1 = Ok () w2 →
       displayOf "priceEstimate" w2 = Some (lit "none")
       ∧ textOf "summaryTotal" w2 = Some (lit "$" ++ integerToString (base + 10))).
Proof.
  split.
  - intros before service base w w1 H1 H2 H3 H4 Hb Hrun.
    rewrite (fareShown_run service base w) by done.
    destruct (baseFares !! before) as [a|] eqn:Ha.
    + rewrite (fareShown_run before a w) in Hrun by done.
      injection Hrun as <-.
      rewrite (fareShown_run service base) by (by rewrite ?present_fareShown).
      f_equal. apply fareShown_covers. eauto.
    + rewrite (fareHidden_run before w) in Hrun by done.
      injection Hrun as <-.
      rewrite (fareShown_run service base) by (by rewrite ?present_fareHidden).
      f_equal. apply fareShown_covers. eauto.
  - intros before base service w w1 w2 H1 H2 H3 H4 Ha Hb Hrun1 Hrun2.
    rewrite (fareShown_run before base w) in Hrun1 by done.
    injection Hrun1 as <-.
    rewrite fareHidden_run in Hrun2 by (by rewrite ?present_fareShown).
    injection Hrun2 as <-.
    unfold present, displayOf, textOf, fareHidden, fareShown in *.
    rewrite !doc_withDoc, !lookup_alter.
    repeat case_decide; try done.
    destruct (doc w !! "priceEstimate"), (doc w !! "summaryTotal"); done.
Qed.

Lemma fare_of_last_service_witness :
  (updateEstimatedFare (lit "premium") farePage
   = Ok () (withDoc (fareShown 40) farePage)
   ∧ updateEstimatedFare (lit "economy") (withDoc (fareShown 40) farePage)
     = updateEstimatedFare (lit "economy") farePage)
  ∧ (updateEstimatedFare [] (withDoc (fareShown 40) farePage)
     = Ok () (withDoc fareHidden (withDoc (fareShown 40) farePage))
     ∧ textOf "summaryTotal" (withDoc fareHidden (withDoc (fareShown 40) farePage))
       = Some (lit "$" ++ integerToString (40 + 10))).
Proof.
  assert (H1 : updateEstimatedFare (lit "premium") farePage
               = Ok () (withDoc (fareShown 40) farePage))
    by (apply fareShown_run; vm_compute; reflexivity).
  assert (H2 : updateEstimatedFare [] (withDoc (fareShown 40) farePage)
               = Ok () (withDoc fareHidden (withDoc (fareShown 40) farePage)))
    by (apply fareHidden_run; vm_compute; reflexivity).
  split; (split; [done|]).
  - apply (proj1 fare_of_last_service (lit "premium") (lit "economy") 10%Z farePage);
      solve [vm_compute; reflexivity | exact H1].
  - apply (proj2 fare_of_last_service (lit "premium") 40%Z [] farePage
             (withDoc (fareShown 40) farePage)
             (withDoc fareHidden (withDoc (fareShown 40) farePage)));
      solve [vm_compute; reflexivity | exact H1 | exact H2].
Defined.
